(** * SipJs: a shallow embedding of the SIP signalling stack

    The definitions below follow the JavaScript sources function by
    function.  Mutable objects become records threaded through the
    functions, callbacks invoked on collaborators become entries of an
    effect trace, exceptions become an error result, [Math.random ()] and
    the collaborators that live outside the modelled files (digest
    computation, SDP parsing, request cloning) become parameters. *)

From Stdlib Require Import String Ascii List Bool ZArith QArith Qround Lia Lqa.
From Stdlib Require Import DecimalString NArith.
Import ListNotations.

Local Open Scope string_scope.
Local Open Scope Z_scope.
Local Open Scope list_scope.

(* ================================================================== *)
(** * JavaScript values *)
(* ================================================================== *)

(** JavaScript's [a !== b] on strings. *)
Definition strict_neq (a b : string) : bool := negb (String.eqb a b).

(** The exceptions thrown by the modelled functions. *)
Inductive Exception : Type :=
| InvalidStateError
| TypeError (msg : string)
| NotSupportedError.

(** Outcome of a call that may throw: the state and the effects reached
    when it returned or threw, and the exception if it threw. *)
Definition Outcome (S E : Type) : Type := S * list E * option Exception.

(** JavaScript truthiness of a number that may be [undefined]. *)
Definition truthy (n : option Z) : bool :=
  match n with
  | Some v => negb (v =? 0)
  | None => false
  end.

(** ** JavaScript objects used as maps, and string helpers

    Strings are sequences of bytes holding the UTF-8 form of the
    JavaScript string; [toLowerCase] acts on the ASCII letters. *)

Module JsObject.

Definition t (V : Type) : Type := list (string * V).

Definition is_digit (c : ascii) : bool :=
  (48 <=? nat_of_ascii c)%nat && (nat_of_ascii c <=? 57)%nat.

Fixpoint digits_value (s : string) (acc : N) : option N :=
  match s with
  | EmptyString => Some acc
  | String c tl =>
      if is_digit c
      then digits_value tl (acc * 10 + N.of_nat (nat_of_ascii c - 48))%N
      else None
  end.

(** The keys that are canonical numbers below 2^32 - 1 ("array indices"):
    [for ... in] lists them first, in ascending order, and the other keys
    after them in the order of their creation. *)
Definition array_index (k : string) : option N :=
  match k with
  | EmptyString => None
  | String c tl =>
      if Ascii.eqb c "0"
      then match tl with EmptyString => Some 0%N | _ => None end
      else match digits_value k 0%N with
           | Some n => if (n <? 4294967295)%N then Some n else None
           | None => None
           end
  end.

(** The list holds the own properties of the object: [has] is
    [hasOwnProperty] and [get] the own property of that name. *)
Fixpoint has {V : Type} (k : string) (o : t V) : bool :=
  match o with
  | [] => false
  | (k', _) :: tl => String.eqb k' k || has k tl
  end.

Fixpoint get {V : Type} (k : string) (o : t V) : option V :=
  match o with
  | [] => None
  | (k', v) :: tl => if String.eqb k' k then Some v else get k tl
  end.

Fixpoint replace {V : Type} (k : string) (v : V) (o : t V) : t V :=
  match o with
  | [] => []
  | (k', v') :: tl =>
      if String.eqb k' k then (k, v) :: tl else (k', v') :: replace k v tl
  end.

Fixpoint insert_index {V : Type} (n : N) (k : string) (v : V) (o : t V)
  : t V :=
  match o with
  | [] => [(k, v)]
  | (k', v') :: tl =>
      match array_index k' with
      | Some m => if (m <? n)%N then (k', v') :: insert_index n k v tl
                  else (k, v) :: o
      | None => (k, v) :: o
      end
  end.

(** [o[k] = v]: the listing order is the order of [for ... in].  The key
    [__proto__], whose assignment sets the prototype of the object and
    creates no property, is not a key of the model. *)
Definition set {V : Type} (k : string) (v : V) (o : t V) : t V :=
  if has k o then replace k v o
  else match array_index k with
       | Some n => insert_index n k v o
       | None => o ++ [(k, v)]
       end.

Fixpoint delete {V : Type} (k : string) (o : t V) : t V :=
  match o with
  | [] => []
  | (k', v) :: tl =>
      if String.eqb k' k then tl else (k', v) :: delete k tl
  end.

(** No key is listed twice. *)
Fixpoint unique {V : Type} (o : t V) : bool :=
  match o with
  | [] => true
  | (k, _) :: tl => negb (has k tl) && unique tl
  end.

(** No key is an array index. *)
Definition plain_keys {V : Type} (o : t V) : bool :=
  forallb (fun kv => match array_index (fst kv) with
                     | Some _ => false
                     | None => true
                     end) o.

(** The listing order of an object: the array indices first, each above
    [prev] and above the one before it, then the other keys. *)
Fixpoint ordered {V : Type} (prev : option N) (o : t V) : bool :=
  match o with
  | [] => true
  | (k, _) :: tl =>
      match array_index k with
      | Some n =>
          match prev with
          | Some p => (p <? n)%N
          | None => true
          end && ordered (Some n) tl
      | None => plain_keys tl
      end
  end.

(** The lists that stand for an object. *)
Definition canonical {V : Type} (o : t V) : bool :=
  unique o && ordered None o.

(** The members that an object literal inherits from [Object.prototype]:
    [has] and [get] above read the own properties, as [hasOwnProperty]
    does, while [o[k]] falls back on these names. *)
Definition prototype_names : list string :=
  ["constructor"; "hasOwnProperty"; "isPrototypeOf"; "propertyIsEnumerable";
   "toLocaleString"; "toString"; "valueOf"; "__defineGetter__";
   "__defineSetter__"; "__lookupGetter__"; "__lookupSetter__"; "__proto__"].

Definition inherited (k : string) : bool :=
  existsb (String.eqb k) prototype_names.

(** The value of [o[k]]: the own property, else the member of that name
    inherited from [Object.prototype], else [undefined]. *)
Inductive Member (V : Type) : Type :=
| Own (v : V)
| Inherited (name : string)
| Undefined.
Arguments Own {V} _.
Arguments Inherited {V} _.
Arguments Undefined {V}.

Definition read {V : Type} (k : string) (o : t V) : Member V :=
  match get k o with
  | Some v => Own v
  | None => if inherited k then Inherited k else Undefined
  end.

End JsObject.

Definition lower_char (c : ascii) : ascii :=
  let n := nat_of_ascii c in
  if (65 <=? n)%nat && (n <=? 90)%nat then ascii_of_nat (n + 32) else c.

Fixpoint toLowerCase (s : string) : string :=
  match s with
  | EmptyString => EmptyString
  | String c tl => String (lower_char c) (toLowerCase tl)
  end.

(** The strings of ASCII characters: on these [toLowerCase] above is the
    JavaScript method, which also maps letters outside ASCII. *)
Definition ascii_only (s : string) : bool :=
  forallb (fun c => (nat_of_ascii c <? 128)%nat) (list_ascii_of_string s).

Definition hex_digit (n : nat) : ascii :=
  if (n <? 10)%nat then ascii_of_nat (48 + n) else ascii_of_nat (55 + n).

Definition uri_unreserved (c : ascii) : bool :=
  let n := nat_of_ascii c in
  ((65 <=? n)%nat && (n <=? 90)%nat)
  || ((97 <=? n)%nat && (n <=? 122)%nat)
  || ((48 <=? n)%nat && (n <=? 57)%nat)
  || existsb (Ascii.eqb c) ["-"; "_"; "."; "!"; "~"; "*"; "'"; "("; ")"]%char.

(** [window.encodeURIComponent] *)
Fixpoint encodeURIComponent (s : string) : string :=
  match s with
  | EmptyString => EmptyString
  | String c tl =>
      if uri_unreserved c then String c (encodeURIComponent tl)
      else String "%"
             (String (hex_digit (nat_of_ascii c / 16))
                (String (hex_digit (nat_of_ascii c mod 16))
                   (encodeURIComponent tl)))
  end.

(** Decimal form of a whole number, as [toString] and string
    concatenation give it. *)
Definition Z_toString (n : Z) : string := NilZero.string_of_int (Z.to_int n).

(* ================================================================== *)
(** * The signalling stack *)
(* ================================================================== *)

(** ** Constants (method names of [JsSIP_C], UA states of [UA_C]) *)

Module JsSIP_C.
Definition ACK      : string := "ACK".
Definition BYE      : string := "BYE".
Definition INVITE   : string := "INVITE".
Definition REGISTER : string := "REGISTER".
Definition MESSAGE  : string := "MESSAGE".
Definition OPTIONS  : string := "OPTIONS".
Definition CANCEL   : string := "CANCEL".
Definition NOTIFY   : string := "NOTIFY".
End JsSIP_C.

Module UA_C.
Inductive status : Type :=
| STATUS_INIT
| STATUS_READY
| STATUS_USER_CLOSED
| STATUS_NOT_READY.

Definition status_eqb (a b : status) : bool :=
  match a, b with
  | STATUS_INIT, STATUS_INIT
  | STATUS_READY, STATUS_READY
  | STATUS_USER_CLOSED, STATUS_USER_CLOSED
  | STATUS_NOT_READY, STATUS_NOT_READY => true
  | _, _ => false
  end.
End UA_C.

(** ** URI (src/URI.js) *)

Module URI.

Record t : Type := {
  scheme     : option string;
  user       : option string;
  host       : string;
  port       : option Z;
  parameters : JsObject.t (option string);   (* null is [None] *)
  headers    : JsObject.t (list string)
}.

Definition set_parameters (u : t) (p : JsObject.t (option string)) : t :=
  {| scheme := scheme u; user := user u; host := host u; port := port u;
     parameters := p; headers := headers u |}.

(** [setParam(key, value)] *)
Definition setParam (key : string) (value : option string) (u : t) : t :=
  if String.eqb key "" then u
  else set_parameters u (JsObject.set (toLowerCase key) value (parameters u)).

Definition getParam (key : string) (u : t)
  : JsObject.Member (option string) :=
  if String.eqb key "" then JsObject.Undefined
  else JsObject.read (toLowerCase key) (parameters u).

Definition hasParam (key : string) (u : t) : bool :=
  if String.eqb key "" then false
  else JsObject.has (toLowerCase key) (parameters u).

(** The constructor: [host] is mandatory, the parameters go through
    [setParam]; [headers] holds the header map already keyed by
    [Utils.headerize]. *)
Definition new (scheme user : option string) (host : string)
    (port : option Z) (params : list (string * option string))
    (hdrs : JsObject.t (list string)) : option t :=
  if String.eqb host "" then None
  else Some (fold_left (fun u kv => setParam (fst kv) (snd kv) u) params
               {| scheme := scheme; user := user; host := host;
                  port := port; parameters := []; headers := hdrs |}).

Definition nonempty (o : option string) : option string :=
  match o with
  | Some s => if String.eqb s "" then None else Some s
  | None => None
  end.

Definition print_parameters (ps : JsObject.t (option string)) : string :=
  fold_left
    (fun acc kv =>
       (acc ++ ";" ++ toLowerCase (fst kv)
            ++ match snd kv with
               | None => ""
               | Some v => "=" ++ v
               end)%string)
    ps "".

Definition header_pairs (hs : JsObject.t (list string)) : list string :=
  flat_map (fun hv => map (fun v => (fst hv ++ "=" ++ v)%string) (snd hv)) hs.

Fixpoint join (sep : string) (l : list string) : string :=
  match l with
  | [] => ""
  | [x] => x
  | x :: tl => (x ++ sep ++ join sep tl)%string
  end.

(** [toString()]; the result is [undefined] when the host is empty. *)
Definition toString (u : t) : option string :=
  if String.eqb (host u) "" then None
  else Some
    ((match nonempty (scheme u) with Some s => s | None => "sip" end)
       ++ ":"
       ++ (match nonempty (user u) with
           | Some usr => encodeURIComponent usr ++ "@"
           | None => ""
           end)
       ++ host u
       ++ (match port u with
           | Some p => if (p =? 0)%Z then "" else ":" ++ Z_toString p
           | None => ""
           end)
       ++ print_parameters (parameters u)
       ++ (match header_pairs (headers u) with
           | [] => ""
           | hs => "?" ++ join "&" hs
           end))%string.

(** [deleteParam(parameter)] *)
Definition deleteParam (parameter : string) (u : t) : t :=
  let parameter := toLowerCase parameter in
  if JsObject.has parameter (parameters u)
  then set_parameters u (JsObject.delete parameter (parameters u))
  else u.

(** [clearParams()] *)
Definition clearParams (u : t) : t := set_parameters u [].

(** [setHeader(name, value)], [value] already an array; [headerize] is
    [JsSIP.Utils.headerize]. *)
Definition setHeader (headerize : string -> string) (name : string)
    (value : list string) (u : t) : t :=
  {| scheme := scheme u; user := user u; host := host u; port := port u;
     parameters := parameters u;
     headers := JsObject.set (headerize name) value (headers u) |}.

(** [clone()]: the constructor run on the fields, the parameters and the
    headers being replayed in the order of their listing.  [None] is the
    exception of the constructor on a missing host. *)
Definition clone (headerize : string -> string) (u : t) : option t :=
  if String.eqb (host u) "" then None
  else
    let u1 :=
      fold_left (fun acc kv => setParam (fst kv) (snd kv) acc) (parameters u)
        {| scheme := scheme u; user := user u; host := host u;
           port := port u; parameters := []; headers := [] |} in
    Some (fold_left (fun acc hv => setHeader headerize (fst hv) (snd hv) acc)
            (headers u) u1).


Definition hasHeader (name : string) (u : t) : bool :=
  if String.eqb name "" then false
  else JsObject.has (toLowerCase name) (headers u).




End URI.

(** ** NameAddrHeader (src/NameAddrHeader.js) *)

Module NameAddrHeader.

Record t : Type := {
  uri          : URI.t;
  display_name : option string;
  parameters   : JsObject.t (option string)
}.

(** [setParam(key, value)] *)
Definition setParam (key : string) (value : option string) (h : t) : t :=
  if String.eqb key "" then h
  else {| uri := uri h; display_name := display_name h;
          parameters :=
            JsObject.set (toLowerCase key) value (parameters h) |}.

Definition getParam (key : string) (h : t)
  : JsObject.Member (option string) :=
  if String.eqb key "" then JsObject.Undefined
  else JsObject.read (toLowerCase key) (parameters h).

Definition hasParam (key : string) (h : t) : bool :=
  if String.eqb key "" then false
  else JsObject.has (toLowerCase key) (parameters h).

(** [new JsSIP.NameAddrHeader(uri, display_name, parameters)]; the
    missing-uri check is the [option] of the first argument. *)
Definition new (u : option URI.t) (display_name : option string)
    (params : list (string * option string)) : option t :=
  match u with
  | None => None
  | Some u =>
      Some (fold_left (fun h kv => setParam (fst kv) (snd kv) h) params
              {| uri := u; display_name := display_name;
                 parameters := [] |})
  end.

Definition print_parameters (ps : JsObject.t (option string)) : string :=
  fold_left
    (fun acc kv =>
       (acc ++ ";" ++ fst kv
            ++ match snd kv with
               | None => ""
               | Some v => "=" ++ v
               end)%string)
    ps "".

(** A value joined to a string: [undefined] reads "undefined". *)
Definition concat_value (o : option string) : string :=
  match o with
  | Some s => s
  | None => "undefined"
  end.

(** [toString()]: the display name, when set, goes between double
    quotes (code 34) and the URI then between angle brackets. *)
Definition toString (h : t) : string :=
  let quote := String "034"%char EmptyString in
  ((match URI.nonempty (display_name h) with
    | Some d =>
        quote ++ d ++ quote ++ " "
          ++ "<" ++ concat_value (URI.toString (uri h)) ++ ">"
    | None => concat_value (URI.toString (uri h))
    end)
     ++ print_parameters (parameters h))%string.

(** [deleteParam(parameter)] *)
Definition deleteParam (parameter : string) (h : t) : t :=
  let parameter := toLowerCase parameter in
  if JsObject.has parameter (parameters h)
  then {| uri := uri h; display_name := display_name h;
          parameters := JsObject.delete parameter (parameters h) |}
  else h.

(** [clearParams()] *)
Definition clearParams (h : t) : t :=
  {| uri := uri h; display_name := display_name h; parameters := [] |}.

(** [clone()]; [None] when the clone of the URI throws. *)
Definition clone (headerize : string -> string) (h : t) : option t :=
  new (URI.clone headerize (uri h)) (display_name h) (parameters h).

End NameAddrHeader.

(** ** UA transport handling (src/UA.js, lines 254-596) *)

Module UA.

(** Server states.  The code writes [JsSIP.C.WS_SERVER_*] in some places
    and the literals [0] and [2] in others; the numbering below is the one
    under which the two agree. *)
Definition WS_SERVER_READY        : Z := 0.
Definition WS_SERVER_DISCONNECTED : Z := 1.
Definition WS_SERVER_ERROR        : Z := 2.

Record ws_server : Type := {
  ws_uri    : string;
  weight    : Z;
  ws_status : Z
}.

Record Configuration : Type := {
  ws_servers                       : list ws_server;
  connection_recovery_min_interval : Z;   (* seconds *)
  connection_recovery_max_interval : Z;   (* seconds *)
  register                         : bool
}.

Inductive ua_error : Type := UA_CONFIGURATION_ERROR | UA_NETWORK_ERROR.

Record t : Type := {
  status                   : UA_C.status;
  error                    : option ua_error;
  transportRecoverAttempts : Z;
  configuration            : Configuration;
  transport                : option nat;   (* index of the server in use *)
  registrator              : bool          (* this.registrator is set *)
}.

(** The callback recoverTransport hands to [setTimeout]: after
    [delay_ms] it stores [count + 1] and opens a transport to [server]. *)
Record Timer : Type := {
  delay_ms : Z;
  count    : Z;
  server   : option nat
}.

Inductive Effect : Type :=
| NewTransport (server : option nat)
| EmitConnected
| EmitDisconnected
| CloseSessionsOnTransportError
| RegistratorOnTransportConnected
| NewRegistrator
| Register
| SetTimeout (timer : Timer)
| Log (msg : string).

Definition set_servers (ua : t) (l : list ws_server) : t :=
  {| status := status ua; error := error ua;
     transportRecoverAttempts := transportRecoverAttempts ua;
     configuration :=
       {| ws_servers := l;
          connection_recovery_min_interval :=
            connection_recovery_min_interval (configuration ua);
          connection_recovery_max_interval :=
            connection_recovery_max_interval (configuration ua);
          register := register (configuration ua) |};
     transport := transport ua; registrator := registrator ua |}.

Definition set_attempts (ua : t) (n : Z) : t :=
  {| status := status ua; error := error ua;
     transportRecoverAttempts := n;
     configuration := configuration ua;
     transport := transport ua; registrator := registrator ua |}.

Definition set_status_error (ua : t) (s : UA_C.status)
    (e : option ua_error) : t :=
  {| status := s; error := e;
     transportRecoverAttempts := transportRecoverAttempts ua;
     configuration := configuration ua;
     transport := transport ua; registrator := registrator ua |}.

Definition set_transport (ua : t) (i : nat) : t :=
  {| status := status ua; error := error ua;
     transportRecoverAttempts := transportRecoverAttempts ua;
     configuration := configuration ua;
     transport := Some i; registrator := registrator ua |}.

Definition set_registrator (ua : t) : t :=
  {| status := status ua; error := error ua;
     transportRecoverAttempts := transportRecoverAttempts ua;
     configuration := configuration ua;
     transport := transport ua; registrator := true |}.

Definition with_status (s : ws_server) (v : Z) : ws_server :=
  {| ws_uri := ws_uri s; weight := weight s; ws_status := v |}.

(** [server.status = v] for the server of index [i]. *)
Fixpoint mark_server (l : list ws_server) (i : nat) (v : Z)
  : list ws_server :=
  match l, i with
  | [], _ => []
  | s :: tl, O => with_status s v :: tl
  | s :: tl, S j => s :: mark_server tl j v
  end.

(** The loop of [getNextWsServer]: [candidates] holds the indices of the
    servers of highest weight met so far, Error ones left out. *)
Fixpoint candidates_loop (l : list ws_server) (idx : nat)
    (candidates : list (nat * ws_server)) : list (nat * ws_server) :=
  match l with
  | [] => candidates
  | ws :: tl =>
      let next :=
        if ws_status ws =? 2 then candidates
        else match candidates with
             | [] => [(idx, ws)]
             | (_, c0) :: _ =>
                 if weight c0 <? weight ws then [(idx, ws)]
                 else if weight ws =? weight c0
                      then candidates ++ [(idx, ws)]
                      else candidates
             end in
      candidates_loop tl (S idx) next
  end.

(** [getNextWsServer()]; [random] is the value of [Math.random()].  The
    result is [undefined] when there is no candidate. *)
Definition getNextWsServer (random : Q) (ua : t) : option nat :=
  let candidates := candidates_loop (ws_servers (configuration ua)) 0 [] in
  let idx := Qfloor (random * inject_Z (Z.of_nat (List.length candidates))) in
  match nth_error candidates (Z.to_nat idx) with
  | Some (i, _) => if idx <? 0 then None else Some i
  | None => None
  end.

(** [k = Math.floor((Math.random() * Math.pow(2, count)) + 1)] *)
Definition recovery_k (random : Q) (count : Z) : Z :=
  Qfloor (random * inject_Z (2 ^ count) + 1).

(** [recoverTransport(ua)] *)
Definition recoverTransport (random_server random_k : Q) (ua : t)
  : t * list Effect :=
  let count0 := transportRecoverAttempts ua in
  let ua1 := set_servers ua
               (map (fun s => with_status s 0)
                    (ws_servers (configuration ua))) in
  let server := getNextWsServer random_server ua1 in
  let k := recovery_k random_k count0 in
  let nextRetry0 :=
    k * connection_recovery_min_interval (configuration ua1) in
  let exceeds :=
    connection_recovery_max_interval (configuration ua1) <? nextRetry0 in
  let nextRetry :=
    if exceeds then connection_recovery_min_interval (configuration ua1)
    else nextRetry0 in
  let count1 := if exceeds then 0 else count0 in
  let timer := {| delay_ms := nextRetry * 1000;
                  count := count1;
                  server := server |} in
  (ua1,
   (if exceeds
    then [Log "Time for next connection attempt exceeds connection_recovery_max_interval. Resetting counter"]
    else [])
     ++ [SetTimeout timer]).

(** The recovery timer fires. *)
Definition onRecoveryTimer (ua : t) (timer : Timer) : t * list Effect :=
  (set_attempts ua (count timer + 1), [NewTransport (server timer)]).

(** [onTransportConnected(transport)], the transport being the one to the
    server of index [i]. *)
Definition onTransportConnected (ua : t) (i : nat) : t * list Effect :=
  let ua1 := set_attempts (set_transport ua i) 0 in
  let ua2 := set_servers ua1
               (mark_server (ws_servers (configuration ua1)) i
                            WS_SERVER_READY) in
  if UA_C.status_eqb (status ua2) UA_C.STATUS_USER_CLOSED
  then (ua2, [])
  else
    let ua3 := set_status_error ua2 UA_C.STATUS_READY None in
    if register (configuration ua3)
    then if registrator ua3
         then (ua3, [EmitConnected; RegistratorOnTransportConnected])
         else (set_registrator ua3, [EmitConnected; NewRegistrator; Register])
    else (set_registrator ua3, [EmitConnected; NewRegistrator]).

(** [onTransportError(transport)] *)
Definition onTransportError (random_next random_server random_k : Q)
    (ua : t) (i : nat) : t * list Effect :=
  let ua1 := set_servers ua
               (mark_server (ws_servers (configuration ua)) i
                            WS_SERVER_ERROR) in
  match getNextWsServer random_next ua1 with
  | Some s => (ua1, [EmitDisconnected; NewTransport (Some s)])
  | None =>
      let ua2 :=
        match error ua1 with
        | Some UA_NETWORK_ERROR => ua1
        | _ => set_status_error ua1 UA_C.STATUS_NOT_READY
                                (Some UA_NETWORK_ERROR)
        end in
      let '(ua3, es) := recoverTransport random_server random_k ua2 in
      (ua3, [EmitDisconnected; CloseSessionsOnTransportError] ++ es)
  end.

(** *** Loading the configuration *)

(** A numeric parameter of the configuration object given to the UA:
    [NotGiven] when the property is absent, [null], the empty string,
    [undefined] or [NaN], so that the default applies; [Given n] when it is
    the number [n].  Numeric parameters are modelled for whole numbers. *)
Inductive Setting : Type := NotGiven | Given (n : Z).

(** The configuration object: the numeric parameters, and for the others
    the verdict of the checks, whose grammar lives outside these files. *)
Record RawConfiguration : Type := {
  mandatory_valid  : bool;   (* ws_servers and uri are there and accepted *)
  others_valid     : bool;   (* the other optional parameters given are
                                accepted *)
  raw_register_expires                 : Setting;
  raw_no_answer_timeout                : Setting;
  raw_connection_recovery_min_interval : Setting;
  raw_connection_recovery_max_interval : Setting
}.

Record Settings : Type := {
  s_register_expires                 : Z;
  s_register_min_expires             : Z;
  s_no_answer_timeout                : Z;   (* milliseconds once loaded *)
  s_connection_recovery_min_interval : Z;
  s_connection_recovery_max_interval : Z
}.

(** [configuration_check.optional]; [!Number(n)] holds of 0 only. *)
Definition check_register_expires (n : Z) : bool :=
  if n =? 0 then false else true.

Definition check_no_answer_timeout (n : Z) : bool :=
  if n =? 0 then false
  else if (n <? 0) || (600 <? n) then false
  else true.

Definition check_connection_recovery_min_interval (n : Z) : bool :=
  if n =? 0 then false
  else if n <? 0 then false
  else true.

Definition check_connection_recovery_max_interval (n : Z) : bool :=
  if n =? 0 then false
  else if n <? 0 then false
  else true.

(** One round of the loop over the optional parameters: the default is
    kept, the value is taken, or the load fails. *)
Definition optional (check : Z -> bool) (default : Z) (v : Setting)
  : option Z :=
  match v with
  | NotGiven => Some default
  | Given n => if check n then Some n else None
  end.

(** [loadConfig(configuration)]: the settings when it returns true. *)
Definition loadConfig (c : RawConfiguration) : option Settings :=
  if negb (mandatory_valid c) then None
  else if negb (others_valid c) then None
  else
    match optional check_register_expires 600 (raw_register_expires c),
          optional check_no_answer_timeout 60 (raw_no_answer_timeout c),
          optional check_connection_recovery_min_interval 2
                   (raw_connection_recovery_min_interval c),
          optional check_connection_recovery_max_interval 30
                   (raw_connection_recovery_max_interval c) with
    | Some register_expires, Some no_answer_timeout,
      Some min_interval, Some max_interval =>
        if max_interval <? min_interval then None
        else Some {| s_register_expires := register_expires;
                     s_register_min_expires := 120;
                     s_no_answer_timeout := no_answer_timeout * 1000;
                     s_connection_recovery_min_interval := min_interval;
                     s_connection_recovery_max_interval := max_interval |}
    | _, _, _, _ => None
    end.

(** The settings as the transport recovery reads them. *)
Definition configure (s : Settings) (servers : list ws_server)
    (reg : bool) : Configuration :=
  {| ws_servers := servers;
     connection_recovery_min_interval :=
       s_connection_recovery_min_interval s;
     connection_recovery_max_interval :=
       s_connection_recovery_max_interval s;
     register := reg |}.

(** *** Reception of requests *)

(** An incoming request, as far as [receiveRequest] reads it. *)
Record IncomingRequest : Type := {
  ruri_user : option string;
  method    : string;
  call_id   : string;
  from_tag  : string;
  to_tag    : option string
}.

(** What [receiveRequest] reads of the UA and of its surroundings:
    [retransmission] is the answer of [Transactions.checkTransaction],
    [newMessage_listeners] that of
    [checkEvent('newMessage') && listeners('newMessage').length > 0]. *)
Record Tables : Type := {
  user                 : option string;    (* configuration.user *)
  is_registered        : bool;             (* isRegistered() *)
  newMessage_listeners : bool;
  webrtc_supported     : bool;             (* Utils.isWebRtcSupported() *)
  retransmission       : bool;
  sessions             : JsObject.t nat;   (* this.sessions *)
  dialogs              : JsObject.t nat    (* this.dialogs *)
}.

Inductive ReplyHeader : Type := Allow | Accept.

Inductive RequestEffect : Type :=
| ReplyStateless (code : Z)                       (* request.reply_sl *)
| NewInviteServerTransaction
| NewNonInviteServerTransaction
| Reply (code : Z) (reason : option string) (headers : list ReplyHeader)
| MessageInitIncoming                  (* new Message; init_incoming *)
| SessionInitIncoming                  (* new Session; init_incoming *)
| SessionReceiveRequest (session : nat)
| DialogReceiveRequest (dialog : nat)
| Warn (msg : string).

(** A tag inside a string concatenation: [undefined] prints as such. *)
Definition tag_string (tag : option string) : string :=
  match tag with Some s => s | None => "undefined" end.

(** [!request.to_tag] is false. *)
Definition has_to_tag (request : IncomingRequest) : bool :=
  match to_tag request with
  | Some s => negb (String.eqb s "")
  | None => false
  end.

Definition option_string_eqb (a b : option string) : bool :=
  match a, b with
  | Some x, Some y => String.eqb x y
  | None, None => true
  | _, _ => false
  end.

(** [findSession(request)] *)
Definition findSession (ua : Tables) (request : IncomingRequest)
  : option nat :=
  let sessionIDa := (call_id request ++ from_tag request)%string in
  let sessionIDb :=
    (call_id request ++ tag_string (to_tag request))%string in
  match JsObject.get sessionIDa (sessions ua) with
  | Some sessionA => Some sessionA
  | None => JsObject.get sessionIDb (sessions ua)
  end.

(** [findDialog(request)] *)
Definition findDialog (ua : Tables) (request : IncomingRequest)
  : option nat :=
  let id := (call_id request ++ from_tag request
               ++ tag_string (to_tag request))%string in
  match JsObject.get id (dialogs ua) with
  | Some dialog => Some dialog
  | None =>
      let id := (call_id request ++ tag_string (to_tag request)
                   ++ from_tag request)%string in
      JsObject.get id (dialogs ua)
  end.

(** [receiveRequest(request)] *)
Definition receiveRequest (ua : Tables) (request : IncomingRequest)
  : list RequestEffect :=
  let method := method request in
  if negb (option_string_eqb (ruri_user request) (user ua))
  then [ReplyStateless 404]
  else if retransmission ua then []
  else
    let transaction :=
      if String.eqb method JsSIP_C.INVITE then [NewInviteServerTransaction]
      else if strict_neq method JsSIP_C.ACK
           then [NewNonInviteServerTransaction]
           else [] in
    let rest :=
      if negb (has_to_tag request) then
        if negb (is_registered ua) then [Reply 410 None []]
        else if String.eqb method JsSIP_C.INVITE then
          if negb (webrtc_supported ua)
          then [Warn "Call invitation received but rtcweb is not supported"]
          else [SessionInitIncoming]
        else if String.eqb method JsSIP_C.BYE then [Reply 481 None []]
        else if String.eqb method JsSIP_C.CANCEL then
          match findSession ua request with
          | Some session => [SessionReceiveRequest session]
          | None =>
              [Warn "Received CANCEL request for a non existent session"]
          end
        else if String.eqb method JsSIP_C.ACK then []
        else [Reply 405 None []]
      else
        match findDialog ua request with
        | Some dialog => [DialogReceiveRequest dialog]
        | None =>
            if String.eqb method JsSIP_C.NOTIFY then
              match findSession ua request with
              | Some session => [SessionReceiveRequest session]
              | None =>
                  [Warn "Received a NOTIFY request for a non existent session";
                   Reply 481 (Some "Subscription does not exist") []]
              end
            else if strict_neq method JsSIP_C.ACK
                 then [Reply 481 None []]
                 else []
        end in
    if String.eqb method JsSIP_C.OPTIONS
    then transaction ++ [Reply 200 None [Allow; Accept]] ++ rest
    else if String.eqb method JsSIP_C.MESSAGE then
      if negb (newMessage_listeners ua)
      then transaction ++ [Reply 405 None [Allow]]
      else transaction ++ [MessageInitIncoming] ++ rest
    else transaction ++ rest.

(** The final responses sent through the server transaction. *)
Fixpoint replies (es : list RequestEffect) : list Z :=
  match es with
  | [] => []
  | Reply code _ _ :: tl => code :: replies tl
  | _ :: tl => replies tl
  end.

Definition is_handler (e : RequestEffect) : bool :=
  match e with
  | MessageInitIncoming | SessionInitIncoming
  | SessionReceiveRequest _ | DialogReceiveRequest _ => true
  | _ => false
  end.

Definition is_transaction (e : RequestEffect) : bool :=
  match e with
  | NewInviteServerTransaction | NewNonInviteServerTransaction => true
  | _ => false
  end.

(** The two identifiers under which [findDialog] reads [this.dialogs]. *)
Definition dialog_ids (request : IncomingRequest) : list string :=
  [(call_id request ++ from_tag request
      ++ tag_string (to_tag request))%string;
   (call_id request ++ tag_string (to_tag request)
      ++ from_tag request)%string].

(** Neither identifier names a member of [Object.prototype]: on such
    requests [this.dialogs[id]] reads the dialogs of the table and nothing
    else, as [findDialog] above does. *)
Definition plain_dialog_ids (request : IncomingRequest) : bool :=
  forallb (fun id => negb (JsObject.inherited id)) (dialog_ids request).

End UA.

(** ** RequestSender (unnamed/part_001) *)

Module RequestSender.

(** A digest challenge as returned by [response.parseHeader]; only the
    [stale] attribute is read by the sender itself. *)
Record Challenge : Type := {
  realm : string;
  nonce : string;
  stale : bool
}.

Record Response : Type := {
  status_code        : Z;
  resp_method        : string;
  www_authenticate   : option Challenge;  (* parseHeader('www-authenticate') *)
  proxy_authenticate : option Challenge   (* parseHeader('proxy-authenticate') *)
}.

(** Outgoing request: [dialog] is a reference into the dialog store. *)
Record Request : Type := {
  method  : string;
  cseq    : Z;
  headers : list (string * string);
  dialog  : option nat
}.

Record Configuration : Type := {
  password           : option string;   (* null when absent *)
  ha1                : option string;
  cfg_realm          : option string;
  authorization_user : string
}.

(** [request.setHeader (name, value)]: replaces the values of [name]. *)
Fixpoint setHeader (name value : string) (hs : list (string * string))
  : list (string * string) :=
  match hs with
  | [] => [(name, value)]
  | (n, v) :: tl =>
      if String.eqb n name then (name, value) :: tl
      else (n, v) :: setHeader name value tl
  end.

Definition hasHeader (name : string) (hs : list (string * string)) : bool :=
  existsb (fun nv => String.eqb (fst nv) name) hs.

(** Collaborators defined in other files: the DigestAuthentication object
    ([authenticate] returns its verdict and the object as it left it),
    the printing of a number and [OutgoingRequest.clone]. *)
Record Collaborators (A : Type) : Type := {
  auth_new      : Configuration -> A;
  authenticate  : A -> Request -> Challenge -> bool * A;
  auth_realm    : A -> option string;
  auth_ha1      : A -> option string;
  auth_toString : A -> string;
  cseq_toString : Z -> string;
  clone         : Request -> Request
}.
Arguments auth_new {A} _ _.
Arguments authenticate {A} _ _ _ _.
Arguments auth_realm {A} _ _.
Arguments auth_ha1 {A} _ _.
Arguments auth_toString {A} _ _.
Arguments cseq_toString {A} _ _.
Arguments clone {A} _ _.

(** What the sender does to the outside world. *)
Inductive Effect : Type :=
| ApplicantOnTransportError
| ApplicantOnRequestTimeout
| ApplicantReceiveResponse (r : Response)
| InviteClientTransactionSend (r : Request)
| AckClientTransactionSend (r : Request)
| NonInviteClientTransactionSend (r : Request).

(** The sender together with the objects it shares with its applicant
    and its UA. *)
Record t (A : Type) : Type := {
  ua_status       : UA_C.status;
  configuration   : Configuration;
  applicant_cseq  : Z;              (* this.applicant.cseq *)
  local_seqnum    : nat -> Z;       (* dialog store: dialog.local_seqnum *)
  rs_method       : string;
  request         : Request;        (* this.request, also applicant.request *)
  auth            : option A;
  challenged      : bool;
  staled          : bool
}.
Arguments ua_status {A} _.
Arguments configuration {A} _.
Arguments applicant_cseq {A} _.
Arguments local_seqnum {A} _.
Arguments rs_method {A} _.
Arguments request {A} _.
Arguments auth {A} _.
Arguments challenged {A} _.
Arguments staled {A} _.

Section Sender.
Context {A : Type} (X : Collaborators A).

(** [constructor(applicant, ua)] *)
Definition constructor (status : UA_C.status) (cfg : Configuration)
    (applicant_cseq0 : Z) (store : nat -> Z) (applicant_request : Request)
  : t A * list Effect :=
  let this := {| ua_status := status;
                 configuration := cfg;
                 applicant_cseq := applicant_cseq0;
                 local_seqnum := store;
                 rs_method := method applicant_request;
                 request := applicant_request;
                 auth := None;
                 challenged := false;
                 staled := false |} in
  if UA_C.status_eqb status UA_C.STATUS_USER_CLOSED
     && (strict_neq (rs_method this) JsSIP_C.BYE
         || strict_neq (rs_method this) JsSIP_C.ACK)
  then (this, [ApplicantOnTransportError])
  else (this, []).

(** [send()] *)
Definition send (this : t A) : list Effect :=
  if String.eqb (rs_method this) "INVITE"
  then [InviteClientTransactionSend (request this)]
  else if String.eqb (rs_method this) "ACK"
  then [AckClientTransactionSend (request this)]
  else [NonInviteClientTransactionSend (request this)].

Definition onRequestTimeout (this : t A) : t A * list Effect :=
  (this, [ApplicantOnRequestTimeout]).

Definition onTransportError (this : t A) : t A * list Effect :=
  (this, [ApplicantOnTransportError]).

Definition is_some {B : Type} (o : option B) : bool :=
  match o with Some _ => true | None => false end.

Definition store_set (store : nat -> Z) (d : nat) (v : Z) : nat -> Z :=
  fun d' => if Nat.eqb d' d then v else store d'.

(** The CSeq of the retry: registrar-local for REGISTER, dialog-local
    inside a dialog, otherwise the request's own plus one.  Returns the
    new CSeq with the updated [applicant.cseq] and dialog store. *)
Definition bump_cseq (this : t A) (response : Response)
  : Z * Z * (nat -> Z) :=
  if String.eqb (resp_method response) JsSIP_C.REGISTER
  then (applicant_cseq this + 1, applicant_cseq this + 1,
        local_seqnum this)
  else match dialog (request this) with
       | Some d =>
           (local_seqnum this d + 1, applicant_cseq this,
            store_set (local_seqnum this) d (local_seqnum this d + 1))
       | None =>
           (cseq (request this) + 1, applicant_cseq this,
            local_seqnum this)
       end.

(** [receiveResponse(response)] *)
Definition receiveResponse (this : t A) (response : Response)
  : t A * list Effect :=
  let cfg := configuration this in
  if ((status_code response =? 401) || (status_code response =? 407))
     && (is_some (password cfg) || is_some (ha1 cfg))
  then
    let '(challenge, authorization_header_name) :=
      if status_code response =? 401
      then (www_authenticate response, "authorization")
      else (proxy_authenticate response, "proxy-authorization") in
    match challenge with
    | None => (this, [ApplicantReceiveResponse response])
    | Some challenge =>
        if negb (challenged this) || (negb (staled this) && stale challenge)
        then
          let a0 := match auth this with
                    | Some a => a
                    | None => auth_new X cfg
                    end in
          let '(ok, a1) := authenticate X a0 (request this) challenge in
          if negb ok
          then ({| ua_status := ua_status this;
                   configuration := cfg;
                   applicant_cseq := applicant_cseq this;
                   local_seqnum := local_seqnum this;
                   rs_method := rs_method this;
                   request := request this;
                   auth := Some a1;
                   challenged := challenged this;
                   staled := staled this |},
                [ApplicantReceiveResponse response])
          else
            let cfg' := {| password := password cfg;
                           ha1 := auth_ha1 X a1;
                           cfg_realm := auth_realm X a1;
                           authorization_user := authorization_user cfg |} in
            let staled' := if stale challenge then true else staled this in
            let '(cseq', applicant_cseq', store') :=
              bump_cseq this response in
            let cloned := clone X (request this) in
            let request' :=
              {| method := method cloned;
                 cseq := cseq';
                 headers :=
                   setHeader authorization_header_name (auth_toString X a1)
                     (setHeader "cseq"
                        (cseq_toString X cseq' ++ " " ++ rs_method this)%string
                        (headers cloned));
                 dialog := dialog cloned |} in
            let this' := {| ua_status := ua_status this;
                            configuration := cfg';
                            applicant_cseq := applicant_cseq';
                            local_seqnum := store';
                            rs_method := rs_method this;
                            request := request';
                            auth := Some a1;
                            challenged := true;
                            staled := staled' |} in
            (this', send this')
        else (this, [ApplicantReceiveResponse response])
    end
  else (this, [ApplicantReceiveResponse response]).

(** The responses of a transaction and of its retries, delivered in
    arrival order. *)
Fixpoint receiveResponses (this : t A) (rs : list Response)
  : t A * list Effect :=
  match rs with
  | [] => (this, [])
  | r :: tl =>
      let '(this1, e1) := receiveResponse this r in
      let '(this2, e2) := receiveResponses this1 tl in
      (this2, e1 ++ e2)
  end.

Definition is_send (e : Effect) : bool :=
  match e with
  | InviteClientTransactionSend _
  | AckClientTransactionSend _
  | NonInviteClientTransactionSend _ => true
  | _ => false
  end.

(** Number of automatic resends in an effect trace. *)
Definition retries (es : list Effect) : nat :=
  List.length (filter is_send es).

(** Number of authentication retries the two flags still allow. *)
Definition budget (this : t A) : nat :=
  ((if challenged this then 0 else 1) + (if staled this then 0 else 1))%nat.

(** The responses handed to the applicant in an effect trace, in order. *)
Fixpoint forwarded (es : list Effect) : list Response :=
  match es with
  | [] => []
  | ApplicantReceiveResponse r :: tl => r :: forwarded tl
  | _ :: tl => forwarded tl
  end.

End Sender.

End RequestSender.

(** ** Registrator (unnamed/part_000) *)

Module Registrator.

(** A parsed [Contact] header of a response. *)
Record Contact : Type := {
  uri            : string;
  expires_param  : option Z;        (* getParam('expires') *)
  temp_gruu      : option string;   (* getParam('temp-gruu') *)
  pub_gruu       : option string    (* getParam('pub-gruu') *)
}.

Record Response : Type := {
  status_code : Z;
  resp_cseq   : Z;
  expires_hdr : option Z;           (* Expires header, when present *)
  min_expires_hdr : option Z;       (* Min-Expires header, when present *)
  contacts    : list Contact        (* Contact headers, in order *)
}.

Inductive Cause : Type :=
| SIP_FAILURE_CODE
| REQUEST_TIMEOUT
| CONNECTION_ERROR
| sipErrorCause (status_code : Z).  (* JsSIP.Utils.sipErrorCause *)

(** Value of the Contact of an outgoing REGISTER. *)
Inductive ContactValue : Type :=
| ContactExpires (e : Z)            (* <contact>;expires=e *)
| ContactStar.                      (* Contact: * with Expires: 0 *)

Inductive Effect : Type :=
| SendRegister (cseq : Z) (c : ContactValue)
| SetTimeoutRegister (delay_ms : Z)   (* window.setTimeout(register, ms) *)
| ClearTimeout
| EmitRegistered
| EmitRegistrationFailed (response : option Response) (cause : Cause)
| EmitUnregistered (response : option Response) (cause : option Cause)
| Log (msg : string).

(** Which closures [register]/[unregister] installed last as
    [receiveResponse], [onRequestTimeout] and [onTransportError]. *)
Inductive Handlers : Type := ForRegister | ForUnregister.

Record t : Type := {
  expires           : Z;
  min_expires       : Z;
  cseq              : Z;
  registered        : bool;
  registered_before : bool;
  registrationTimer : option Z;     (* delay of the timer set last *)
  handlers          : Handlers;
  ua_contact_uri    : string;       (* this.ua.contact.uri *)
  ua_temp_gruu      : option string;
  ua_pub_gruu       : option string
}.

Definition set_cseq (this : t) (c : Z) : t :=
  {| expires := expires this; min_expires := min_expires this; cseq := c;
     registered := registered this;
     registered_before := registered_before this;
     registrationTimer := registrationTimer this;
     handlers := handlers this;
     ua_contact_uri := ua_contact_uri this;
     ua_temp_gruu := ua_temp_gruu this; ua_pub_gruu := ua_pub_gruu this |}.

Definition set_registered (this : t) (b : bool) : t :=
  {| expires := expires this; min_expires := min_expires this;
     cseq := cseq this; registered := b;
     registered_before := registered_before this;
     registrationTimer := registrationTimer this;
     handlers := handlers this;
     ua_contact_uri := ua_contact_uri this;
     ua_temp_gruu := ua_temp_gruu this; ua_pub_gruu := ua_pub_gruu this |}.

Definition set_registered_before (this : t) (b : bool) : t :=
  {| expires := expires this; min_expires := min_expires this;
     cseq := cseq this; registered := registered this;
     registered_before := b;
     registrationTimer := registrationTimer this;
     handlers := handlers this;
     ua_contact_uri := ua_contact_uri this;
     ua_temp_gruu := ua_temp_gruu this; ua_pub_gruu := ua_pub_gruu this |}.

Definition set_timer (this : t) (d : Z) : t :=
  {| expires := expires this; min_expires := min_expires this;
     cseq := cseq this; registered := registered this;
     registered_before := registered_before this;
     registrationTimer := Some d;
     handlers := handlers this;
     ua_contact_uri := ua_contact_uri this;
     ua_temp_gruu := ua_temp_gruu this; ua_pub_gruu := ua_pub_gruu this |}.

Definition set_handlers (this : t) (h : Handlers) : t :=
  {| expires := expires this; min_expires := min_expires this;
     cseq := cseq this; registered := registered this;
     registered_before := registered_before this;
     registrationTimer := registrationTimer this;
     handlers := h;
     ua_contact_uri := ua_contact_uri this;
     ua_temp_gruu := ua_temp_gruu this; ua_pub_gruu := ua_pub_gruu this |}.

Definition set_gruu (this : t) (tmp pub : option string) : t :=
  {| expires := expires this; min_expires := min_expires this;
     cseq := cseq this; registered := registered this;
     registered_before := registered_before this;
     registrationTimer := registrationTimer this;
     handlers := handlers this;
     ua_contact_uri := ua_contact_uri this;
     ua_temp_gruu := tmp; ua_pub_gruu := pub |}.

(** The [replace] call that deletes every double quote (code 34). *)
Fixpoint strip_quotes (s : string) : string :=
  match s with
  | EmptyString => EmptyString
  | String c tl =>
      if Ascii.eqb c "034"%char then strip_quotes tl
      else String c (strip_quotes tl)
  end.

(** [register(options)]: a new REGISTER carrying
    [Contact: ...;expires=<this.expires>] and the next CSeq. *)
Definition register (this : t) : t * list Effect :=
  let this1 := set_handlers (set_cseq this (cseq this + 1)) ForRegister in
  (this1, [SendRegister (cseq this1) (ContactExpires (expires this1))]).

(** [registrationFailure(response, cause)] *)
Definition registrationFailure (this : t) (response : option Response)
    (cause : Cause) : t * list Effect :=
  if registered this
  then (set_registered this false,
        [EmitRegistrationFailed response cause;
         EmitUnregistered response (Some cause)])
  else (this, [EmitRegistrationFailed response cause]).

(** [unregistered(response, cause)] *)
Definition unregistered (this : t) (response : option Response)
    (cause : option Cause) : t * list Effect :=
  (set_registered this false, [EmitUnregistered response cause]).

(** The [while (contacts--)] loop: scans the Contact headers from the
    last to the first and stops at the one pointing to us.  Returns the
    value of [contact] when the loop ends and whether it matched. *)
Fixpoint scan_contacts (our_uri : string) (rev_contacts : list Contact)
    (last : option Contact) : option Contact * bool :=
  match rev_contacts with
  | [] => (last, false)
  | c :: tl =>
      if String.eqb (uri c) our_uri then (Some c, true)
      else scan_contacts our_uri tl (Some c)
  end.

Definition is_1xx (sc : Z) : bool := (100 <=? sc) && (sc <=? 199).
Definition is_2xx (sc : Z) : bool := (200 <=? sc) && (sc <=? 299).

(** [receiveResponse] as installed by [register]. *)
Definition register_receiveResponse (this : t) (response : Response)
  : t * list Effect :=
  if negb (resp_cseq response =? cseq this) then (this, [])
  else if is_1xx (status_code response) then (this, [])
  else if is_2xx (status_code response) then
    let expires0 := expires_hdr response in
    match contacts response with
    | [] => (this, [Log "No Contact header positive response to Register. Ignore response"])
    | _ =>
        match scan_contacts (ua_contact_uri this)
                            (rev (contacts response)) None with
        | (None, _) =>
            (this, [Log "No Contact header pointing to us. Ignore response"])
        | (Some contact, matched) =>
            let expires1 :=
              if matched then expires_param contact else expires0 in
            let expires2 :=
              match expires1 with
              | Some e => e
              | None => expires this
              end in
            let delay := expires2 * 1000 - 3000 in
            let tmp := match temp_gruu contact with
                       | Some g => Some (strip_quotes g)
                       | None => ua_temp_gruu this
                       end in
            let pub := match pub_gruu contact with
                       | Some g => Some (strip_quotes g)
                       | None => ua_pub_gruu this
                       end in
            (set_registered (set_gruu (set_timer this delay) tmp pub) true,
             [SetTimeoutRegister delay; EmitRegistered])
        end
    end
  else if status_code response =? 423 then
    match min_expires_hdr response with
    | Some min_expires =>
        (* var expires = (min_expires - this.expires): a local never read *)
        let expires_local := min_expires - expires this in
        (set_timer this (expires this * 1000),
         [SetTimeoutRegister (expires this * 1000)])
    | None =>
        let '(this1, es) :=
          registrationFailure this (Some response) SIP_FAILURE_CODE in
        (this1,
         Log "423 response code received to a REGISTER without min-expires. Unregister"
           :: es)
    end
  else
    registrationFailure this (Some response)
      (sipErrorCause (status_code response)).

(** [receiveResponse] as installed by [unregister]. *)
Definition unregister_receiveResponse (this : t) (response : Response)
  : t * list Effect :=
  if is_1xx (status_code response) then (this, [])
  else if is_2xx (status_code response)
  then unregistered this (Some response) None
  else unregistered this (Some response)
         (Some (sipErrorCause (status_code response))).

Definition receiveResponse (this : t) (response : Response)
  : t * list Effect :=
  match handlers this with
  | ForRegister => register_receiveResponse this response
  | ForUnregister => unregister_receiveResponse this response
  end.

Definition onRequestTimeout (this : t) : t * list Effect :=
  match handlers this with
  | ForRegister => registrationFailure this None REQUEST_TIMEOUT
  | ForUnregister => unregistered this None (Some REQUEST_TIMEOUT)
  end.

Definition onTransportError (this : t) : t * list Effect :=
  match handlers this with
  | ForRegister => registrationFailure this None CONNECTION_ERROR
  | ForUnregister => unregistered this None (Some CONNECTION_ERROR)
  end.

(** [unregister(options)], [all] being [options.all]. *)
Definition unregister (this : t) (all : bool) : t * list Effect :=
  if negb (registered this) then (this, [Log "Already unregistered"])
  else
    let this1 := set_registered this false in
    let this2 := set_handlers (set_cseq this1 (cseq this1 + 1))
                              ForUnregister in
    (this2,
     [ClearTimeout;
      SendRegister (cseq this2)
        (if all then ContactStar else ContactExpires 0)]).

(** The registration timer fires: [self.register()]. *)
Definition onRegistrationTimer (this : t) : t * list Effect :=
  register this.

Definition onTransportClosed (this : t) : t * list Effect :=
  let this1 := set_registered_before this (registered this) in
  if registered this1
  then (set_registered this1 false,
        [ClearTimeout; EmitUnregistered None None])
  else (this1, [ClearTimeout]).

Definition onTransportConnected (this : t) : t * list Effect :=
  register this.

Definition close (this : t) : t * list Effect :=
  unregister (set_registered_before this (registered this)) false.

(** The entry points of a Registrator, as the UA, the transaction layer and
    the timer call them. *)
Inductive Call : Type :=
| CallRegister
| CallUnregister (all : bool)
| CallReceiveResponse (r : Response)
| CallOnRequestTimeout
| CallOnTransportError
| CallOnRegistrationTimer
| CallOnTransportClosed
| CallOnTransportConnected
| CallClose.

Definition call (this : t) (c : Call) : t * list Effect :=
  match c with
  | CallRegister => register this
  | CallUnregister all => unregister this all
  | CallReceiveResponse r => receiveResponse this r
  | CallOnRequestTimeout => onRequestTimeout this
  | CallOnTransportError => onTransportError this
  | CallOnRegistrationTimer => onRegistrationTimer this
  | CallOnTransportClosed => onTransportClosed this
  | CallOnTransportConnected => onTransportConnected this
  | CallClose => close this
  end.

Fixpoint calls (this : t) (cs : list Call) : t * list Effect :=
  match cs with
  | [] => (this, [])
  | c :: tl =>
      let '(this1, e1) := call this c in
      let '(this2, e2) := calls this1 tl in
      (this2, e1 ++ e2)
  end.

(** The CSeq numbers of the REGISTER requests of a trace, in order. *)
Fixpoint sent_cseqs (es : list Effect) : list Z :=
  match es with
  | [] => []
  | SendRegister c _ :: tl => c :: sent_cseqs tl
  | _ :: tl => sent_cseqs tl
  end.

(** The last of the ['registered'] and ['unregistered'] events of a trace:
    [Some true] for ['registered'], [None] when there is neither. *)
Fixpoint last_registration_event (es : list Effect) (seen : option bool)
  : option bool :=
  match es with
  | [] => seen
  | EmitRegistered :: tl => last_registration_event tl (Some true)
  | EmitUnregistered _ _ :: tl => last_registration_event tl (Some false)
  | _ :: tl => last_registration_event tl seen
  end.

(** *** The 2xx case on the Contact headers as parsed

    [Contact] above gives a gruu parameter by its value.  A parsed header
    may also hold the parameter without a value: [hasParam] is then true
    and [getParam] gives [null], on which [.replace] throws. *)
Inductive Param : Type :=
| NoParam                     (* hasParam is false *)
| NullParam                   (* hasParam is true, getParam is null *)
| ParamValue (v : string).

Record ParsedContact : Type := {
  parsed_uri       : string;
  parsed_expires   : option Z;      (* getParam('expires') *)
  parsed_temp_gruu : Param;
  parsed_pub_gruu  : Param
}.

Definition param_value (p : Param) : option string :=
  match p with
  | ParamValue v => Some v
  | _ => None
  end.

(** The header as [Contact] gives it. *)
Definition contact_of_parsed (c : ParsedContact) : Contact :=
  {| uri := parsed_uri c;
     expires_param := parsed_expires c;
     temp_gruu := param_value (parsed_temp_gruu c);
     pub_gruu := param_value (parsed_pub_gruu c) |}.

(** One of the gruu parameters of the header has no value. *)
Definition valueless_gruu (c : ParsedContact) : bool :=
  match parsed_temp_gruu c, parsed_pub_gruu c with
  | NullParam, _ | _, NullParam => true
  | _, _ => false
  end.

(** The [while (contacts--)] loop, as [scan_contacts]. *)
Fixpoint scan_parsed (our_uri : string) (rev_contacts : list ParsedContact)
    (last : option ParsedContact) : option ParsedContact * bool :=
  match rev_contacts with
  | [] => (last, false)
  | c :: tl =>
      if String.eqb (parsed_uri c) our_uri then (Some c, true)
      else scan_parsed our_uri tl (Some c)
  end.

(** The exception of [null.replace (...)]; its text is the engine's. *)
Definition null_replace : Exception :=
  TypeError "Cannot read property 'replace' of null".

(** The case [/^2[0-9]{2}$/] of [receiveResponse] as installed by
    [register] (lines 85-132), [expires0] being the Expires header. *)
Definition receiveResponse_2xx (this : t) (expires0 : option Z)
    (contacts : list ParsedContact) : Outcome t Effect :=
  match contacts with
  | [] =>
      (this,
       [Log "No Contact header positive response to Register. Ignore response"],
       None)
  | _ =>
      match scan_parsed (ua_contact_uri this) (rev contacts) None with
      | (None, _) =>
          (this, [Log "No Contact header pointing to us. Ignore response"],
           None)
      | (Some contact, matched) =>
          let expires1 :=
            if matched then parsed_expires contact else expires0 in
          let expires2 :=
            match expires1 with
            | Some e => e
            | None => expires this
            end in
          let delay := expires2 * 1000 - 3000 in
          let this1 := set_timer this delay in
          match parsed_temp_gruu contact with
          | NullParam => (this1, [SetTimeoutRegister delay], Some null_replace)
          | temp =>
              let this2 :=
                match temp with
                | ParamValue g =>
                    set_gruu this1 (Some (strip_quotes g)) (ua_pub_gruu this1)
                | _ => this1
                end in
              match parsed_pub_gruu contact with
              | NullParam =>
                  (this2, [SetTimeoutRegister delay], Some null_replace)
              | pub =>
                  let this3 :=
                    match pub with
                    | ParamValue g =>
                        set_gruu this2 (ua_temp_gruu this2)
                          (Some (strip_quotes g))
                    | _ => this2
                    end in
                  (set_registered this3 true,
                   [SetTimeoutRegister delay; EmitRegistered], None)
              end
          end
      end
  end.

End Registrator.

(** ** Session of src/UA.js (second variant, lines 2030-3366) *)

Module Session.

Inductive status : Type :=
| STATUS_NULL
| STATUS_INVITE_SENT
| STATUS_1XX_RECEIVED
| STATUS_INVITE_RECEIVED
| STATUS_WAITING_FOR_ANSWER
| STATUS_WAITING_FOR_ACK
| STATUS_CANCELED
| STATUS_TERMINATED
| STATUS_CONFIRMED.

Definition is_terminated (s : status) : bool :=
  match s with STATUS_TERMINATED => true | _ => false end.

Inductive direction : Type := outgoing | incoming.

(** [options.reason_phrase || JsSIP.C.REASON_PHRASE[status_code] || ''];
    the table itself is not part of the modelled files. *)
Inductive ReasonPhrase : Type :=
| Phrase (s : string)
| TablePhrase (status_code : option Z).

Record Options : Type := {
  status_code   : option Z;
  reason_phrase : option string;
  extraHeaders  : list string;
  body          : option string
}.

Definition reason_of (o : Options) : ReasonPhrase :=
  match reason_phrase o with
  | Some s => if String.eqb s "" then TablePhrase (status_code o)
              else Phrase s
  | None => TablePhrase (status_code o)
  end.

Inductive Cause : Type := BYE | CANCELED | REJECTED.

Inductive Effect : Type :=
| MediaSessionClose
| ClearTimers
| TerminateEarlyDialogs
| TerminateConfirmedDialog
| RequestCancel (reason : option (Z * ReasonPhrase))
| RequestReply (code : Z) (reason : option string)
               (extraHeaders : list string) (body : option string)
| SendBye (reason : option (Z * ReasonPhrase))
          (extraHeaders : list string) (body : option string)
| EmitEnded (cause : Cause)
| EmitFailed (cause : Cause).

Record t : Type := {
  st             : status;
  dir            : option direction;
  received_100   : bool;
  isCanceled     : bool;
  cancelReason   : option (Z * ReasonPhrase);
  mediaSession   : bool              (* this.mediaSession is set *)
}.

Definition set_status (this : t) (s : status) : t :=
  {| st := s; dir := dir this; received_100 := received_100 this;
     isCanceled := isCanceled this; cancelReason := cancelReason this;
     mediaSession := mediaSession this |}.

Definition set_canceled (this : t) (r : option (Z * ReasonPhrase)) : t :=
  {| st := st this; dir := dir this; received_100 := received_100 this;
     isCanceled := true; cancelReason := r;
     mediaSession := mediaSession this |}.

(** [close()] *)
Definition close (this : t) : t * list Effect :=
  if negb (is_terminated (st this))
  then (set_status this STATUS_TERMINATED,
        (if mediaSession this then [MediaSessionClose] else [])
          ++ [ClearTimers; TerminateEarlyDialogs; TerminateConfirmedDialog])
  else (this, []).

(** [ended(originator, message, cause)] *)
Definition ended (this : t) (cause : Cause) : t * list Effect :=
  let '(this1, es) := close this in (this1, es ++ [EmitEnded cause]).

(** [failed(originator, response, cause)] *)
Definition failed (this : t) (cause : Cause) : t * list Effect :=
  let '(this1, es) := close this in (this1, es ++ [EmitFailed cause]).

Definition invalid_status_code (sc : option Z) (low : Z) : bool :=
  match sc with
  | Some v => negb (v =? 0) && ((v <? low) || (700 <=? v))
  | None => false
  end.

Definition reason_value (o : Options) : option (Z * ReasonPhrase) :=
  match status_code o with
  | Some v => if v =? 0 then None else Some (v, reason_of o)
  | None => None
  end.

(** [cancel(options)] *)
Definition cancel (this : t) (o : Options) : Outcome t Effect :=
  match dir this with
  | Some outgoing =>
      if invalid_status_code (status_code o) 200
      then (this, [], Some (TypeError "Invalid status_code"))
      else
        let reason := reason_value o in
        match st this with
        | STATUS_NULL =>
            let '(s, es) := failed (set_canceled this reason) CANCELED in
            (s, es, None)
        | STATUS_INVITE_SENT =>
            if received_100 this
            then let '(s, es) := failed this CANCELED in
                 (s, RequestCancel reason :: es, None)
            else let '(s, es) := failed (set_canceled this reason) CANCELED in
                 (s, es, None)
        | STATUS_1XX_RECEIVED =>
            let '(s, es) := failed this CANCELED in
            (s, RequestCancel reason :: es, None)
        | _ => (this, [], Some InvalidStateError)
        end
  | _ => (this, [],
          Some (TypeError "Invalid method cancel for an incoming call"))
  end.

(** [reject(options)] *)
Definition reject (this : t) (o : Options) : Outcome t Effect :=
  let code := if truthy (status_code o)
              then match status_code o with Some v => v | None => 480 end
              else 480 in
  match dir this with
  | Some incoming =>
      match st this with
      | STATUS_WAITING_FOR_ANSWER =>
          if (code <? 300) || (700 <=? code)
          then (this, [], Some (TypeError "Invalid status_code"))
          else
            let '(s, es) := failed this REJECTED in
            (s, RequestReply code (reason_phrase o) (extraHeaders o) (body o)
                  :: es, None)
      | _ => (this, [], Some InvalidStateError)
      end
  | _ => (this, [],
          Some (TypeError "Invalid method reject for an outgoing call"))
  end.

(** [sendBye(options)] *)
Definition sendBye (this : t) (o : Options) : Outcome t Effect :=
  if invalid_status_code (status_code o) 200
  then (this, [], Some (TypeError "Invalid status_code"))
  else (this, [SendBye (reason_value o) (extraHeaders o) (body o)], None).

(** A call that threw leaves [terminate] at once; otherwise [k] runs on
    the state reached. *)
Definition and_then (r : Outcome t Effect) (k : t -> t * list Effect)
  : Outcome t Effect :=
  match r with
  | (s, es, Some e) => (s, es, Some e)
  | (s, es, None) => let '(s', es') := k s in (s', es ++ es', None)
  end.

(** [terminate(options)] *)
Definition terminate (this : t) (o : Options) : Outcome t Effect :=
  if is_terminated (st this)
  then (this, [], Some InvalidStateError)
  else
    match st this with
    | STATUS_NULL | STATUS_INVITE_SENT | STATUS_1XX_RECEIVED =>
        and_then (cancel this o) close
    | STATUS_WAITING_FOR_ANSWER =>
        and_then (reject this o) close
    | STATUS_WAITING_FOR_ACK | STATUS_CONFIRMED =>
        and_then (and_then (sendBye this o) (fun s => ended s BYE)) close
    | _ => and_then (this, [], None) close
    end.

(** Observers of an effect trace: the final events, the SIP messages and
    the runs of the body of [close]. *)
Definition is_final_event (e : Effect) : bool :=
  match e with EmitEnded _ | EmitFailed _ => true | _ => false end.

Definition is_sip_message (e : Effect) : bool :=
  match e with
  | RequestCancel _ | RequestReply _ _ _ _ | SendBye _ _ _ => true
  | _ => false
  end.

Definition is_clear_timers (e : Effect) : bool :=
  match e with ClearTimers => true | _ => false end.

Definition count (p : Effect -> bool) (es : list Effect) : nat :=
  List.length (filter p es).

(** *** Responses to the INVITE *)

(** The session with the confirmed dialog, which [receiveResponse] tests
    and [close] deletes. *)
Record Invite : Type := {
  base       : t;
  has_dialog : bool                 (* this.dialog is set *)
}.

Record Response : Type := {
  resp_status_code : Z;
  resp_to_tag      : option string;
  resp_body        : option string
}.

(** JavaScript truthiness of a string that may be [undefined]. *)
Definition truthy_string (s : option string) : bool :=
  match s with
  | Some v => negb (String.eqb v "")
  | None => false
  end.

(** What the Dialog constructor answers, which is outside these files:
    whether [createEarlyDialog] and [createConfirmedDialog] return true. *)
Record DialogLayer : Type := {
  early_dialog_ok     : Response -> bool;
  confirmed_dialog_ok : Response -> bool
}.

Inductive FailureCause : Type :=
| BAD_MEDIA_DESCRIPTION
| sipErrorCause (status_code : Z).   (* JsSIP.Utils.sipErrorCause *)

Inductive InviteEffect : Type :=
| OfSession (e : Effect)             (* an effect of [close] *)
| InviteCancel (reason : option (Z * ReasonPhrase))   (* request.cancel *)
| SendACK
| SendByeWith (status_code : option Z) (reason_phrase : option string)
| EmitProgress (r : Response)
| EmitInviteFailed (r : Response) (c : FailureCause)
| MediaOnMessageAnswer (r : Response)  (* mediaSession.onMessage('answer') *)
| LogLine (msg : string).

Definition set_received_100 (this : t) : t :=
  {| st := st this; dir := dir this; received_100 := true;
     isCanceled := isCanceled this; cancelReason := cancelReason this;
     mediaSession := mediaSession this |}.

(** [acceptAndTerminate(response, status_code, reason_phrase)] *)
Definition acceptAndTerminate (D : DialogLayer) (I : Invite) (r : Response)
    (status_code : option Z) (reason_phrase : option string)
  : Invite * list InviteEffect :=
  if has_dialog I
  then (I, [SendACK; SendByeWith status_code reason_phrase])
  else if confirmed_dialog_ok D r
  then ({| base := base I; has_dialog := true |},
        [SendACK; SendByeWith status_code reason_phrase])
  else (I, []).

(** [failed('remote', response, cause)] on a session with its dialog. *)
Definition invite_failed (I : Invite) (r : Response) (c : FailureCause)
  : Invite * list InviteEffect :=
  let '(b, es) := close (base I) in
  ({| base := b;
      has_dialog := if is_terminated (st (base I)) then has_dialog I
                    else false |},
   map OfSession es ++ [EmitInviteFailed r c]).

Definition is_1xx (sc : Z) : bool := (100 <=? sc) && (sc <=? 199).
Definition is_2xx (sc : Z) : bool := (200 <=? sc) && (sc <=? 299).

Inductive Label : Type :=
| L_none | L_1xx | L_1xx_answer | L_2xx | L_2xx_answer | L_failure.

(** [receiveResponse(response)] *)
Definition receiveResponse (D : DialogLayer) (I : Invite) (r : Response)
  : Invite * list InviteEffect :=
  let sc := resp_status_code r in
  if isCanceled (base I) then
    if (100 <=? sc) && (sc <? 200)
    then (I, [InviteCancel (cancelReason (base I))])
    else if (200 <=? sc) && (sc <? 299)
    then acceptAndTerminate D I r None None
    else (I, [])
  else
    let '(I1, label) :=
      if sc =? 100
      then ({| base := set_received_100 (base I);
               has_dialog := has_dialog I |}, L_none)
      else if is_1xx sc then
        if negb (truthy_string (resp_to_tag r)) then (I, L_none)
        else if truthy_string (resp_body r) then (I, L_1xx_answer)
        else (I, L_1xx)
      else if is_2xx sc then
        if truthy_string (resp_body r) then (I, L_2xx_answer)
        else (I, L_2xx)
      else (I, L_failure) in
    match st (base I1) with
    | STATUS_INVITE_SENT | STATUS_1XX_RECEIVED =>
        match label with
        | L_none => (I1, [])
        | L_1xx | L_1xx_answer =>
            if early_dialog_ok D r
            then ({| base := set_status (base I1) STATUS_1XX_RECEIVED;
                     has_dialog := has_dialog I1 |},
                  [EmitProgress r])
            else (I1, [])
        | L_2xx =>
            if has_dialog I1
            then (I1, [LogLine "2xx received"])
            else
              let '(I2, e2) :=
                acceptAndTerminate D I1 r (Some 400)
                  (Some "Missing session description") in
              let '(I3, e3) := invite_failed I2 r BAD_MEDIA_DESCRIPTION in
              (I3, e2 ++ e3)
        | L_2xx_answer =>
            if has_dialog I1
            then (I1, [LogLine "2xx_answer received"])
            else (I1, [MediaOnMessageAnswer r])
        | L_failure =>
            invite_failed I1 r (sipErrorCause sc)
        end
    | _ => (I1, [])
    end.

(** *** Session.RequestSender: in-dialog requests and 491 handling *)

Module RequestSender.

Record Response : Type := {
  method       : string;
  resp_status  : Z
}.

Inductive Effect : Type :=
| ApplicantReceiveResponse (r : Response)
| ApplicantOnRequestTimeout
| ApplicantOnTransportError
| SetTimeout (delay : Q)      (* the delay argument of window.setTimeout *)
| InDialogSend (cseq : Z).    (* this.request_sender.send() *)

Record t : Type := {
  session_status      : status;
  session_direction   : option direction;
  request_cseq        : Z;    (* this.request.cseq.value *)
  dialog_local_seqnum : Z;    (* this.request.dialog.local_seqnum *)
  reattempt           : bool;
  reatemptTimer       : option Q
}.

(** [x.toFixed(2)] read back as a number: the nearest multiple of 1/100,
    the larger one on a tie. *)
Definition toFixed2 (x : Q) : Q := Qfloor (x * 100 + (1 # 2)) # 100.

(** [getReattemptTimeout()], [random] being the value of
    [Math.random()]. *)
Definition getReattemptTimeout (random : Q) (this : t) : Q :=
  match session_direction this with
  | Some outgoing => toFixed2 (random * (4 - (21 # 10)) + (21 # 10))
  | _ => toFixed2 (random * 2)
  end.

(** [window.setTimeout] reads its delay in milliseconds. *)
Definition delay_in_seconds (delay : Q) : Q := delay / 1000.

(** [receiveResponse(response)] *)
Definition receiveResponse (random : Q) (this : t) (response : Response)
  : t * list Effect :=
  if String.eqb (method response) JsSIP_C.INVITE
     && (resp_status response =? 491)
  then
    if negb (reattempt this)
    then
      let n := dialog_local_seqnum this + 1 in
      let d := getReattemptTimeout random this in
      ({| session_status := session_status this;
          session_direction := session_direction this;
          request_cseq := n;
          dialog_local_seqnum := n;
          reattempt := reattempt this;
          reatemptTimer := Some d |},
       [SetTimeout d])
    else (this, [ApplicantReceiveResponse response])
  else (this, [ApplicantReceiveResponse response]).

(** The callback given to [setTimeout]. *)
Definition onReattemptTimer (this : t) : t * list Effect :=
  if negb (is_terminated (session_status this))
  then ({| session_status := session_status this;
           session_direction := session_direction this;
           request_cseq := request_cseq this;
           dialog_local_seqnum := dialog_local_seqnum this;
           reattempt := true;
           reatemptTimer := reatemptTimer this |},
        [InDialogSend (request_cseq this)])
  else (this, []).

Definition send (this : t) : t * list Effect :=
  (this, [InDialogSend (request_cseq this)]).

Definition onRequestTimeout (this : t) : t * list Effect :=
  (this, [ApplicantOnRequestTimeout]).

Definition onTransportError (this : t) : t * list Effect :=
  (this, [ApplicantOnTransportError]).

End RequestSender.

End Session.

(** ** RTCSession (unnamed/part_002) *)

Module RTCSession.

Inductive status : Type :=
| STATUS_NULL
| STATUS_INVITE_SENT
| STATUS_1XX_RECEIVED
| STATUS_INVITE_RECEIVED
| STATUS_WAITING_FOR_ANSWER
| STATUS_ANSWERED
| STATUS_WAITING_FOR_ACK
| STATUS_CANCELED
| STATUS_TERMINATED
| STATUS_CONFIRMED.

Definition is_terminated (s : status) : bool :=
  match s with STATUS_TERMINATED => true | _ => false end.

Inductive direction : Type := outgoing | incoming.

Inductive Cause : Type :=
| BYE | CANCELED | REJECTED
| UserCause (s : string).           (* options.cause *)

(** [reason_phrase || JsSIP_C.REASON_PHRASE[status_code] || '']; the table
    is not part of the modelled files. *)
Inductive ReasonPhrase : Type :=
| Phrase (s : string)
| TablePhrase (status_code : option Z).

Inductive Header : Type :=
| Raw (s : string)
| Reason (cause : Z) (text : ReasonPhrase).  (* Reason: SIP ;cause=..; text=.. *)

Record Options : Type := {
  cause         : option string;
  status_code   : option Z;
  reason_phrase : option string;
  extraHeaders  : list Header;
  body          : option string
}.

Definition phrase_or_table (p : option string) (sc : option Z)
  : ReasonPhrase :=
  match p with
  | Some s => if String.eqb s "" then TablePhrase sc else Phrase s
  | None => TablePhrase sc
  end.

Inductive Effect : Type :=
| ConnectionClose
| CloseMediaStream
| ClearTimers
| ClearSessionTimer
| DialogTerminate (d : nat)
| DeleteSessionFromUA
| RestoreDialogInUA (d : nat)
| RequestCancel (reason : option (Z * ReasonPhrase))
| RequestReply (code : Z) (reason : option string)
               (extraHeaders : list Header) (body : option string)
| SendRequestBYE (extraHeaders : list Header) (body : option string)
| EmitEnded (cause : Cause)
| EmitFailed (cause : Cause)
| DTMFSend (tone : ascii) (duration : Z)   (* an INFO request *)
| SetTimeoutSendDTMF (ms : Z).

Record t : Type := {
  st                 : status;
  dir                : option direction;
  isCanceled         : bool;
  cancelReason       : option (Z * ReasonPhrase);
  connection         : bool;
  localMediaStream   : bool;   (* stream present and locally generated *)
  dialog             : option nat;
  earlyDialogs       : list nat;
  server_transaction_terminated : bool;
  (* BYE put off until the ACK arrives or the server transaction ends *)
  deferredBye        : option (list Header * option string);
  tones              : option string;
  localHold          : bool;
  remoteHold         : bool
}.

Definition set_status (this : t) (s : status) : t :=
  {| st := s; dir := dir this; isCanceled := isCanceled this;
     cancelReason := cancelReason this; connection := connection this;
     localMediaStream := localMediaStream this; dialog := dialog this;
     earlyDialogs := earlyDialogs this;
     server_transaction_terminated := server_transaction_terminated this;
     deferredBye := deferredBye this; tones := tones this;
     localHold := localHold this; remoteHold := remoteHold this |}.

Definition set_canceled (this : t) (r : option (Z * ReasonPhrase)) : t :=
  {| st := st this; dir := dir this; isCanceled := true;
     cancelReason := r; connection := connection this;
     localMediaStream := localMediaStream this; dialog := dialog this;
     earlyDialogs := earlyDialogs this;
     server_transaction_terminated := server_transaction_terminated this;
     deferredBye := deferredBye this; tones := tones this;
     localHold := localHold this; remoteHold := remoteHold this |}.

Definition set_dialogs (this : t) (d : option nat) (e : list nat) : t :=
  {| st := st this; dir := dir this; isCanceled := isCanceled this;
     cancelReason := cancelReason this; connection := connection this;
     localMediaStream := localMediaStream this; dialog := d;
     earlyDialogs := e;
     server_transaction_terminated := server_transaction_terminated this;
     deferredBye := deferredBye this; tones := tones this;
     localHold := localHold this; remoteHold := remoteHold this |}.

Definition set_deferredBye (this : t)
    (b : option (list Header * option string)) : t :=
  {| st := st this; dir := dir this; isCanceled := isCanceled this;
     cancelReason := cancelReason this; connection := connection this;
     localMediaStream := localMediaStream this; dialog := dialog this;
     earlyDialogs := earlyDialogs this;
     server_transaction_terminated := server_transaction_terminated this;
     deferredBye := b; tones := tones this;
     localHold := localHold this; remoteHold := remoteHold this |}.

Definition set_tones (this : t) (s : option string) : t :=
  {| st := st this; dir := dir this; isCanceled := isCanceled this;
     cancelReason := cancelReason this; connection := connection this;
     localMediaStream := localMediaStream this; dialog := dialog this;
     earlyDialogs := earlyDialogs this;
     server_transaction_terminated := server_transaction_terminated this;
     deferredBye := deferredBye this; tones := s;
     localHold := localHold this; remoteHold := remoteHold this |}.

(** [_close()] *)
Definition _close (this : t) : t * list Effect :=
  if is_terminated (st this) then (this, [])
  else
    (set_status (set_dialogs this None []) STATUS_TERMINATED,
     (if connection this then [ConnectionClose] else [])
       ++ (if localMediaStream this then [CloseMediaStream] else [])
       ++ [ClearTimers; ClearSessionTimer]
       ++ match dialog this with
          | Some d => [DialogTerminate d]
          | None => []
          end
       ++ map DialogTerminate (earlyDialogs this)
       ++ [DeleteSessionFromUA]).

(** [ended(originator, message, cause)] *)
Definition ended (this : t) (c : Cause) : t * list Effect :=
  let '(this1, es) := _close this in (this1, es ++ [EmitEnded c]).

(** [failed(originator, message, cause)] *)
Definition failed (this : t) (c : Cause) : t * list Effect :=
  let '(this1, es) := _close this in (this1, es ++ [EmitFailed c]).

Definition invalid_status_code (sc : option Z) : bool :=
  match sc with
  | Some v => negb (v =? 0) && ((v <? 200) || (700 <=? v))
  | None => false
  end.

(** [terminate(options)] *)
Definition terminate (this : t) (o : Options) : Outcome t Effect :=
  let cause := match cause o with
               | Some c => if String.eqb c "" then BYE else UserCause c
               | None => BYE
               end in
  if is_terminated (st this)
  then (this, [], Some InvalidStateError)
  else
    match st this with
    | STATUS_NULL | STATUS_INVITE_SENT | STATUS_1XX_RECEIVED =>
        if invalid_status_code (status_code o)
        then (this, [], Some (TypeError "Invalid status_code"))
        else
          let cancel_reason :=
            match status_code o with
            | Some v =>
                if v =? 0 then None
                else Some (v, phrase_or_table (reason_phrase o)
                                              (status_code o))
            | None => None
            end in
          let '(this1, es1) :=
            match st this with
            | STATUS_1XX_RECEIVED => (this, [RequestCancel cancel_reason])
            | _ => (set_canceled this cancel_reason, [])
            end in
          let '(this2, es2) :=
            failed (set_status this1 STATUS_CANCELED) CANCELED in
          (this2, es1 ++ es2, None)
    | STATUS_WAITING_FOR_ANSWER | STATUS_ANSWERED =>
        let code := if truthy (status_code o)
                    then match status_code o with
                         | Some v => v
                         | None => 480
                         end
                    else 480 in
        if (code <? 300) || (700 <=? code)
        then (this, [], Some (TypeError "Invalid status_code"))
        else
          let '(this1, es1) := failed this REJECTED in
          (this1,
           RequestReply code (reason_phrase o) (extraHeaders o) (body o)
             :: es1, None)
    | STATUS_WAITING_FOR_ACK | STATUS_CONFIRMED =>
        if invalid_status_code (status_code o)
        then (this, [], Some (TypeError "Invalid status_code"))
        else
          let headers :=
            match status_code o with
            | Some v =>
                if v =? 0 then extraHeaders o
                else extraHeaders o
                       ++ [Reason v (phrase_or_table (reason_phrase o)
                                                     (status_code o))]
            | None => extraHeaders o
            end in
          let wait_for_ack :=
            match st this, dir this with
            | STATUS_WAITING_FOR_ACK, Some incoming =>
                negb (server_transaction_terminated this)
            | _, _ => false
            end in
          if wait_for_ack
          then
            let saved := dialog this in
            let this1 := set_deferredBye this (Some (headers, body o)) in
            let '(this2, es2) := ended this1 cause in
      let this3 := set_dialogs this2 saved (earlyDialogs this2) in
      match saved with
      | Some d => (this3, es2 ++ [RestoreDialogInUA d], None)
      | None => (this3, es2, Some (TypeError "dialog is null"))
      end
          else
            let '(this1, es1) := ended this cause in
            (this1, SendRequestBYE headers (body o) :: es1, None)
    | _ => (this, [], None)
    end.

(** Observers of an effect trace: the final events and the SIP messages. *)
Definition is_final_event (e : Effect) : bool :=
  match e with EmitEnded _ | EmitFailed _ => true | _ => false end.

Definition is_sip_message (e : Effect) : bool :=
  match e with
  | RequestCancel _ | RequestReply _ _ _ _ | SendRequestBYE _ _ => true
  | _ => false
  end.

Definition count (p : Effect -> bool) (es : list Effect) : nat :=
  List.length (filter p es).

(** The states in which [terminate] finds no case of its [switch]. *)
Definition no_terminate_case (s : status) : bool :=
  match s with
  | STATUS_INVITE_RECEIVED | STATUS_CANCELED => true
  | _ => false
  end.

(** *** DTMF *)

(** Constants of [RTCSession_DTMF.C]; the values are those of the DTMF
    block of [C] in src/UA.js. *)
Definition DEFAULT_DURATION       : Z := 100.
Definition MIN_DURATION           : Z := 70.
Definition MAX_DURATION           : Z := 6000.
Definition DEFAULT_INTER_TONE_GAP : Z := 500.
Definition MIN_INTER_TONE_GAP     : Z := 50.

(** The [tones] argument. *)
Inductive Tones : Type :=
| TonesUndefined
| TonesNumber (n : Z)
| TonesString (s : string)
| TonesOther.                       (* null, a boolean, an object, ... *)

(** A numeric option: absent, a number, or a value for which
    [Utils.isDecimal] is false. *)
Inductive OptNum : Type := Absent | Num (n : Z) | NotDecimal.

Record DTMFOptions : Type := {
  duration     : OptNum;
  interToneGap : OptNum
}.

Definition in_range (lo hi c : ascii) : bool :=
  (nat_of_ascii lo <=? nat_of_ascii c)%nat
  && (nat_of_ascii c <=? nat_of_ascii hi)%nat.

(** One character of the class [[0-9A-DR#*,]] under the [i] flag. *)
Definition tone_char (c : ascii) : bool :=
  in_range "0" "9" c
  || in_range "A" "D" c || in_range "a" "d" c
  || Ascii.eqb c "R" || Ascii.eqb c "r"
  || Ascii.eqb c "#" || Ascii.eqb c "*" || Ascii.eqb c ",".

Fixpoint all_chars (p : ascii -> bool) (s : string) : bool :=
  match s with
  | EmptyString => true
  | String c tl => p c && all_chars p tl
  end.

(** [tones.match(/^[0-9A-DR#*,]+$/i)] *)
Definition tones_match (s : string) : bool :=
  negb (String.eqb s "") && all_chars tone_char s.

(** [tones.toString()] for a whole number. *)
Definition number_toString (n : Z) : string := Z_toString n.

(** The closure variables of one [sendDTMF] call. *)
Record Loop : Type := {
  position   : nat;
  l_duration : Z;
  l_gap      : Z
}.

Fixpoint string_get (n : nat) (s : string) : option ascii :=
  match s, n with
  | EmptyString, _ => None
  | String c _, O => Some c
  | String _ tl, S m => string_get m tl
  end.

(** [_sendDTMF()]: sends the tone at [position], or pauses on a comma,
    and arms the timer of the next call.  [None] when the queue stops. *)
Definition _sendDTMF (this : t) (l : Loop)
  : t * option Loop * list Effect :=
  match tones this with
  | None => (set_tones this None, None, [])
  | Some ts =>
      if is_terminated (st this) || String.eqb ts ""
         || (String.length ts <=? position l)%nat
      then (set_tones this None, None, [])
      else
        match string_get (position l) ts with
        | None => (set_tones this None, None, [])
        | Some tone =>
            let l' := {| position := S (position l);
                         l_duration := l_duration l;
                         l_gap := l_gap l |} in
            if Ascii.eqb tone ","
            then (this, Some l', [SetTimeoutSendDTMF 2000])
            else (this, Some l',
                  [DTMFSend tone (l_duration l);
                   SetTimeoutSendDTMF (l_duration l + l_gap l)])
        end
  end.

(** The [onFailed] handler given to every DTMF. *)
Definition onDTMFFailed (this : t) : t := set_tones this None.

(** The conversion of a number to a string and the check of the tones;
    [None] is the TypeError. *)
Definition check_tones (tns : Tones) : option string :=
  match tns with
  | TonesNumber n =>
      let s := number_toString n in
      if tones_match s then Some s else None
  | TonesString s => if tones_match s then Some s else None
  | _ => None
  end.

(** The check of [options.duration]; [None] is the TypeError. *)
Definition check_duration (d : OptNum) : option Z :=
  match d with
  | NotDecimal => None
  | Absent => Some DEFAULT_DURATION
  | Num d =>
      if d =? 0 then Some DEFAULT_DURATION
      else if d <? MIN_DURATION then Some MIN_DURATION
      else if MAX_DURATION <? d then Some MAX_DURATION
      else Some (Z.abs d)
  end.

(** The check of [options.interToneGap]; [None] is the TypeError. *)
Definition check_interToneGap (g : OptNum) : option Z :=
  match g with
  | NotDecimal => None
  | Absent => Some DEFAULT_INTER_TONE_GAP
  | Num g =>
      if g =? 0 then Some DEFAULT_INTER_TONE_GAP
      else if g <? MIN_INTER_TONE_GAP then Some MIN_INTER_TONE_GAP
      else Some (Z.abs g)
  end.

(** [this._tones] is a non-empty string. *)
Definition tones_queued (this : t) : bool :=
  match tones this with
  | Some q => negb (String.eqb q "")
  | None => false
  end.

(** [sendDTMF(tones, options)] *)
Definition sendDTMF (this : t) (tns : Tones) (o : DTMFOptions)
  : t * option Loop * list Effect * option Exception :=
  match tns with
  | TonesUndefined => (this, None, [], Some (TypeError "Not enough arguments"))
  | _ =>
      match st this with
      | STATUS_CONFIRMED | STATUS_WAITING_FOR_ACK =>
          match check_tones tns with
          | None => (this, None, [], Some (TypeError "Invalid tones"))
          | Some s =>
              match check_duration (duration o) with
              | None => (this, None, [],
                         Some (TypeError "Invalid tone duration"))
              | Some d =>
                  match check_interToneGap (interToneGap o) with
                  | None => (this, None, [],
                             Some (TypeError "Invalid interToneGap"))
                  | Some g =>
                      if tones_queued this
                      then
                        (set_tones this
                           (match tones this with
                            | Some q => Some (q ++ s)%string
                            | None => Some s
                            end),
                         None, [], None)
                      else
                        let '(this1, l, es) :=
                          _sendDTMF (set_tones this (Some s))
                            {| position := 0; l_duration := d;
                               l_gap := g |} in
                        (this1, l, es, None)
                  end
              end
          end
      | _ => (this, None, [], Some InvalidStateError)
      end
  end.

(** The timers armed by [_sendDTMF] firing one after the other, nothing
    else happening in between: at most [fuel] calls of [_sendDTMF]. *)
Fixpoint play (fuel : nat) (this : t) (l : Loop) : t * list Effect :=
  match fuel with
  | O => (this, [])
  | S n =>
      match _sendDTMF this l with
      | (this1, Some l1, es) =>
          let '(this2, es2) := play n this1 l1 in (this2, es ++ es2)
      | (this1, None, es) => (this1, es)
      end
  end.

(** The INFO requests of a trace, and the delays of its timers. *)
Fixpoint sent_tones (es : list Effect) : list (ascii * Z) :=
  match es with
  | [] => []
  | DTMFSend tone d :: tl => (tone, d) :: sent_tones tl
  | _ :: tl => sent_tones tl
  end.

Fixpoint timeouts (es : list Effect) : list Z :=
  match es with
  | [] => []
  | SetTimeoutSendDTMF ms :: tl => ms :: timeouts tl
  | _ :: tl => timeouts tl
  end.

(** *** Hold: direction attributes of an offer *)

Inductive Direction : Type := sendrecv | sendonly | recvonly | inactive.

(** A media section as [sdp_transform.parse] returns it; [m_direction]
    is absent when the section has no direction attribute. *)
Record Media : Type := {
  m_type      : string;
  m_direction : option Direction;
  m_rest      : string
}.

Record Sdp : Type := {
  session_level : string;
  media         : list Media
}.

Definition holdMediaTypes : list string := ["audio"; "video"].

(** [holdMediaTypes.indexOf(m.type) === -1] *)
Definition not_hold_type (ty : string) : bool :=
  negb (existsb (String.eqb ty) holdMediaTypes).

Definition with_direction (m : Media) (d : Direction) : Media :=
  {| m_type := m_type m; m_direction := Some d; m_rest := m_rest m |}.

(** Body of the three [for (const m of sdp.media)] loops. *)
Definition mangleMedia (local remote : bool) (m : Media) : Media :=
  if local && negb remote then
    if not_hold_type (m_type m) then m
    else match m_direction m with
         | None => with_direction m sendonly
         | Some sendrecv => with_direction m sendonly
         | Some recvonly => with_direction m inactive
         | _ => m
         end
  else if local && remote then
    if not_hold_type (m_type m) then m
    else with_direction m inactive
  else if remote then
    if not_hold_type (m_type m) then m
    else match m_direction m with
         | None => with_direction m recvonly
         | Some sendrecv => with_direction m recvonly
         | Some recvonly => with_direction m inactive
         | _ => m
         end
  else m.

Definition mangleSdp (local remote : bool) (sdp : Sdp) : Sdp :=
  {| session_level := session_level sdp;
     media := map (mangleMedia local remote) (media sdp) |}.

Section MangleOffer.
(** [sdp_transform.parse] and [sdp_transform.write] *)
Variable parse : string -> Sdp.
Variable write : Sdp -> string.

(** [mangleOffer(sdp)] *)
Definition mangleOffer (this : t) (sdp : string) : string :=
  if negb (localHold this) && negb (remoteHold this) then sdp
  else write (mangleSdp (localHold this) (remoteHold this) (parse sdp)).
End MangleOffer.

(** *** The status of the session *)

Definition isInProgress (this : t) : bool :=
  match st this with
  | STATUS_NULL | STATUS_INVITE_SENT | STATUS_1XX_RECEIVED
  | STATUS_INVITE_RECEIVED | STATUS_WAITING_FOR_ANSWER => true
  | _ => false
  end.

Definition isEstablished (this : t) : bool :=
  match st this with
  | STATUS_ANSWERED | STATUS_WAITING_FOR_ACK | STATUS_CONFIRMED => true
  | _ => false
  end.

Definition isEnded (this : t) : bool :=
  match st this with
  | STATUS_CANCELED | STATUS_TERMINATED => true
  | _ => false
  end.

(** *** Mute and hold *)

(** The session together with what mute and hold read and write besides:
    the mute flags, [_rtcReady], the pending-reply flags of the dialog and
    the [enabled] flag of every audio and video track of the local
    streams. *)
Record Local : Type := {
  session           : t;
  audioMuted        : bool;
  videoMuted        : bool;
  rtcReady          : bool;
  uac_pending_reply : bool;
  uas_pending_reply : bool;
  audioTracks       : list bool;
  videoTracks       : list bool
}.

Inductive Originator : Type := local | remote.

Inductive ReOffer : Type := ByReinvite | ByUpdate.

Inductive MediaEffect : Type :=
| EmitHold (o : Originator)
| EmitUnhold (o : Originator)
| EmitMuted (audio video : bool)
| EmitUnmuted (audio video : bool)
| SendReOffer (how : ReOffer) (extraHeaders : list Header)
| SendUpdateRequest (extraHeaders : list Header).

Definition set_localHold (this : t) (b : bool) : t :=
  {| st := st this; dir := dir this; isCanceled := isCanceled this;
     cancelReason := cancelReason this; connection := connection this;
     localMediaStream := localMediaStream this; dialog := dialog this;
     earlyDialogs := earlyDialogs this;
     server_transaction_terminated := server_transaction_terminated this;
     deferredBye := deferredBye this; tones := tones this;
     localHold := b; remoteHold := remoteHold this |}.

Definition with_session (L : Local) (s : t) : Local :=
  {| session := s; audioMuted := audioMuted L; videoMuted := videoMuted L;
     rtcReady := rtcReady L;
     uac_pending_reply := uac_pending_reply L;
     uas_pending_reply := uas_pending_reply L;
     audioTracks := audioTracks L; videoTracks := videoTracks L |}.

Definition with_muted (L : Local) (a v : bool) : Local :=
  {| session := session L; audioMuted := a; videoMuted := v;
     rtcReady := rtcReady L;
     uac_pending_reply := uac_pending_reply L;
     uas_pending_reply := uas_pending_reply L;
     audioTracks := audioTracks L; videoTracks := videoTracks L |}.

Definition with_rtcReady (L : Local) (b : bool) : Local :=
  {| session := session L; audioMuted := audioMuted L;
     videoMuted := videoMuted L; rtcReady := b;
     uac_pending_reply := uac_pending_reply L;
     uas_pending_reply := uas_pending_reply L;
     audioTracks := audioTracks L; videoTracks := videoTracks L |}.

(** [toogleMuteAudio(mute)] and [toogleMuteVideo(mute)] *)
Definition toogleMuteAudio (mute : bool) (L : Local) : Local :=
  {| session := session L; audioMuted := audioMuted L;
     videoMuted := videoMuted L; rtcReady := rtcReady L;
     uac_pending_reply := uac_pending_reply L;
     uas_pending_reply := uas_pending_reply L;
     audioTracks := map (fun _ => negb mute) (audioTracks L);
     videoTracks := videoTracks L |}.

Definition toogleMuteVideo (mute : bool) (L : Local) : Local :=
  {| session := session L; audioMuted := audioMuted L;
     videoMuted := videoMuted L; rtcReady := rtcReady L;
     uac_pending_reply := uac_pending_reply L;
     uas_pending_reply := uas_pending_reply L;
     audioTracks := audioTracks L;
     videoTracks := map (fun _ => negb mute) (videoTracks L) |}.

(** [setLocalMediaStatus()] *)
Definition setLocalMediaStatus (L : Local) : Local :=
  let held := localHold (session L) || remoteHold (session L) in
  let enableAudio := if held then false
                     else if audioMuted L then false else true in
  let enableVideo := if held then false
                     else if videoMuted L then false else true in
  toogleMuteVideo (negb enableVideo) (toogleMuteAudio (negb enableAudio) L).

Definition onhold (L : Local) (o : Originator) : Local * list MediaEffect :=
  (setLocalMediaStatus L, [EmitHold o]).

Definition onunhold (L : Local) (o : Originator)
  : Local * list MediaEffect :=
  (setLocalMediaStatus L, [EmitUnhold o]).

Definition onmute (L : Local) (audio video : bool)
  : Local * list MediaEffect :=
  (setLocalMediaStatus L, [EmitMuted audio video]).

Definition onunmute (L : Local) (audio video : bool)
  : Local * list MediaEffect :=
  (setLocalMediaStatus L, [EmitUnmuted audio video]).

Record MuteOptions : Type := {
  audio : bool;
  video : bool
}.

(** [mute(options)] *)
Definition mute (L : Local) (o : MuteOptions) : Local * list MediaEffect :=
  let '(L1, a) :=
    if negb (audioMuted L) && audio o
    then (toogleMuteAudio true (with_muted L true (videoMuted L)), true)
    else (L, false) in
  let '(L2, v) :=
    if negb (videoMuted L1) && video o
    then (toogleMuteVideo true (with_muted L1 (audioMuted L1) true), true)
    else (L1, false) in
  if a || v then onmute L2 a v else (L2, []).

(** [unmute(options)] *)
Definition unmute (L : Local) (o : MuteOptions)
  : Local * list MediaEffect :=
  let '(L1, a) :=
    if audioMuted L && audio o
    then
      let L' := with_muted L false (videoMuted L) in
      (if negb (localHold (session L')) then toogleMuteAudio false L'
       else L', true)
    else (L, false) in
  let '(L2, v) :=
    if videoMuted L1 && video o
    then
      let L' := with_muted L1 (audioMuted L1) false in
      (if negb (localHold (session L')) then toogleMuteVideo false L'
       else L', true)
    else (L1, false) in
  if a || v then onunmute L2 a v else (L2, []).

(** [_isReadyToReOffer()] *)
Definition _isReadyToReOffer (L : Local) : bool :=
  if negb (rtcReady L) then false
  else match dialog (session L) with
       | None => false
       | Some _ =>
           if uac_pending_reply L || uas_pending_reply L then false
           else true
       end.

Record HoldOptions : Type := {
  useUpdate         : bool;
  hold_extraHeaders : list Header
}.

(** [createLocalDescription('offer', ...)] up to its return: [_rtcReady]
    is cleared; the offer is made and the request goes out later, from the
    callbacks of the peer connection. *)
Definition createLocalDescription (L : Local) : Local :=
  with_rtcReady L false.

(** [sendReinvite(options)] *)
Definition sendReinvite (L : Local) (extraHeaders : list Header)
  : Local * list MediaEffect :=
  (createLocalDescription L, [SendReOffer ByReinvite extraHeaders]).

(** [sendUpdate(options)]; without [sdpOffer] the UPDATE is sent at
    once. *)
Definition sendUpdate (L : Local) (sdpOffer : bool)
    (extraHeaders : list Header) : Local * list MediaEffect :=
  if sdpOffer
  then (createLocalDescription L, [SendReOffer ByUpdate extraHeaders])
  else (L, [SendUpdateRequest extraHeaders]).

Definition established (s : status) : bool :=
  match s with
  | STATUS_WAITING_FOR_ACK | STATUS_CONFIRMED => true
  | _ => false
  end.

(** [hold(options, done)] with the value it returns. *)
Definition hold (L : Local) (o : HoldOptions)
  : Local * list MediaEffect * bool :=
  if negb (established (st (session L))) then (L, [], false)
  else if localHold (session L) then (L, [], false)
  else if negb (_isReadyToReOffer L) then (L, [], false)
  else
    let '(L1, e1) :=
      onhold (with_session L (set_localHold (session L) true)) local in
    let '(L2, e2) :=
      if useUpdate o then sendUpdate L1 true (hold_extraHeaders o)
      else sendReinvite L1 (hold_extraHeaders o) in
    (L2, e1 ++ e2, true).

(** [unhold(options, done)] with the value it returns. *)
Definition unhold (L : Local) (o : HoldOptions)
  : Local * list MediaEffect * bool :=
  if negb (established (st (session L))) then (L, [], false)
  else if negb (localHold (session L)) then (L, [], false)
  else if negb (_isReadyToReOffer L) then (L, [], false)
  else
    let '(L1, e1) :=
      onunhold (with_session L (set_localHold (session L) false)) local in
    let '(L2, e2) :=
      if useUpdate o then sendUpdate L1 true (hold_extraHeaders o)
      else sendReinvite L1 (hold_extraHeaders o) in
    (L2, e1 ++ e2, true).

(** The four calls of the API. *)
Inductive MediaCall : Type :=
| CallMute (o : MuteOptions)
| CallUnmute (o : MuteOptions)
| CallHold (o : HoldOptions)
| CallUnhold (o : HoldOptions).

Definition media_call (L : Local) (c : MediaCall)
  : Local * list MediaEffect :=
  match c with
  | CallMute o => mute L o
  | CallUnmute o => unmute L o
  | CallHold o => fst (hold L o)
  | CallUnhold o => fst (unhold L o)
  end.

Fixpoint media_calls (L : Local) (cs : list MediaCall)
  : Local * list MediaEffect :=
  match cs with
  | [] => (L, [])
  | c :: tl =>
      let '(L1, e1) := media_call L c in
      let '(L2, e2) := media_calls L1 tl in
      (L2, e1 ++ e2)
  end.

(** Every audio track is enabled exactly when the session is on hold on
    neither side and audio is not muted, and likewise for video. *)
Definition tracks_follow_flags (L : Local) : Prop :=
  let held := localHold (session L) || remoteHold (session L) in
  Forall (fun b => b = negb held && negb (audioMuted L)) (audioTracks L)
  /\ Forall (fun b => b = negb held && negb (videoMuted L)) (videoTracks L).

End RTCSession.

(** ** Message (lib/Message.js, lines 1-266) *)

Module Message.

Inductive Originator : Type := local | remote | system.

Inductive Cause : Type :=
| REQUEST_TIMEOUT
| CONNECTION_ERROR
| sipErrorCause (status_code : Z).  (* Utils.sipErrorCause *)

Record Response : Type := {
  status_code : Z
}.

Inductive Effect : Type :=
| UaDestroyMessage
| UaNewMessage (o : Originator)
| EmitFailed (o : Originator) (response : option Response) (c : Cause)
| EmitSucceeded (o : Originator) (response : Response)
| RequestReply (code : Z)
| RequestSenderSend.

Inductive direction : Type := incoming | outgoing.

Record t : Type := {
  _closed    : bool;
  _direction : option direction;
  _request   : bool                 (* this._request is set *)
}.

(** [constructor(ua)] *)
Definition constructor : t :=
  {| _closed := false; _direction := None; _request := false |}.

(** [close()] *)
Definition close (this : t) : t * list Effect :=
  ({| _closed := true; _direction := _direction this;
      _request := _request this |},
   [UaDestroyMessage]).

(** [failed(originator, response, cause)] *)
Definition failed (this : t) (o : Originator) (r : option Response)
    (c : Cause) : t * list Effect :=
  let '(this1, es) := close this in
  (this1, es ++ [EmitFailed o r c]).

(** [succeeded(originator, response)] *)
Definition succeeded (this : t) (o : Originator) (r : Response)
  : t * list Effect :=
  let '(this1, es) := close this in
  (this1, es ++ [EmitSucceeded o r]).

Definition is_1xx (sc : Z) : bool := (100 <=? sc) && (sc <=? 199).
Definition is_2xx (sc : Z) : bool := (200 <=? sc) && (sc <=? 299).

(** [receiveResponse(response)] *)
Definition receiveResponse (this : t) (response : Response)
  : t * list Effect :=
  if _closed this then (this, [])
  else if is_1xx (status_code response) then (this, [])
  else if is_2xx (status_code response)
  then succeeded this remote response
  else failed this remote (Some response)
         (sipErrorCause (status_code response)).

(** [onRequestTimeout()] *)
Definition onRequestTimeout (this : t) : t * list Effect :=
  if _closed this then (this, [])
  else failed this system None REQUEST_TIMEOUT.

(** [onTransportError()] *)
Definition onTransportError (this : t) : t * list Effect :=
  if _closed this then (this, [])
  else failed this system None CONNECTION_ERROR.

(** [newMessage(originator, request)] *)
Definition newMessage (this : t) (o : Originator) : t * list Effect :=
  ({| _closed := _closed this;
      _direction := match o with
                    | remote => Some incoming
                    | local => Some outgoing
                    | system => _direction this
                    end;
      _request := _request this |},
   [UaNewMessage o]).

(** [send(target, body, options)] for a valid target and a body. *)
Definition send (this : t) : t * list Effect :=
  let this1 := {| _closed := _closed this; _direction := _direction this;
                  _request := true |} in
  let '(this2, es) := newMessage this1 local in
  (this2, es ++ [RequestSenderSend]).

(** [init_incoming(request)]; [nist_open] tells whether the server
    transaction is in state Trying or Proceeding. *)
Definition init_incoming (this : t) (nist_open : bool) : t * list Effect :=
  let this1 := {| _closed := _closed this; _direction := _direction this;
                  _request := true |} in
  let '(this2, es2) := newMessage this1 remote in
  let '(this3, es3) := close this2 in
  (this3, es2 ++ (if nist_open then [RequestReply 200] else []) ++ es3).

(** What the transaction layer and the owner may call on a message. *)
Inductive Call : Type :=
| CallReceiveResponse (r : Response)
| CallOnRequestTimeout
| CallOnTransportError
| CallClose
| CallSend
| CallInitIncoming (nist_open : bool).

Definition call (this : t) (c : Call) : t * list Effect :=
  match c with
  | CallReceiveResponse r => receiveResponse this r
  | CallOnRequestTimeout => onRequestTimeout this
  | CallOnTransportError => onTransportError this
  | CallClose => close this
  | CallSend => send this
  | CallInitIncoming b => init_incoming this b
  end.

Fixpoint calls (this : t) (cs : list Call) : t * list Effect :=
  match cs with
  | [] => (this, [])
  | c :: tl =>
      let '(this1, e1) := call this c in
      let '(this2, e2) := calls this1 tl in
      (this2, e1 ++ e2)
  end.

Definition is_terminal (e : Effect) : bool :=
  match e with
  | EmitFailed _ _ _ | EmitSucceeded _ _ => true
  | _ => false
  end.

(** Number of ['succeeded'] and ['failed'] events in a trace. *)
Definition terminal_events (es : list Effect) : nat :=
  List.length (filter is_terminal es).

(** *** accept and reject *)

Record ReplyOptions : Type := {
  o_status_code   : option Z;
  o_reason_phrase : option string;
  o_extraHeaders  : list string;
  o_body          : option string
}.

(** The arguments of [this._request.reply]. *)
Record Reply : Type := {
  code          : Z;
  reason        : option string;
  reply_headers : list string;
  reply_body    : option string
}.

Definition is_incoming (this : t) : bool :=
  match _direction this with
  | Some incoming => true
  | _ => false
  end.

(** [accept(options)] *)
Definition accept (this : t) (o : ReplyOptions) : Outcome t Reply :=
  if negb (is_incoming this)
  then (this, [], Some NotSupportedError)
  else (this,
        [{| code := 200; reason := None;
            reply_headers := o_extraHeaders o;
            reply_body := o_body o |}],
        None).

(** [reject(options)] *)
Definition reject (this : t) (o : ReplyOptions) : Outcome t Reply :=
  let status_code := if truthy (o_status_code o)
                     then match o_status_code o with
                          | Some v => v
                          | None => 480
                          end
                     else 480 in
  if negb (is_incoming this)
  then (this, [], Some NotSupportedError)
  else if (status_code <? 300) || (700 <=? status_code)
  then (this, [],
        Some (TypeError ("Invalid status_code: " ++ Z_toString status_code)))
  else (this,
        [{| code := status_code; reason := o_reason_phrase o;
            reply_headers := o_extraHeaders o;
            reply_body := o_body o |}],
        None).

End Message.

(* ================================================================== *)
(** * Further parts of the stack *)
(* ================================================================== *)

(** The keys written by [setParam]: not empty and lower-case. *)
Definition lower_keys {V : Type} (o : JsObject.t V) : bool :=
  forallb (fun kv => negb (String.eqb (fst kv) "")
                     && String.eqb (toLowerCase (fst kv)) (fst kv)) o.

(** The parameter objects that [setParam], [deleteParam] and
    [clearParams] build from the empty object. *)
Definition well_formed_params {V : Type} (o : JsObject.t V) : bool :=
  JsObject.canonical o && lower_keys o.

(** What the loop of [getNextWsServer] maintains: the candidates are
    servers met so far that are not in Error, of one weight, which no other
    server met so far that is not in Error exceeds. *)
Definition candidates_invariant (pre : list UA.ws_server)
    (cands : list (nat * UA.ws_server)) : Prop :=
  (forall i ws, In (i, ws) cands ->
                nth_error pre i = Some ws /\ UA.ws_status ws <> 2)
  /\ (forall i ws i' ws', In (i, ws) cands -> In (i', ws') cands ->
                          UA.weight ws = UA.weight ws')
  /\ (forall ws, In ws pre -> UA.ws_status ws <> 2 ->
                 cands <> []
                 /\ forall i c, In (i, c) cands ->
                                UA.weight ws <= UA.weight c).

(** What a direction attribute allows; a media section without one is
    [sendrecv] (RFC 3264, section 5.1). *)
Definition sends (d : option RTCSession.Direction) : bool :=
  match d with
  | None | Some RTCSession.sendrecv | Some RTCSession.sendonly => true
  | _ => false
  end.

Definition receives (d : option RTCSession.Direction) : bool :=
  match d with
  | None | Some RTCSession.sendrecv | Some RTCSession.recvonly => true
  | _ => false
  end.
(* ================================================================== *)
(** * Sample values

    Concrete senders, sessions, offers and headers at which the theorems
    below are evaluated. *)
(* ================================================================== *)

(** A digest object that accepts every challenge, and a request sent
    outside any dialog with a password configured. *)
Definition accepting_digest : RequestSender.Collaborators unit :=
  {| RequestSender.auth_new := fun _ => tt;
     RequestSender.authenticate := fun a _ _ => (true, a);
     RequestSender.auth_realm := fun _ => Some "example.com";
     RequestSender.auth_ha1 := fun _ => Some "ha1";
     RequestSender.auth_toString := fun _ => "Digest";
     RequestSender.cseq_toString := Z_toString;
     RequestSender.clone := fun r => r |}.

Definition options_sender : RequestSender.t unit :=
  fst (RequestSender.constructor UA_C.STATUS_READY
         {| RequestSender.password := Some "secret";
            RequestSender.ha1 := None;
            RequestSender.cfg_realm := None;
            RequestSender.authorization_user := "alice" |}
         0 (fun _ => 0)
         {| RequestSender.method := "OPTIONS"; RequestSender.cseq := 1;
            RequestSender.headers := []; RequestSender.dialog := None |}).

Definition challenge_401 (stale : bool) : RequestSender.Response :=
  {| RequestSender.status_code := 401;
     RequestSender.resp_method := "OPTIONS";
     RequestSender.www_authenticate :=
       Some {| RequestSender.realm := "example.com";
               RequestSender.nonce := "n";
               RequestSender.stale := stale |};
     RequestSender.proxy_authenticate := None |}.

(** A registrator that asked for 600 seconds and whose REGISTER number 81
    is answered by [423] with [Min-Expires: 3600]. *)
Definition registrator_600 : Registrator.t :=
  {| Registrator.expires := 600;
     Registrator.min_expires := 0;
     Registrator.cseq := 81;
     Registrator.registered := false;
     Registrator.registered_before := false;
     Registrator.registrationTimer := None;
     Registrator.handlers := Registrator.ForRegister;
     Registrator.ua_contact_uri := "sip:alice@example.com";
     Registrator.ua_temp_gruu := None;
     Registrator.ua_pub_gruu := None |}.

Definition response_423 (min_expires : option Z) : Registrator.Response :=
  {| Registrator.status_code := 423;
     Registrator.resp_cseq := 81;
     Registrator.expires_hdr := None;
     Registrator.min_expires_hdr := min_expires;
     Registrator.contacts := [] |}.

(** A re-INVITE of CSeq 10, the last request of its dialog. *)
Definition reinvite_sender (d : Session.direction)
  : Session.RequestSender.t :=
  {| Session.RequestSender.session_status := Session.STATUS_CONFIRMED;
     Session.RequestSender.session_direction := Some d;
     Session.RequestSender.request_cseq := 10;
     Session.RequestSender.dialog_local_seqnum := 10;
     Session.RequestSender.reattempt := false;
     Session.RequestSender.reatemptTimer := None |}.

Definition response_491 : Session.RequestSender.Response :=
  {| Session.RequestSender.method := "INVITE";
     Session.RequestSender.resp_status := 491 |}.

(** Two servers, both in error, two failed recovery rounds so far, a
    minimum interval of 2 s and a maximum of 5 s. *)
Definition ua_recovering : UA.t :=
  {| UA.status := UA_C.STATUS_NOT_READY;
     UA.error := Some UA.UA_NETWORK_ERROR;
     UA.transportRecoverAttempts := 2;
     UA.configuration :=
       {| UA.ws_servers :=
            [ {| UA.ws_uri := "ws://a.example.com"; UA.weight := 2;
                 UA.ws_status := UA.WS_SERVER_ERROR |};
              {| UA.ws_uri := "ws://b.example.com"; UA.weight := 1;
                 UA.ws_status := UA.WS_SERVER_ERROR |} ];
          UA.connection_recovery_min_interval := 2;
          UA.connection_recovery_max_interval := 5;
          UA.register := true |};
     UA.transport := None;
     UA.registrator := true |}.

(** An offer with an audio section, a video section and a data channel. *)
Definition offer_audio : RTCSession.Media :=
  {| RTCSession.m_type := "audio";
     RTCSession.m_direction := Some RTCSession.sendrecv;
     RTCSession.m_rest := "m=audio 9 UDP/TLS/RTP/SAVPF 111" |}.

Definition offer_video : RTCSession.Media :=
  {| RTCSession.m_type := "video";
     RTCSession.m_direction := Some RTCSession.recvonly;
     RTCSession.m_rest := "m=video 9 UDP/TLS/RTP/SAVPF 96" |}.

Definition offer_data : RTCSession.Media :=
  {| RTCSession.m_type := "application";
     RTCSession.m_direction := Some RTCSession.sendrecv;
     RTCSession.m_rest := "m=application 9 UDP/DTLS/SCTP webrtc-datachannel" |}.

Definition offer_media : list RTCSession.Media :=
  [offer_audio; offer_video; offer_data].

Definition offer_sdp : RTCSession.Sdp :=
  {| RTCSession.session_level := "v=0"; RTCSession.media := offer_media |}.

Definition session_on_hold (l r : bool) : RTCSession.t :=
  {| RTCSession.st := RTCSession.STATUS_CONFIRMED;
     RTCSession.dir := Some RTCSession.outgoing;
     RTCSession.isCanceled := false;
     RTCSession.cancelReason := None;
     RTCSession.connection := true;
     RTCSession.localMediaStream := true;
     RTCSession.dialog := Some 0%nat;
     RTCSession.earlyDialogs := [];
     RTCSession.server_transaction_terminated := true;
     RTCSession.deferredBye := None;
     RTCSession.tones := None;
     RTCSession.localHold := l;
     RTCSession.remoteHold := r |}.

(** The characters sendDTMF lets through. *)
Definition dtmf_alphabet : list ascii :=
  list_ascii_of_string "0123456789ABCDabcdRr#*,".

Definition session_with_tones (ts : option string) : RTCSession.t :=
  RTCSession.set_tones (session_on_hold false false) ts.

Definition default_dtmf_options : RTCSession.DTMFOptions :=
  {| RTCSession.duration := RTCSession.Absent;
     RTCSession.interToneGap := RTCSession.Absent |}.

Definition second_tone : RTCSession.Loop :=
  {| RTCSession.position := 1;
     RTCSession.l_duration := RTCSession.DEFAULT_DURATION;
     RTCSession.l_gap := RTCSession.DEFAULT_INTER_TONE_GAP |}.

Definition terminated_rtcsession : RTCSession.t :=
  RTCSession.set_status (session_on_hold false false)
    RTCSession.STATUS_TERMINATED.

Definition terminated_session : Session.t :=
  {| Session.st := Session.STATUS_TERMINATED;
     Session.dir := Some Session.outgoing;
     Session.received_100 := true;
     Session.isCanceled := false;
     Session.cancelReason := None;
     Session.mediaSession := false |}.

Definition no_rtc_options : RTCSession.Options :=
  {| RTCSession.cause := None; RTCSession.status_code := None;
     RTCSession.reason_phrase := None; RTCSession.extraHeaders := [];
     RTCSession.body := None |}.

Definition no_session_options : Session.Options :=
  {| Session.status_code := None; Session.reason_phrase := None;
     Session.extraHeaders := []; Session.body := None |}.

Definition uri_bob : URI.t :=
  {| URI.scheme := Some "sip"; URI.user := Some "bob";
     URI.host := "biloxi.com"; URI.port := None;
     URI.parameters := []; URI.headers := [] |}.

Definition name_addr (u : URI.t) (params : list (string * option string))
  : NameAddrHeader.t :=
  fold_left (fun h kv => NameAddrHeader.setParam (fst kv) (snd kv) h) params
    {| NameAddrHeader.uri := u; NameAddrHeader.display_name := None;
       NameAddrHeader.parameters := [] |}.

(** The second contact of the parser test: [sip:bob@biloxi.COM;headerParam]
    parsed, a header parameter and no display name. *)
Definition contact_c2 : NameAddrHeader.t :=
  name_addr uri_bob [("headerParam", None)].

(** Two headers without display name, each with header parameters: in the
    first [headerparam] belongs to the header, in the second to the URI. *)
Definition header_param_in_header : NameAddrHeader.t :=
  name_addr uri_bob [("headerparam", None); ("x", Some "1")].

Definition header_param_in_uri : NameAddrHeader.t :=
  name_addr (URI.setParam "headerparam" None uri_bob) [("x", Some "1")].

Definition closed_message : Message.t :=
  fst (Message.receiveResponse (fst (Message.send Message.constructor))
         {| Message.status_code := 200 |}).

(* ================================================================== *)
(** * Further sample values *)
(* ================================================================== *)

(** Four servers: a light one, the heaviest in Error, and two of the same
    weight of which one is disconnected. *)
Definition ua_four_servers : UA.t :=
  {| UA.status := UA_C.STATUS_READY;
     UA.error := None;
     UA.transportRecoverAttempts := 0;
     UA.configuration :=
       {| UA.ws_servers :=
            [ {| UA.ws_uri := "ws://a.example.com"; UA.weight := 1;
                 UA.ws_status := UA.WS_SERVER_READY |};
              {| UA.ws_uri := "ws://b.example.com"; UA.weight := 3;
                 UA.ws_status := UA.WS_SERVER_ERROR |};
              {| UA.ws_uri := "ws://c.example.com"; UA.weight := 2;
                 UA.ws_status := UA.WS_SERVER_DISCONNECTED |};
              {| UA.ws_uri := "ws://d.example.com"; UA.weight := 2;
                 UA.ws_status := UA.WS_SERVER_READY |} ];
          UA.connection_recovery_min_interval := 2;
          UA.connection_recovery_max_interval := 30;
          UA.register := true |};
     UA.transport := Some 3%nat;
     UA.registrator := true |}.

(** A 200 answer to REGISTER number [n] with the given Expires header and
    Contact headers. *)
Definition response_200 (n : Z) (expires : option Z)
    (cs : list Registrator.Contact) : Registrator.Response :=
  {| Registrator.status_code := 200;
     Registrator.resp_cseq := n;
     Registrator.expires_hdr := expires;
     Registrator.min_expires_hdr := None;
     Registrator.contacts := cs |}.

Definition contact_of (u : string) (expires : option Z)
  : Registrator.Contact :=
  {| Registrator.uri := u; Registrator.expires_param := expires;
     Registrator.temp_gruu := None; Registrator.pub_gruu := None |}.

(** An established session with one audio track and two video tracks,
    all enabled, nothing muted, not on hold, ready to re-offer. *)
Definition local_session : RTCSession.Local :=
  {| RTCSession.session := session_on_hold false false;
     RTCSession.audioMuted := false;
     RTCSession.videoMuted := false;
     RTCSession.rtcReady := true;
     RTCSession.uac_pending_reply := false;
     RTCSession.uas_pending_reply := false;
     RTCSession.audioTracks := [true];
     RTCSession.videoTracks := [true; true] |}.

Definition mute_audio : RTCSession.MuteOptions :=
  {| RTCSession.audio := true; RTCSession.video := false |}.

Definition unmute_all : RTCSession.MuteOptions :=
  {| RTCSession.audio := true; RTCSession.video := true |}.

Definition hold_by_reinvite : RTCSession.HoldOptions :=
  {| RTCSession.useUpdate := false; RTCSession.hold_extraHeaders := [] |}.

(** A registered UA for user alice with one session and one dialog. *)
Definition ua_tables : UA.Tables :=
  {| UA.user := Some "alice";
     UA.is_registered := true;
     UA.newMessage_listeners := true;
     UA.webrtc_supported := true;
     UA.retransmission := false;
     UA.sessions := [("c1f1", 0%nat)];
     UA.dialogs := [("c1t1f1", 7%nat)] |}.

Definition request_of (m : string) (to : option string)
  : UA.IncomingRequest :=
  {| UA.ruri_user := Some "alice"; UA.method := m; UA.call_id := "c1";
     UA.from_tag := "f1"; UA.to_tag := to |}.





(** A configuration that gives the two recovery intervals only. *)
Definition raw_intervals (min max : UA.Setting) : UA.RawConfiguration :=
  {| UA.mandatory_valid := true; UA.others_valid := true;
     UA.raw_register_expires := UA.NotGiven;
     UA.raw_no_answer_timeout := UA.NotGiven;
     UA.raw_connection_recovery_min_interval := min;
     UA.raw_connection_recovery_max_interval := max |}.

Definition settings_5_30 : UA.Settings :=
  {| UA.s_register_expires := 600;
     UA.s_register_min_expires := 120;
     UA.s_no_answer_timeout := 60000;
     UA.s_connection_recovery_min_interval := 5;
     UA.s_connection_recovery_max_interval := 30 |}.

(** The sender of REGISTER number 81 of a registrator with a password, and
    the 401 that challenges it. *)
Definition register_sender : RequestSender.t unit :=
  fst (RequestSender.constructor UA_C.STATUS_READY
         {| RequestSender.password := Some "secret";
            RequestSender.ha1 := None;
            RequestSender.cfg_realm := None;
            RequestSender.authorization_user := "alice" |}
         81 (fun _ => 0)
         {| RequestSender.method := "REGISTER"; RequestSender.cseq := 81;
            RequestSender.headers := []; RequestSender.dialog := None |}).

Definition register_401 : RequestSender.Response :=
  {| RequestSender.status_code := 401;
     RequestSender.resp_method := "REGISTER";
     RequestSender.www_authenticate :=
       Some {| RequestSender.realm := "example.com";
               RequestSender.nonce := "n";
               RequestSender.stale := false |};
     RequestSender.proxy_authenticate := None |}.

(** A digest object that accepts no challenge. *)
Definition rejecting_digest : RequestSender.Collaborators unit :=
  {| RequestSender.auth_new := fun _ => tt;
     RequestSender.authenticate := fun a _ _ => (false, a);
     RequestSender.auth_realm := fun _ => None;
     RequestSender.auth_ha1 := fun _ => None;
     RequestSender.auth_toString := fun _ => "Digest";
     RequestSender.cseq_toString := Z_toString;
     RequestSender.clone := fun r => r |}.

(** DTMF options asking for tones of 300 ms, 80 ms apart. *)
Definition long_dtmf_options : RTCSession.DTMFOptions :=
  {| RTCSession.duration := RTCSession.Num 300;
     RTCSession.interToneGap := RTCSession.Num 80 |}.

(** A session whose only audio track is enabled although audio is muted,
    and the options that mute video alone. *)
Definition stray_session : RTCSession.Local :=
  {| RTCSession.session := session_on_hold false false;
     RTCSession.audioMuted := true;
     RTCSession.videoMuted := false;
     RTCSession.rtcReady := true;
     RTCSession.uac_pending_reply := false;
     RTCSession.uas_pending_reply := false;
     RTCSession.audioTracks := [true];
     RTCSession.videoTracks := [true] |}.

Definition mute_video : RTCSession.MuteOptions :=
  {| RTCSession.audio := false; RTCSession.video := true |}.

(** Contact headers as parsed, with their gruu parameters. *)
Definition parsed_contact (u : string) (expires : option Z)
    (temp pub : Registrator.Param) : Registrator.ParsedContact :=
  {| Registrator.parsed_uri := u;
     Registrator.parsed_expires := expires;
     Registrator.parsed_temp_gruu := temp;
     Registrator.parsed_pub_gruu := pub |}.
(* ================================================================== *)
(** * Theorems *)
(* ================================================================== *)

(** ** RequestSender: the UserClosed guard *)

Lemma bye_or_ack_guard (m : string) :
  strict_neq m JsSIP_C.BYE || strict_neq m JsSIP_C.ACK = true.
Proof.
  unfold strict_neq, JsSIP_C.BYE, JsSIP_C.ACK.
  destruct (String.eqb_spec m "BYE") as [->|_]; reflexivity.
Qed.

(** C1.  The guard of the constructor holds for every method: when the UA
    status is UserClosed the sender signals [onTransportError] whatever the
    method of the request is, for BYE and ACK as for any other.  For any
    other UA status it signals nothing. *)
Theorem RequestSender_user_closed_rejects_every_method :
  forall (A : Type) status cfg c store (req : RequestSender.Request),
    snd (@RequestSender.constructor A status cfg c store req)
    = if UA_C.status_eqb status UA_C.STATUS_USER_CLOSED
      then [RequestSender.ApplicantOnTransportError]
      else [].
Proof.
  intros A status cfg c store req.
  unfold RequestSender.constructor.
  cbn [RequestSender.rs_method]. rewrite bye_or_ack_guard.
  destruct (UA_C.status_eqb status UA_C.STATUS_USER_CLOSED); reflexivity.
Qed.

(** A BYE built while the UA is closing is answered by a transport error. *)
Example RequestSender_user_closed_bye :
  snd (@RequestSender.constructor unit UA_C.STATUS_USER_CLOSED
         {| RequestSender.password := None; RequestSender.ha1 := None;
            RequestSender.cfg_realm := None;
            RequestSender.authorization_user := "alice" |}
         0 (fun _ => 0)
         {| RequestSender.method := "BYE"; RequestSender.cseq := 7;
            RequestSender.headers := []; RequestSender.dialog := Some 0%nat |})
  = [RequestSender.ApplicantOnTransportError].
Proof. reflexivity. Qed.

(** ** RequestSender: digest authentication retries *)

Section RequestSenderFacts.
Import RequestSender.
Context {A : Type} (X : Collaborators A).

Lemma send_retries (this : t A) : retries (send this) = 1%nat.
Proof.
  unfold send, retries.
  destruct (String.eqb (rs_method this) "INVITE"); [reflexivity|].
  destruct (String.eqb (rs_method this) "ACK"); reflexivity.
Qed.

Lemma hasHeader_setHeader (name value : string) hs :
  hasHeader name (setHeader name value hs) = true.
Proof.
  induction hs as [|[n v] tl IH]; cbn.
  - rewrite String.eqb_refl. reflexivity.
  - destruct (String.eqb n name) eqn:E; cbn.
    + rewrite String.eqb_refl. reflexivity.
    + rewrite E. exact IH.
Qed.

(** One response either goes to the applicant, the flags unchanged, or
    spends one unit of the budget on a resend. *)
Lemma receiveResponse_budget (this : t A) (r : Response) :
  (retries (snd (receiveResponse X this r))
     + budget (fst (receiveResponse X this r)) <= budget this)%nat.
Proof.
  unfold receiveResponse, budget.
  destruct ((status_code r =? 401) || (status_code r =? 407)); cbn [andb];
    [|cbn; lia].
  destruct (is_some (password (configuration this))
            || is_some (ha1 (configuration this))); [|cbn; lia].
  destruct (if status_code r =? 401
            then (www_authenticate r, "authorization")
            else (proxy_authenticate r, "proxy-authorization"))
    as [[ch|] name]; [|cbn; lia].
  destruct (challenged this) eqn:Hc, (staled this) eqn:Hs,
    (stale ch) eqn:Hst; cbn [negb orb andb];
    try (cbn; rewrite ?Hc, ?Hs; cbn; lia);
    destruct (authenticate X _ (request this) ch) as [[|] a1];
    cbn [negb]; try destruct (bump_cseq this r) as [[c ac] st];
    cbn [fst snd challenged staled]; rewrite ?send_retries;
    cbn; rewrite ?Hc, ?Hs; cbn; lia.
Qed.

Lemma retries_app (e1 e2 : list Effect) :
  retries (e1 ++ e2) = (retries e1 + retries e2)%nat.
Proof. unfold retries. rewrite filter_app, length_app. reflexivity. Qed.

Lemma receiveResponses_budget (rs : list Response) : forall this : t A,
  (retries (snd (receiveResponses X this rs))
     + budget (fst (receiveResponses X this rs)) <= budget this)%nat.
Proof.
  induction rs as [|r tl IH]; intros this; cbn [receiveResponses].
  - cbn. lia.
  - pose proof (receiveResponse_budget this r) as H1.
    destruct (receiveResponse X this r) as [this1 e1].
    pose proof (IH this1) as H2.
    destruct (receiveResponses X this1 tl) as [this2 e2].
    cbn [fst snd] in *. rewrite retries_app. lia.
Qed.

(** What one response does, by cases. *)
Lemma receiveResponse_cases (this : t A) (r : Response) :
  let res := receiveResponse X this r in
  (snd res = [ApplicantReceiveResponse r]
   /\ challenged (fst res) = challenged this
   /\ staled (fst res) = staled this)
  \/
  (exists ch,
      (status_code r = 401 /\ www_authenticate r = Some ch
       \/ status_code r = 407 /\ proxy_authenticate r = Some ch)
      /\ (challenged this = false
          \/ (staled this = false /\ stale ch = true))
      /\ snd res = send (fst res)
      /\ challenged (fst res) = true
      /\ staled (fst res) = (stale ch || staled this)
      /\ hasHeader (if status_code r =? 401 then "authorization"
                    else "proxy-authorization")
           (headers (request (fst res))) = true).
Proof.
  cbv zeta. unfold receiveResponse.
  destruct ((status_code r =? 401) || (status_code r =? 407)) eqn:Hsc;
    cbn [andb]; [|left; cbn; auto].
  destruct (is_some (password (configuration this))
            || is_some (ha1 (configuration this))); [|left; cbn; auto].
  assert (Hch : forall ch,
             (if status_code r =? 401
              then www_authenticate r else proxy_authenticate r) = Some ch ->
             status_code r = 401 /\ www_authenticate r = Some ch
             \/ status_code r = 407 /\ proxy_authenticate r = Some ch).
  { intros ch. destruct (status_code r =? 401) eqn:E1.
    - intros H. left. split; [lia|exact H].
    - intros H. right. split; [|exact H].
      apply Bool.orb_true_iff in Hsc. lia. }
  destruct (status_code r =? 401) eqn:E401.
  - destruct (www_authenticate r) as [ch|] eqn:Ew; [|left; cbn; auto].
    destruct (challenged this) eqn:Hc, (staled this) eqn:Hs,
      (stale ch) eqn:Hst; cbn [negb orb andb];
      try (left; cbn; auto; fail);
      (destruct (authenticate X _ (request this) ch) as [[|] a1];
       cbn [negb];
       [ destruct (bump_cseq this r) as [[c ac] st];
         right; exists ch; cbn [fst snd challenged staled request headers];
         rewrite hasHeader_setHeader, ?Hst;
         repeat split; auto
       | left; cbn; auto ]).
  - destruct (proxy_authenticate r) as [ch|] eqn:Ew; [|left; cbn; auto].
    destruct (challenged this) eqn:Hc, (staled this) eqn:Hs,
      (stale ch) eqn:Hst; cbn [negb orb andb];
      try (left; cbn; auto; fail);
      (destruct (authenticate X _ (request this) ch) as [[|] a1];
       cbn [negb];
       [ destruct (bump_cseq this r) as [[c ac] st];
         right; exists ch; cbn [fst snd challenged staled request headers];
         rewrite hasHeader_setHeader, ?Hst;
         repeat split; auto
       | left; cbn; auto ]).
Qed.

End RequestSenderFacts.

(** C3 (amended).  With credentials configured, a response is answered by
    a resend exactly when it is a 401 or 407 carrying a challenge, no
    challenge was accepted before or this one is stale and no stale one was
    accepted before, and the digest object accepts the challenge.  The
    resend is the cloned request with the next CSeq and the Authorization
    (401) or Proxy-Authorization (407) header.  Every other response, a 401
    or 407 included (no challenge, flags used up, or challenge rejected by
    the digest object), goes to the applicant and leaves request and flags
    as they were.  So whatever the responses, a sender resends at most
    twice. *)
Theorem digest_at_most_two_retries :
  forall (A : Type) (X : RequestSender.Collaborators A)
         (this : RequestSender.t A) (r : RequestSender.Response),
    RequestSender.is_some
      (RequestSender.password (RequestSender.configuration this))
    || RequestSender.is_some
         (RequestSender.ha1 (RequestSender.configuration this)) = true ->
    let res := RequestSender.receiveResponse X this r in
    let challenge :=
      if RequestSender.status_code r =? 401
      then RequestSender.www_authenticate r
      else RequestSender.proxy_authenticate r in
    let digest :=
      match RequestSender.auth this with
      | Some a => a
      | None => RequestSender.auth_new X (RequestSender.configuration this)
      end in
    let resent :=
      ((RequestSender.status_code r =? 401)
       || (RequestSender.status_code r =? 407))
      && match challenge with
         | Some ch =>
             (negb (RequestSender.challenged this)
              || (negb (RequestSender.staled this) && RequestSender.stale ch))
             && fst (RequestSender.authenticate X digest
                       (RequestSender.request this) ch)
         | None => false
         end in
    (if resent
     then snd res = RequestSender.send (fst res)
          /\ RequestSender.retries (snd res) = 1%nat
          /\ RequestSender.forwarded (snd res) = []
          /\ RequestSender.challenged (fst res) = true
          /\ (forall ch, challenge = Some ch ->
                RequestSender.staled (fst res)
                = (RequestSender.stale ch || RequestSender.staled this))
          /\ RequestSender.cseq (RequestSender.request (fst res))
             = fst (fst (RequestSender.bump_cseq this r))
          /\ RequestSender.method (RequestSender.request (fst res))
             = RequestSender.method
                 (RequestSender.clone X (RequestSender.request this))
          /\ RequestSender.hasHeader
               (if RequestSender.status_code r =? 401 then "authorization"
                else "proxy-authorization")
               (RequestSender.headers (RequestSender.request (fst res)))
             = true
     else snd res = [RequestSender.ApplicantReceiveResponse r]
          /\ RequestSender.request (fst res) = RequestSender.request this
          /\ RequestSender.challenged (fst res)
             = RequestSender.challenged this
          /\ RequestSender.staled (fst res) = RequestSender.staled this)
    /\
    (forall status cfg c store req responses,
        (RequestSender.retries
           (snd (RequestSender.receiveResponses X
                   (fst (RequestSender.constructor status cfg c store req))
                   responses)) <= 2)%nat).
Proof.
  intros A X this r Hcred. cbv zeta. split.
  - unfold RequestSender.receiveResponse. rewrite Hcred.
    destruct ((RequestSender.status_code r =? 401)
              || (RequestSender.status_code r =? 407));
      cbn [andb]; [|repeat split; reflexivity].
    destruct (RequestSender.status_code r =? 401);
      match goal with
      | |- context [match ?c with Some _ => _ | None => false end] =>
          destruct c as [ch|]; [|repeat split; reflexivity]
      end;
      (destruct (negb (RequestSender.challenged this)
                 || (negb (RequestSender.staled this)
                     && RequestSender.stale ch));
       cbn [andb]; [|repeat split; reflexivity];
       destruct (RequestSender.authenticate X _ (RequestSender.request this)
                   ch) as [[|] a1];
       cbn [fst negb]; [|repeat split; reflexivity];
       destruct (RequestSender.bump_cseq this r) as [[c ac] st];
       cbn [fst snd RequestSender.challenged RequestSender.staled
            RequestSender.request RequestSender.cseq RequestSender.method
            RequestSender.headers];
       rewrite send_retries, hasHeader_setHeader;
       refine (conj eq_refl (conj eq_refl (conj _ (conj eq_refl (conj _
                (conj eq_refl (conj eq_refl eq_refl)))))));
       [ unfold RequestSender.send; cbn [RequestSender.rs_method];
         destruct (String.eqb _ "INVITE"); [reflexivity|];
         destruct (String.eqb _ "ACK"); reflexivity
       | intros ch0 Hch0; injection Hch0 as <-;
         destruct (RequestSender.stale ch); reflexivity ]).
  - intros status cfg c store req responses.
    pose proof (receiveResponses_budget X responses
                  (fst (RequestSender.constructor status cfg c store req)))
      as H.
    assert (Hb : RequestSender.budget
                   (fst (@RequestSender.constructor A status cfg c store req))
                 = 2%nat).
    { unfold RequestSender.constructor.
      destruct (UA_C.status_eqb status UA_C.STATUS_USER_CLOSED
                && (strict_neq _ JsSIP_C.BYE || strict_neq _ JsSIP_C.ACK));
        reflexivity. }
    rewrite Hb in H. lia.
Qed.

(** The theorem at a sender that has a password: a first 401 is resent, a
    401 whose challenge the digest object rejects goes to the applicant,
    and three stale challenges in a row give two resends. *)
Lemma digest_at_most_two_retries_witness :
  RequestSender.retries
    (snd (RequestSender.receiveResponse accepting_digest options_sender
            (challenge_401 false))) = 1%nat
  /\ snd (RequestSender.receiveResponse rejecting_digest options_sender
            (challenge_401 false))
     = [RequestSender.ApplicantReceiveResponse (challenge_401 false)]
  /\ (RequestSender.retries
        (snd (RequestSender.receiveResponses accepting_digest options_sender
                [challenge_401 true; challenge_401 true;
                 challenge_401 true])) <= 2)%nat.
Proof.
  destruct (digest_at_most_two_retries unit accepting_digest options_sender
              (challenge_401 false) eq_refl) as (H1 & H2).
  destruct (digest_at_most_two_retries unit rejecting_digest options_sender
              (challenge_401 false) eq_refl) as (H3 & _).
  refine (conj (proj1 (proj2 H1)) (conj (proj1 H3) _)).
  exact (H2 UA_C.STATUS_READY
           {| RequestSender.password := Some "secret";
              RequestSender.ha1 := None;
              RequestSender.cfg_realm := None;
              RequestSender.authorization_user := "alice" |}
           0 (fun _ => 0)
           {| RequestSender.method := "OPTIONS"; RequestSender.cseq := 1;
              RequestSender.headers := []; RequestSender.dialog := None |}
           [challenge_401 true; challenge_401 true; challenge_401 true]).
Defined.

(** C3, counterexample.  A first 401 that is not stale followed by a 401
    with stale=true: the request is resent twice and the second 401 never
    reaches the applicant. *)
Lemma digest_second_stale_challenge_is_retried :
  let es := snd (RequestSender.receiveResponses accepting_digest options_sender
                   [challenge_401 false; challenge_401 true]) in
  RequestSender.retries es = 2%nat
  /\ ~ In (RequestSender.ApplicantReceiveResponse (challenge_401 true)) es.
Proof.
  cbv zeta. split.
  - vm_compute. reflexivity.
  - vm_compute. intros [H|[H|[]]]; discriminate H.
Qed.

(** ** Registrator: 423 Interval Too Brief *)

(** On a 423 with Min-Expires the requested expiry is left as it was and a
    timer re-sends the REGISTER after [expires] seconds. *)
Lemma register_423_with_min_expires (this : Registrator.t)
    (r : Registrator.Response) (m : Z) :
  Registrator.resp_cseq r = Registrator.cseq this ->
  Registrator.status_code r = 423 ->
  Registrator.min_expires_hdr r = Some m ->
  Registrator.register_receiveResponse this r
  = (Registrator.set_timer this (Registrator.expires this * 1000),
     [Registrator.SetTimeoutRegister (Registrator.expires this * 1000)]).
Proof.
  intros Hc Hs Hm. unfold Registrator.register_receiveResponse.
  rewrite Hc, Z.eqb_refl, Hs, Hm. reflexivity.
Qed.

(** On a 423 without Min-Expires the failure is reported and nothing is
    sent nor scheduled. *)
Lemma register_423_without_min_expires (this : Registrator.t)
    (r : Registrator.Response) :
  Registrator.resp_cseq r = Registrator.cseq this ->
  Registrator.status_code r = 423 ->
  Registrator.min_expires_hdr r = None ->
  In (Registrator.EmitRegistrationFailed (Some r) Registrator.SIP_FAILURE_CODE)
     (snd (Registrator.register_receiveResponse this r))
  /\ forall e, In e (snd (Registrator.register_receiveResponse this r)) ->
               match e with
               | Registrator.SendRegister _ _
               | Registrator.SetTimeoutRegister _ => False
               | _ => True
               end.
Proof.
  intros Hc Hs Hm. unfold Registrator.register_receiveResponse.
  rewrite Hc, Z.eqb_refl, Hs, Hm. cbn [negb Registrator.is_1xx
    Registrator.is_2xx Z.leb Z.compare Pos.compare Pos.compare_cont andb
    Z.eqb Pos.eqb].
  unfold Registrator.registrationFailure.
  destruct (Registrator.registered this); cbn [snd In]; split; auto;
    intros e [<-|[<-|[<-|[]]]] || intros e [<-|[<-|[]]]; exact I.
Qed.

(** C2.  After a 423 carrying [Min-Expires: 3600] the registrator still
    asks for 600 seconds: the only effect is a timer of 600 s, and the
    REGISTER it sends when the timer fires carries [expires=600] again.
    Without Min-Expires the failure is reported and nothing else happens. *)
Theorem Registrator_423_keeps_requested_expires :
  let res := Registrator.receiveResponse registrator_600
               (response_423 (Some 3600)) in
  Registrator.expires (fst res) = 600
  /\ snd res = [Registrator.SetTimeoutRegister 600000]
  /\ snd (Registrator.onRegistrationTimer (fst res))
     = [Registrator.SendRegister 82 (Registrator.ContactExpires 600)]
  /\ snd (Registrator.receiveResponse registrator_600 (response_423 None))
     = [Registrator.Log "423 response code received to a REGISTER without min-expires. Unregister";
        Registrator.EmitRegistrationFailed (Some (response_423 None))
          Registrator.SIP_FAILURE_CODE].
Proof. cbv zeta. repeat split; vm_compute; reflexivity. Qed.

(** ** Session.RequestSender: 491 Request Pending *)

Lemma Qfloor_between (x : Q) (lo hi : Z) :
  (inject_Z lo <= x)%Q -> (x < inject_Z (hi + 1))%Q ->
  (lo <= Qfloor x <= hi)%Z.
Proof.
  intros Hlo Hhi. split.
  - rewrite <- (Qfloor_Z lo). apply Qfloor_resp_le. exact Hlo.
  - pose proof (Qfloor_le x) as H.
    assert (Hlt : (inject_Z (Qfloor x) < inject_Z (hi + 1))%Q)
      by (eapply Qle_lt_trans; eassumption).
    rewrite <- Zlt_Qlt in Hlt. lia.
Qed.

(** The value handed to [setTimeout] lies between 2.1 and 4 for an
    outgoing session and between 0 and 2 for an incoming one, whatever
    [Math.random()] returns. *)
Lemma getReattemptTimeout_range (random : Q)
    (this : Session.RequestSender.t) :
  (0 <= random)%Q -> (random < 1)%Q ->
  match Session.RequestSender.session_direction this with
  | Some Session.outgoing =>
      (21 # 10 <= Session.RequestSender.getReattemptTimeout random this)%Q
      /\ (Session.RequestSender.getReattemptTimeout random this <= 4)%Q
  | _ =>
      (0 <= Session.RequestSender.getReattemptTimeout random this)%Q
      /\ (Session.RequestSender.getReattemptTimeout random this <= 2)%Q
  end.
Proof.
  intros H0 H1. unfold Session.RequestSender.getReattemptTimeout,
    Session.RequestSender.toFixed2.
  destruct (Session.RequestSender.session_direction this) as [[|]|].
  - destruct (Qfloor_between
                ((random * (4 - (21 # 10)) + (21 # 10)) * 100 + (1 # 2))
                210 400) as [Ha Hb].
    + change (inject_Z 210) with (210 # 1). lra.
    + change (inject_Z (400 + 1)) with (401 # 1). lra.
    + unfold Qle; cbn [Qnum Qden]; split; lia.
  - destruct (Qfloor_between (random * 2 * 100 + (1 # 2)) 0 200) as [Ha Hb].
    + change (inject_Z 0) with (0 # 1). lra.
    + change (inject_Z (200 + 1)) with (201 # 1). lra.
    + unfold Qle; cbn [Qnum Qden]; split; lia.
  - destruct (Qfloor_between (random * 2 * 100 + (1 # 2)) 0 200) as [Ha Hb].
    + change (inject_Z 0) with (0 # 1). lra.
    + change (inject_Z (200 + 1)) with (201 # 1). lra.
    + unfold Qle; cbn [Qnum Qden]; split; lia.
Qed.

(** C4.  With [Math.random()] at 1/2 an outgoing session answers a 491 by
    one timer whose delay argument is 3.05, which [setTimeout] reads as
    milliseconds: the retry, with CSeq 11, comes after 0.00305 s and not
    after 2.1 to 4 s.  A later 491 goes to the applicant. *)
Theorem reinvite_491_retry_delay_is_milliseconds :
  let res := Session.RequestSender.receiveResponse (1 # 2)
               (reinvite_sender Session.outgoing) response_491 in
  let fired := Session.RequestSender.onReattemptTimer (fst res) in
  snd res = [Session.RequestSender.SetTimeout (305 # 100)]
  /\ Session.RequestSender.request_cseq (fst res) = 11%Z
  /\ (Session.RequestSender.delay_in_seconds (305 # 100) == 305 # 100000)%Q
  /\ (Session.RequestSender.delay_in_seconds (305 # 100) < 21 # 10)%Q
  /\ snd fired = [Session.RequestSender.InDialogSend 11]
  /\ snd (Session.RequestSender.receiveResponse (1 # 2) (fst fired)
            response_491)
     = [Session.RequestSender.ApplicantReceiveResponse response_491].
Proof. cbv zeta. repeat split; vm_compute; reflexivity. Qed.

(** ** UA: transport recovery *)


(** When the failed server leaves no candidate, onTransportError closes the
    sessions and runs the recovery procedure. *)
Lemma onTransportError_no_candidate (rn rs rk : Q) (ua : UA.t) (i : nat) :
  UA.getNextWsServer rn
    (UA.set_servers ua
       (UA.mark_server (UA.ws_servers (UA.configuration ua)) i
                       UA.WS_SERVER_ERROR)) = None ->
  exists ua',
    snd (UA.onTransportError rn rs rk ua i)
    = [UA.EmitDisconnected; UA.CloseSessionsOnTransportError]
        ++ snd (UA.recoverTransport rs rk ua')
    /\ UA.transportRecoverAttempts ua' = UA.transportRecoverAttempts ua
    /\ UA.connection_recovery_min_interval (UA.configuration ua')
       = UA.connection_recovery_min_interval (UA.configuration ua)
    /\ UA.connection_recovery_max_interval (UA.configuration ua')
       = UA.connection_recovery_max_interval (UA.configuration ua).
Proof.
  intros H. unfold UA.onTransportError. rewrite H.
  match goal with
  | |- context [UA.recoverTransport rs rk ?u] => exists u
  end.
  destruct (UA.recoverTransport rs rk _) as [ua3 es] eqn:E.
  split; [reflexivity|].
  destruct (UA.error _) as [[|]|]; repeat split; reflexivity.
Qed.




(** ** RTCSession: hold and the directions of an offer *)

Lemma mangleMedia_other_type (l r : bool) (m : RTCSession.Media) :
  RTCSession.not_hold_type (RTCSession.m_type m) = true ->
  RTCSession.mangleMedia l r m = m.
Proof.
  intros H. unfold RTCSession.mangleMedia. rewrite H.
  destruct l, r; reflexivity.
Qed.

(** C6 (amended).  mangleOffer returns the offer unchanged when neither side
    holds and otherwise rewrites the parsed offer section by section.
    Sections other than audio and video are left as they are.  For an
    audio or video section: under local-only hold sendrecv, or no
    direction, becomes sendonly and recvonly becomes inactive; under
    remote-only hold sendrecv, or no direction, becomes recvonly; when both
    sides hold the direction becomes inactive. *)
Theorem mangleOffer_directions :
  forall (parse : string -> RTCSession.Sdp) (write : RTCSession.Sdp -> string)
         (this : RTCSession.t) (sdp : string) (m : RTCSession.Media),
    In m (RTCSession.media (parse sdp)) ->
    let l := RTCSession.localHold this in
    let r := RTCSession.remoteHold this in
    let m' := RTCSession.mangleMedia l r m in
    (l = false -> r = false ->
     RTCSession.mangleOffer parse write this sdp = sdp)
    /\ (l || r = true ->
        RTCSession.mangleOffer parse write this sdp
        = write {| RTCSession.session_level :=
                     RTCSession.session_level (parse sdp);
                   RTCSession.media :=
                     map (RTCSession.mangleMedia l r)
                         (RTCSession.media (parse sdp)) |})
    /\ In m' (map (RTCSession.mangleMedia l r)
                  (RTCSession.media (parse sdp)))
    /\ RTCSession.m_type m' = RTCSession.m_type m
    /\ RTCSession.m_rest m' = RTCSession.m_rest m
    /\ (RTCSession.m_type m <> "audio" -> RTCSession.m_type m <> "video" ->
        m' = m)
    /\ (RTCSession.m_type m = "audio" \/ RTCSession.m_type m = "video" ->
        (l = true -> r = false ->
         (RTCSession.m_direction m = Some RTCSession.sendrecv
          \/ RTCSession.m_direction m = None ->
          RTCSession.m_direction m' = Some RTCSession.sendonly)
         /\ (RTCSession.m_direction m = Some RTCSession.recvonly ->
             RTCSession.m_direction m' = Some RTCSession.inactive))
        /\ (l = false -> r = true ->
            RTCSession.m_direction m = Some RTCSession.sendrecv
            \/ RTCSession.m_direction m = None ->
            RTCSession.m_direction m' = Some RTCSession.recvonly)
        /\ (l = true -> r = true ->
            RTCSession.m_direction m' = Some RTCSession.inactive)).
Proof.
  intros parse write this sdp m Hin. cbv zeta.
  set (l := RTCSession.localHold this).
  set (r := RTCSession.remoteHold this).
  assert (Hty : forall m0, RTCSession.not_hold_type (RTCSession.m_type m0)
                           = false <->
                           (RTCSession.m_type m0 = "audio"
                            \/ RTCSession.m_type m0 = "video")).
  { intros m0. unfold RTCSession.not_hold_type, RTCSession.holdMediaTypes.
    cbn [existsb].
    destruct (String.eqb_spec (RTCSession.m_type m0) "audio") as [E|E];
      destruct (String.eqb_spec (RTCSession.m_type m0) "video") as [E'|E'];
      cbn; split; auto; intros H; try discriminate; destruct H; contradiction. }
  refine (conj _ (conj _ (conj _ (conj _ (conj _ (conj _ _)))))).
  - intros Hl Hr. unfold RTCSession.mangleOffer. fold l r.
    rewrite Hl, Hr. reflexivity.
  - intros H. unfold RTCSession.mangleOffer, RTCSession.mangleSdp. fold l r.
    destruct l, r; try discriminate H; reflexivity.
  - apply in_map. exact Hin.
  - unfold RTCSession.mangleMedia.
    destruct l, r, (RTCSession.not_hold_type (RTCSession.m_type m)),
      (RTCSession.m_direction m) as [[]|]; reflexivity.
  - unfold RTCSession.mangleMedia.
    destruct l, r, (RTCSession.not_hold_type (RTCSession.m_type m)),
      (RTCSession.m_direction m) as [[]|]; reflexivity.
  - intros Ha Hv. apply mangleMedia_other_type.
    destruct (RTCSession.not_hold_type (RTCSession.m_type m)) eqn:E;
      [reflexivity|]. apply Hty in E. destruct E; contradiction.
  - intros H. apply Hty in H.
    refine (conj _ (conj _ _)).
    + intros Hl Hr. split.
      * intros [Hd|Hd]; unfold RTCSession.mangleMedia;
          rewrite Hl, Hr, H, Hd; reflexivity.
      * intros Hd. unfold RTCSession.mangleMedia.
        rewrite Hl, Hr, H, Hd. reflexivity.
    + intros Hl Hr [Hd|Hd]; unfold RTCSession.mangleMedia;
        rewrite Hl, Hr, H, Hd; reflexivity.
    + intros Hl Hr. unfold RTCSession.mangleMedia.
      rewrite Hl, Hr, H. reflexivity.
Qed.

(** The theorem at the audio section of the sample offer, local hold. *)
Lemma mangleOffer_directions_witness :
  In offer_audio (RTCSession.media offer_sdp)
  /\ RTCSession.m_direction (RTCSession.mangleMedia true false offer_audio)
     = Some RTCSession.sendonly.
Proof.
  split; [left; reflexivity|].
  pose proof (mangleOffer_directions (fun _ => offer_sdp)
                RTCSession.session_level (session_on_hold true false) "v=0"
                offer_audio (or_introl eq_refl)) as H.
  cbv zeta in H.
  destruct H as (_ & _ & _ & _ & _ & _ & H).
  destruct (H (or_introl eq_refl)) as [H1 _].
  destruct (H1 eq_refl eq_refl) as [H2 _].
  apply H2. left. reflexivity.
Defined.

(** C6, counterexample.  With both sides on hold the data-channel section
    of the offer keeps its direction sendrecv. *)
Lemma mangleOffer_both_hold_keeps_other_media :
  let mangled := RTCSession.mangleSdp true true offer_sdp in
  map RTCSession.m_direction (RTCSession.media mangled)
  = [Some RTCSession.inactive; Some RTCSession.inactive;
     Some RTCSession.sendrecv]
  /\ ~ (forall m, In m (RTCSession.media mangled) ->
                  RTCSession.m_direction m = Some RTCSession.inactive).
Proof.
  cbv zeta. split; [reflexivity|].
  intros H.
  specialize (H offer_data). cbn in H.
  discriminate H. right. right. left. reflexivity.
Qed.

(** Under remote-only hold an audio section offered sendonly stays
    sendonly, and one offered recvonly becomes inactive. *)
Example mangleMedia_remote_hold_sendonly :
  map (fun d => RTCSession.m_direction
                  (RTCSession.mangleMedia false true
                     {| RTCSession.m_type := "audio";
                        RTCSession.m_direction := Some d;
                        RTCSession.m_rest := "" |}))
      [RTCSession.sendrecv; RTCSession.sendonly; RTCSession.recvonly;
       RTCSession.inactive]
  = [Some RTCSession.recvonly; Some RTCSession.sendonly;
     Some RTCSession.inactive; Some RTCSession.inactive].
Proof. reflexivity. Qed.

(** ** RTCSession: DTMF tones *)

Lemma tone_char_existsb (c : ascii) :
  RTCSession.tone_char c = existsb (Ascii.eqb c) dtmf_alphabet.
Proof.
  destruct c as [b0 b1 b2 b3 b4 b5 b6 b7].
  destruct b0, b1, b2, b3, b4, b5, b6, b7; vm_compute; reflexivity.
Qed.

Lemma tone_char_alphabet (c : ascii) :
  RTCSession.tone_char c = true <-> In c dtmf_alphabet.
Proof.
  rewrite tone_char_existsb, existsb_exists. split.
  - intros [x [Hin Heq]]. apply Ascii.eqb_eq in Heq. subst. exact Hin.
  - intros H. exists c. split; [exact H|apply Ascii.eqb_refl].
Qed.

Lemma all_chars_forall (p : ascii -> bool) (s : string) :
  RTCSession.all_chars p s = true
  <-> forall c, In c (list_ascii_of_string s) -> p c = true.
Proof.
  induction s as [|a s IH]; cbn.
  - split; [intros _ c []|reflexivity].
  - rewrite Bool.andb_true_iff, IH. split.
    + intros [Ha Hs] c [<-|Hc]; auto.
    + intros H. split; [apply H; left; reflexivity|].
      intros c Hc. apply H. right. exact Hc.
Qed.

Lemma tones_match_alphabet (s : string) :
  RTCSession.tones_match s = true
  <-> s <> "" /\ forall c, In c (list_ascii_of_string s) -> In c dtmf_alphabet.
Proof.
  unfold RTCSession.tones_match.
  rewrite Bool.andb_true_iff, Bool.negb_true_iff, all_chars_forall.
  split; intros [H1 H2]; split.
  - intros ->. cbn in H1. discriminate H1.
  - intros c Hc. apply tone_char_alphabet, H2, Hc.
  - destruct (String.eqb_spec s ""); [contradiction|reflexivity].
  - intros c Hc. apply tone_char_alphabet, H2, Hc.
Qed.

Lemma string_get_length (ts : string) : forall p c,
  RTCSession.string_get p ts = Some c ->
  ts <> "" /\ (String.length ts <=? p)%nat = false.
Proof.
  induction ts as [|a ts IH]; intros p c H; [destruct p; discriminate H|].
  split; [discriminate|].
  destruct p as [|p]; [reflexivity|].
  cbn in H. destruct (IH _ _ H) as [_ Hl]. exact Hl.
Qed.

(** C7 (amended).  In a session that is Confirmed or waiting for the ACK,
    with or without tones queued, sendDTMF throws the TypeError for invalid
    tones exactly when the string is empty or holds a character outside
    [0-9A-Da-dRr#*,].  In such a session, whenever the tone at the current
    position of the queue is the comma, the step sends no INFO and arms the
    next step 2000 ms later. *)
Theorem sendDTMF_alphabet_and_pause :
  forall (this : RTCSession.t) (s : string) (o : RTCSession.DTMFOptions),
    RTCSession.st this = RTCSession.STATUS_CONFIRMED
    \/ RTCSession.st this = RTCSession.STATUS_WAITING_FOR_ACK ->
    (snd (RTCSession.sendDTMF this (RTCSession.TonesString s) o)
     = Some (TypeError "Invalid tones")
     <-> ~ (s <> ""
            /\ forall c, In c (list_ascii_of_string s) -> In c dtmf_alphabet))
    /\ (forall (l : RTCSession.Loop) (ts : string),
           RTCSession.tones this = Some ts ->
           RTCSession.string_get (RTCSession.position l) ts = Some ","%char ->
           RTCSession._sendDTMF this l
           = (this,
              Some {| RTCSession.position := S (RTCSession.position l);
                      RTCSession.l_duration := RTCSession.l_duration l;
                      RTCSession.l_gap := RTCSession.l_gap l |},
              [RTCSession.SetTimeoutSendDTMF 2000])).
Proof.
  intros this s o Hst. split.
  - rewrite <- tones_match_alphabet.
    assert (Hbody :
      forall d g,
        snd (if RTCSession.tones_queued this
             then (RTCSession.set_tones this
                     match RTCSession.tones this with
                     | Some q => Some (q ++ s)%string
                     | None => Some s
                     end, None, [], None)
             else let '(this1, l0, es) :=
                    RTCSession._sendDTMF
                      (RTCSession.set_tones this (Some s))
                      {| RTCSession.position := 0;
                         RTCSession.l_duration := d;
                         RTCSession.l_gap := g |} in
                  (this1, l0, es, None))
        <> Some (TypeError "Invalid tones")).
    { intros d g. destruct (RTCSession.tones_queued this); [discriminate|].
      destruct (RTCSession._sendDTMF _ _) as [[? ?] ?]. discriminate. }
    unfold RTCSession.sendDTMF, RTCSession.check_tones.
    destruct Hst as [-> | ->];
      (destruct (RTCSession.tones_match s);
       [ split; [|intros H; exfalso; apply H; reflexivity];
         destruct (RTCSession.check_duration _); [|discriminate];
         destruct (RTCSession.check_interToneGap _); [|discriminate];
         intros H; exfalso; exact (Hbody _ _ H)
       | split; [discriminate|reflexivity] ]).
  - intros l ts Hts Hget.
    destruct (string_get_length _ _ _ Hget) as [Hne Hlen].
    unfold RTCSession._sendDTMF. rewrite Hts, Hget, Hlen.
    assert (Hterm : RTCSession.is_terminated (RTCSession.st this) = false)
      by (destruct Hst as [-> | ->]; reflexivity).
    rewrite Hterm.
    destruct (String.eqb_spec ts ""); [contradiction|]. reflexivity.
Qed.

(** The theorem at a session without a queue, where the string [1x] is
    refused, and at the queue [1,2] when the comma is next. *)
Lemma sendDTMF_alphabet_and_pause_witness :
  snd (RTCSession.sendDTMF (session_with_tones None)
         (RTCSession.TonesString "1x") default_dtmf_options)
  = Some (TypeError "Invalid tones")
  /\ RTCSession._sendDTMF (session_with_tones (Some "1,2")) second_tone
     = (session_with_tones (Some "1,2"),
        Some {| RTCSession.position := 2;
                RTCSession.l_duration := RTCSession.DEFAULT_DURATION;
                RTCSession.l_gap := RTCSession.DEFAULT_INTER_TONE_GAP |},
        [RTCSession.SetTimeoutSendDTMF 2000]).
Proof.
  split.
  - apply (proj1 (sendDTMF_alphabet_and_pause (session_with_tones None) "1x"
                    default_dtmf_options (or_introl eq_refl))).
    intros [_ H]. specialize (H "x"%char (or_intror (or_introl eq_refl))).
    vm_compute in H.
    repeat (destruct H as [H|H]; [discriminate H|]). exact H.
  - exact (proj2 (sendDTMF_alphabet_and_pause
                    (session_with_tones (Some "1,2")) "1#"
                    default_dtmf_options (or_introl eq_refl))
             second_tone "1,2" eq_refl eq_refl).
Defined.

(** C7, counterexample.  The tone string "Rb" is accepted although R and b
    lie outside [0-9A-D#*,]: no exception, and an INFO for R is sent.  The
    tone string "," yields a single timer of 2000 ms, not 200 ms. *)
Lemma sendDTMF_accepts_R_and_pauses_2000 :
  RTCSession.sendDTMF (session_with_tones None)
    (RTCSession.TonesString "Rb") default_dtmf_options
  = (session_with_tones (Some "Rb"),
     Some {| RTCSession.position := 1;
             RTCSession.l_duration := 100; RTCSession.l_gap := 500 |},
     [RTCSession.DTMFSend "R" 100; RTCSession.SetTimeoutSendDTMF 600],
     None)
  /\ snd (fst (RTCSession.sendDTMF (session_with_tones None)
                 (RTCSession.TonesString ",") default_dtmf_options))
     = [RTCSession.SetTimeoutSendDTMF 2000]
  /\ RTCSession.SetTimeoutSendDTMF 2000 <> RTCSession.SetTimeoutSendDTMF 200.
Proof.
  split; [vm_compute; reflexivity|].
  split; [vm_compute; reflexivity|]. discriminate.
Qed.

(** ** Sessions: terminate on a terminated session *)

(** C8 (amended).  terminate() on a session whose status is Terminated
    throws InvalidStateError; it changes no state and sends nothing.  This
    holds for RTCSession and for the Session of UA.js. *)
Theorem terminate_on_terminated_throws :
  forall (rtc : RTCSession.t) (o : RTCSession.Options)
         (session : Session.t) (o' : Session.Options),
    RTCSession.st rtc = RTCSession.STATUS_TERMINATED ->
    Session.st session = Session.STATUS_TERMINATED ->
    RTCSession.terminate rtc o = (rtc, [], Some InvalidStateError)
    /\ Session.terminate session o' = (session, [], Some InvalidStateError).
Proof.
  intros rtc o session o' H1 H2.
  unfold RTCSession.terminate, Session.terminate.
  rewrite H1, H2. split; reflexivity.
Qed.

(** The theorem at two terminated sessions and empty options. *)
Lemma terminate_on_terminated_throws_witness :
  RTCSession.terminate terminated_rtcsession no_rtc_options
  = (terminated_rtcsession, [], Some InvalidStateError)
  /\ Session.terminate terminated_session no_session_options
     = (terminated_session, [], Some InvalidStateError).
Proof.
  apply (terminate_on_terminated_throws terminated_rtcsession no_rtc_options
           terminated_session no_session_options); reflexivity.
Defined.

(** C8, counterexample.  terminate() on a terminated session does raise an
    error, in both implementations. *)
Lemma terminate_on_terminated_raises :
  snd (RTCSession.terminate terminated_rtcsession no_rtc_options) <> None
  /\ snd (Session.terminate terminated_session no_session_options) <> None.
Proof. split; vm_compute; discriminate. Qed.

(** ** NameAddrHeader: printing without a display name *)

Lemma Some_inj {T : Type} (a b : T) : Some a = Some b -> a = b.
Proof. intros H. injection H as H. exact H. Qed.

(** C9.  Without a display name toString prints the URI with no angle
    brackets, so header parameters read as URI parameters: the contact
    of the parser test prints as [sip:bob@biloxi.com;headerparam] where the
    test expects [<sip:bob@biloxi.com>;headerparam], two different headers
    print alike, and no parser can give both of them back. *)
Theorem NameAddrHeader_toString_without_display_name :
  NameAddrHeader.toString contact_c2 = "sip:bob@biloxi.com;headerparam"
  /\ NameAddrHeader.toString contact_c2 <> "<sip:bob@biloxi.com>;headerparam"
  /\ NameAddrHeader.toString header_param_in_header
     = NameAddrHeader.toString header_param_in_uri
  /\ NameAddrHeader.uri header_param_in_header
     <> NameAddrHeader.uri header_param_in_uri
  /\ NameAddrHeader.parameters header_param_in_header
     <> NameAddrHeader.parameters header_param_in_uri
  /\ forall parse : string -> option NameAddrHeader.t,
      ~ (parse (NameAddrHeader.toString header_param_in_header)
         = Some header_param_in_header
         /\ parse (NameAddrHeader.toString header_param_in_uri)
            = Some header_param_in_uri).
Proof.
  assert (Hs : NameAddrHeader.toString header_param_in_header
               = NameAddrHeader.toString header_param_in_uri)
    by (vm_compute; reflexivity).
  assert (Hu : NameAddrHeader.uri header_param_in_header
               <> NameAddrHeader.uri header_param_in_uri)
    by (vm_compute; discriminate).
  refine (conj _ (conj _ (conj Hs (conj Hu (conj _ _))))).
  - vm_compute. reflexivity.
  - vm_compute. discriminate.
  - vm_compute. discriminate.
  - intros parse [H1 H2]. rewrite Hs, H2 in H1.
    apply Hu. apply Some_inj in H1. rewrite H1. reflexivity.
Qed.

(** ** Message: one terminal event *)

Lemma Message_call_budget (this : Message.t) (c : Message.Call) :
  (Message.terminal_events (snd (Message.call this c))
   + (if Message._closed (fst (Message.call this c)) then 0 else 1)
   <= (if Message._closed this then 0 else 1))%nat.
Proof.
  destruct c as [r| | | | |b]; cbn [Message.call].
  - unfold Message.receiveResponse.
    destruct (Message._closed this) eqn:Hc; [cbn; rewrite Hc; lia|].
    destruct (Message.is_1xx _); [cbn; rewrite Hc; lia|].
    destruct (Message.is_2xx _); cbn; lia.
  - unfold Message.onRequestTimeout.
    destruct (Message._closed this) eqn:Hc; cbn; rewrite ?Hc; lia.
  - unfold Message.onTransportError.
    destruct (Message._closed this) eqn:Hc; cbn; rewrite ?Hc; lia.
  - cbn. lia.
  - cbn. destruct (Message._closed this); cbn; lia.
  - destruct b; cbn; lia.
Qed.

Lemma Message_terminal_events_app (e1 e2 : list Message.Effect) :
  Message.terminal_events (e1 ++ e2)
  = (Message.terminal_events e1 + Message.terminal_events e2)%nat.
Proof.
  unfold Message.terminal_events. rewrite filter_app, length_app.
  reflexivity.
Qed.

Lemma Message_calls_budget (cs : list Message.Call) :
  forall this : Message.t,
    (Message.terminal_events (snd (Message.calls this cs))
     + (if Message._closed (fst (Message.calls this cs)) then 0 else 1)
     <= (if Message._closed this then 0 else 1))%nat.
Proof.
  induction cs as [|c tl IH]; intros this; cbn [Message.calls].
  - cbn. lia.
  - pose proof (Message_call_budget this c) as H1.
    destruct (Message.call this c) as [this1 e1].
    pose proof (IH this1) as H2.
    destruct (Message.calls this1 tl) as [this2 e2].
    cbn [fst snd] in *. rewrite Message_terminal_events_app. lia.
Qed.

(** C10.  On a closed message receiveResponse, onRequestTimeout and
    onTransportError return at once, state unchanged and nothing emitted,
    and no later sequence of calls emits a terminal event.  failed and
    succeeded close the message before they emit.  Hence any sequence of
    calls on any message emits at most one of 'succeeded' and 'failed', at
    most once. *)
Theorem Message_closed_is_final :
  forall (this : Message.t) (r : Message.Response) (cs : list Message.Call),
    Message._closed this = true ->
    Message.receiveResponse this r = (this, [])
    /\ Message.onRequestTimeout this = (this, [])
    /\ Message.onTransportError this = (this, [])
    /\ Message.terminal_events (snd (Message.calls this cs)) = 0%nat
    /\ (forall (m : Message.t) o resp c,
           Message._closed (fst (Message.failed m o resp c)) = true
           /\ snd (Message.failed m o resp c)
              = [Message.UaDestroyMessage; Message.EmitFailed o resp c])
    /\ (forall (m : Message.t) o resp,
           Message._closed (fst (Message.succeeded m o resp)) = true
           /\ snd (Message.succeeded m o resp)
              = [Message.UaDestroyMessage; Message.EmitSucceeded o resp])
    /\ (forall (m : Message.t) (cs' : list Message.Call),
           (Message.terminal_events (snd (Message.calls m cs')) <= 1)%nat).
Proof.
  intros this r cs Hc.
  refine (conj _ (conj _ (conj _ (conj _ (conj _ (conj _ _)))))).
  - unfold Message.receiveResponse. rewrite Hc. reflexivity.
  - unfold Message.onRequestTimeout. rewrite Hc. reflexivity.
  - unfold Message.onTransportError. rewrite Hc. reflexivity.
  - pose proof (Message_calls_budget cs this) as H. rewrite Hc in H. lia.
  - intros m o resp c. split; reflexivity.
  - intros m o resp. split; reflexivity.
  - intros m cs'. pose proof (Message_calls_budget cs' m) as H.
    destruct (Message._closed m); lia.
Qed.

(** The theorem at a message closed by its 200 response. *)
Lemma Message_closed_is_final_witness :
  Message.receiveResponse closed_message {| Message.status_code := 486 |}
  = (closed_message, [])
  /\ Message.onRequestTimeout closed_message = (closed_message, [])
  /\ Message.onTransportError closed_message = (closed_message, [])
  /\ Message.terminal_events
       (snd (Message.calls closed_message
               [Message.CallOnTransportError;
                Message.CallReceiveResponse {| Message.status_code := 200 |};
                Message.CallOnRequestTimeout])) = 0%nat.
Proof.
  pose proof (Message_closed_is_final closed_message
                {| Message.status_code := 486 |}
                [Message.CallOnTransportError;
                 Message.CallReceiveResponse {| Message.status_code := 200 |};
                 Message.CallOnRequestTimeout]
                eq_refl) as H.
  destruct H as (H1 & H2 & H3 & H4 & _).
  exact (conj H1 (conj H2 (conj H3 H4))).
Defined.

(* ================================================================== *)
(** * Further properties *)
(* ================================================================== *)

(** ** Objects used as maps *)

Section JsObjectFacts.
Context {V : Type}.
Implicit Types (o : JsObject.t V) (k : string) (v : V).

Lemma JsObject_has_get k o :
  JsObject.has k o = match JsObject.get k o with
                     | Some _ => true
                     | None => false
                     end.
Proof.
  induction o as [|[k' v'] tl IH]; cbn; [reflexivity|].
  destruct (String.eqb k' k); cbn; [reflexivity|exact IH].
Qed.

Lemma JsObject_get_replace k v o :
  JsObject.has k o = true -> JsObject.get k (JsObject.replace k v o) = Some v.
Proof.
  induction o as [|[k' v'] tl IH]; cbn; [discriminate|].
  destruct (String.eqb k' k) eqn:E; cbn.
  - intros _. rewrite String.eqb_refl. reflexivity.
  - intros H. rewrite E. apply IH, H.
Qed.

Lemma JsObject_get_replace_other k k' v o :
  k' <> k -> JsObject.get k' (JsObject.replace k v o) = JsObject.get k' o.
Proof.
  intros Hne. induction o as [|[k0 v0] tl IH]; cbn; [reflexivity|].
  destruct (String.eqb_spec k0 k) as [->|Hk]; cbn.
  - destruct (String.eqb_spec k k') as [->|_]; [contradiction|reflexivity].
  - destruct (String.eqb k0 k'); [reflexivity|exact IH].
Qed.

Lemma JsObject_get_insert_index n k v o :
  JsObject.has k o = false ->
  JsObject.get k (JsObject.insert_index n k v o) = Some v.
Proof.
  induction o as [|[k' v'] tl IH]; cbn.
  - intros _. rewrite String.eqb_refl. reflexivity.
  - destruct (String.eqb k' k) eqn:E; cbn; [discriminate|]. intros H.
    destruct (JsObject.array_index k') as [m|]; cbn.
    + destruct (m <? n)%N; cbn.
      * rewrite E. apply IH, H.
      * rewrite String.eqb_refl. reflexivity.
    + rewrite String.eqb_refl. reflexivity.
Qed.

Lemma JsObject_get_insert_index_other n k k' v o :
  k' <> k ->
  JsObject.get k' (JsObject.insert_index n k v o) = JsObject.get k' o.
Proof.
  intros Hne.
  assert (Hk : String.eqb k k' = false)
    by (destruct (String.eqb_spec k k'); congruence).
  induction o as [|[k0 v0] tl IH]; cbn.
  - rewrite Hk. reflexivity.
  - destruct (JsObject.array_index k0) as [m|]; cbn.
    + destruct (m <? n)%N; cbn.
      * destruct (String.eqb k0 k'); [reflexivity|exact IH].
      * rewrite Hk. reflexivity.
    + rewrite Hk. reflexivity.
Qed.

Lemma JsObject_get_app k o o' :
  JsObject.get k (o ++ o')
  = match JsObject.get k o with
    | Some x => Some x
    | None => JsObject.get k o'
    end.
Proof.
  induction o as [|[k0 v0] tl IH]; cbn; [reflexivity|].
  destruct (String.eqb k0 k); [reflexivity|exact IH].
Qed.

(** Reading a key after writing it gives the value written. *)
Lemma JsObject_get_set k v o :
  JsObject.get k (JsObject.set k v o) = Some v.
Proof.
  unfold JsObject.set. destruct (JsObject.has k o) eqn:H.
  - apply JsObject_get_replace, H.
  - destruct (JsObject.array_index k) as [n|].
    + apply JsObject_get_insert_index, H.
    + rewrite JsObject_get_app. rewrite JsObject_has_get in H.
      destruct (JsObject.get k o); [discriminate|].
      cbn. rewrite String.eqb_refl. reflexivity.
Qed.

(** Writing a key leaves the other keys as they were. *)
Lemma JsObject_get_set_other k k' v o :
  k' <> k -> JsObject.get k' (JsObject.set k v o) = JsObject.get k' o.
Proof.
  intros Hne. unfold JsObject.set. destruct (JsObject.has k o).
  - apply JsObject_get_replace_other, Hne.
  - destruct (JsObject.array_index k) as [n|].
    + apply JsObject_get_insert_index_other, Hne.
    + rewrite JsObject_get_app. destruct (JsObject.get k' o); [reflexivity|].
      cbn. destruct (String.eqb_spec k k'); congruence.
Qed.

Lemma JsObject_has_set k k' v o :
  JsObject.has k' (JsObject.set k v o)
  = String.eqb k' k || JsObject.has k' o.
Proof.
  rewrite !JsObject_has_get.
  destruct (String.eqb_spec k' k) as [->|Hne]; cbn.
  - rewrite JsObject_get_set. reflexivity.
  - rewrite JsObject_get_set_other by exact Hne. reflexivity.
Qed.

Lemma JsObject_get_delete_other k k' o :
  k' <> k -> JsObject.get k' (JsObject.delete k o) = JsObject.get k' o.
Proof.
  intros Hne. induction o as [|[k0 v0] tl IH]; cbn; [reflexivity|].
  destruct (String.eqb_spec k0 k) as [->|Hk]; cbn.
  - destruct (String.eqb_spec k k'); congruence.
  - destruct (String.eqb k0 k'); [reflexivity|exact IH].
Qed.

Lemma JsObject_has_delete_other k k' o :
  k' <> k -> JsObject.has k' (JsObject.delete k o) = JsObject.has k' o.
Proof.
  intros Hne. rewrite !JsObject_has_get, JsObject_get_delete_other by exact Hne.
  reflexivity.
Qed.

Lemma JsObject_has_delete k o :
  JsObject.unique o = true -> JsObject.has k (JsObject.delete k o) = false.
Proof.
  induction o as [|[k0 v0] tl IH]; cbn; [reflexivity|].
  intros H. apply Bool.andb_true_iff in H. destruct H as [H1 H2].
  destruct (String.eqb_spec k0 k) as [->|Hk]; cbn.
  - apply Bool.negb_true_iff in H1. exact H1.
  - destruct (String.eqb_spec k0 k) as [|_]; [contradiction|]. cbn.
    apply IH, H2.
Qed.

End JsObjectFacts.

Section JsObjectUnique.
Context {V : Type}.
Implicit Types (o : JsObject.t V) (k : string) (v : V).

Lemma JsObject_has_replace k k' v o :
  JsObject.has k' (JsObject.replace k v o) = JsObject.has k' o.
Proof.
  induction o as [|[k0 v0] tl IH]; cbn; [reflexivity|].
  destruct (String.eqb_spec k0 k) as [->|Hk]; cbn; [reflexivity|].
  rewrite IH. reflexivity.
Qed.

Lemma JsObject_has_app k o o' :
  JsObject.has k (o ++ o') = JsObject.has k o || JsObject.has k o'.
Proof.
  induction o as [|[k0 v0] tl IH]; cbn; [reflexivity|].
  rewrite IH, Bool.orb_assoc. reflexivity.
Qed.

Lemma JsObject_unique_replace k v o :
  JsObject.unique (JsObject.replace k v o) = JsObject.unique o.
Proof.
  induction o as [|[k0 v0] tl IH]; cbn; [reflexivity|].
  destruct (String.eqb_spec k0 k) as [->|Hk]; cbn; [reflexivity|].
  rewrite JsObject_has_replace, IH. reflexivity.
Qed.

Lemma JsObject_unique_insert_index n k v o :
  JsObject.has k o = false -> JsObject.unique o = true ->
  JsObject.unique (JsObject.insert_index n k v o) = true.
Proof.
  induction o as [|[k0 v0] tl IH]; cbn; [reflexivity|].
  intros Hk Hu. apply Bool.orb_false_iff in Hk. destruct Hk as [Hk0 Hk].
  apply Bool.andb_true_iff in Hu. destruct Hu as [Hu0 Hu].
  assert (Hne : k0 <> k) by (destruct (String.eqb_spec k0 k); congruence).
  assert (Hnew : JsObject.unique ((k, v) :: (k0, v0) :: tl) = true).
  { cbn. rewrite Hk0, Hk, Hu0, Hu. reflexivity. }
  destruct (JsObject.array_index k0) as [m|]; [|exact Hnew].
  destruct (m <? n)%N; [|exact Hnew].
  cbn. rewrite IH by assumption.
  rewrite JsObject_has_get, JsObject_get_insert_index_other by exact Hne.
  rewrite <- JsObject_has_get, Hu0. reflexivity.
Qed.

Lemma JsObject_unique_app_one k v o :
  JsObject.has k o = false -> JsObject.unique o = true ->
  JsObject.unique (o ++ [(k, v)]) = true.
Proof.
  induction o as [|[k0 v0] tl IH]; cbn; [reflexivity|].
  intros Hk Hu. apply Bool.orb_false_iff in Hk. destruct Hk as [Hk0 Hk].
  apply Bool.andb_true_iff in Hu. destruct Hu as [Hu0 Hu].
  rewrite IH by assumption. rewrite JsObject_has_app. cbn.
  apply Bool.negb_true_iff in Hu0.
  rewrite Hu0, String.eqb_sym, Hk0. reflexivity.
Qed.

(** Writing a key keeps the keys distinct. *)
Lemma JsObject_unique_set k v o :
  JsObject.unique o = true -> JsObject.unique (JsObject.set k v o) = true.
Proof.
  intros Hu. unfold JsObject.set. destruct (JsObject.has k o) eqn:H.
  - rewrite JsObject_unique_replace. exact Hu.
  - destruct (JsObject.array_index k) as [n|].
    + apply JsObject_unique_insert_index; assumption.
    + apply JsObject_unique_app_one; assumption.
Qed.

Lemma JsObject_has_delete_le k k' o :
  JsObject.has k' o = false -> JsObject.has k' (JsObject.delete k o) = false.
Proof.
  induction o as [|[k0 v0] tl IH]; cbn; [reflexivity|].
  intros H. apply Bool.orb_false_iff in H. destruct H as [H0 H].
  destruct (String.eqb k0 k); [exact H|]. cbn. rewrite H0. apply IH, H.
Qed.

(** Deleting a key keeps the keys distinct. *)
Lemma JsObject_unique_delete k o :
  JsObject.unique o = true -> JsObject.unique (JsObject.delete k o) = true.
Proof.
  induction o as [|[k0 v0] tl IH]; cbn; [reflexivity|].
  intros Hu. apply Bool.andb_true_iff in Hu. destruct Hu as [Hu0 Hu].
  destruct (String.eqb k0 k); [exact Hu|]. cbn.
  rewrite IH by exact Hu. apply Bool.negb_true_iff in Hu0.
  rewrite JsObject_has_delete_le by exact Hu0. reflexivity.
Qed.

End JsObjectUnique.

(** ** Case of the keys *)

Lemma lower_char_idempotent (c : ascii) :
  lower_char (lower_char c) = lower_char c.
Proof.
  destruct c as [b0 b1 b2 b3 b4 b5 b6 b7].
  destruct b0, b1, b2, b3, b4, b5, b6, b7; vm_compute; reflexivity.
Qed.

Lemma toLowerCase_idempotent (s : string) :
  toLowerCase (toLowerCase s) = toLowerCase s.
Proof.
  induction s as [|c s IH]; cbn; [reflexivity|].
  rewrite lower_char_idempotent, IH. reflexivity.
Qed.

Lemma toLowerCase_empty (s : string) :
  String.eqb (toLowerCase s) "" = String.eqb s "".
Proof. destruct s; reflexivity. Qed.

(** ** NameAddrHeader and URI parameters *)


Lemma JsObject_read_set {V : Type} (k : string) (v : V) (o : JsObject.t V) :
  JsObject.read k (JsObject.set k v o) = JsObject.Own v.
Proof. unfold JsObject.read. rewrite JsObject_get_set. reflexivity. Qed.

Lemma JsObject_read_set_other {V : Type} (k k' : string) (v : V)
    (o : JsObject.t V) :
  k' <> k -> JsObject.read k' (JsObject.set k v o) = JsObject.read k' o.
Proof.
  intros Hne. unfold JsObject.read.
  rewrite JsObject_get_set_other by exact Hne. reflexivity.
Qed.

Lemma JsObject_read_delete_other {V : Type} (k k' : string)
    (o : JsObject.t V) :
  k' <> k -> JsObject.read k' (JsObject.delete k o) = JsObject.read k' o.
Proof.
  intros Hne. unfold JsObject.read.
  rewrite JsObject_get_delete_other by exact Hne. reflexivity.
Qed.

Lemma JsObject_read_not_own {V : Type} (k : string) (o : JsObject.t V) :
  JsObject.has k o = false ->
  JsObject.read k o
  = (if JsObject.inherited k then JsObject.Inherited k
     else JsObject.Undefined).
Proof.
  unfold JsObject.read. rewrite JsObject_has_get.
  destruct (JsObject.get k o); [discriminate|]. reflexivity.
Qed.

(** X1.  The names are strings of ASCII characters, on which [toLowerCase]
    is the JavaScript method, and the key written is not [__proto__], whose
    assignment changes the prototype and creates no parameter.  After
    [setParam (key, value)] with a key that is not empty, [getParam] of any
    spelling of that key, upper or lower case, gives the value and
    [hasParam] is true; every other name reads as before, be it a parameter,
    a member inherited from [Object.prototype] or nothing.  The same holds
    for the parameters of a URI. *)
Theorem setParam_getParam :
  forall (h : NameAddrHeader.t) (u : URI.t) (key k' : string)
         (v : option string),
    key <> "" ->
    ascii_only key = true ->
    ascii_only k' = true ->
    toLowerCase key <> "__proto__" ->
    NameAddrHeader.getParam k' (NameAddrHeader.setParam key v h)
    = (if String.eqb (toLowerCase k') (toLowerCase key) then JsObject.Own v
       else NameAddrHeader.getParam k' h)
    /\ NameAddrHeader.hasParam k' (NameAddrHeader.setParam key v h)
       = (String.eqb (toLowerCase k') (toLowerCase key)
          || NameAddrHeader.hasParam k' h)
    /\ URI.getParam k' (URI.setParam key v u)
       = (if String.eqb (toLowerCase k') (toLowerCase key) then JsObject.Own v
          else URI.getParam k' u)
    /\ URI.hasParam k' (URI.setParam key v u)
       = (String.eqb (toLowerCase k') (toLowerCase key) || URI.hasParam k' u).
Proof.
  intros h u key k' v Hkey _ _ _.
  assert (Hk : String.eqb key "" = false)
    by (destruct (String.eqb_spec key ""); congruence).
  unfold NameAddrHeader.getParam, NameAddrHeader.hasParam,
    NameAddrHeader.setParam, URI.getParam, URI.hasParam, URI.setParam.
  rewrite Hk. cbn [NameAddrHeader.parameters URI.parameters
                   URI.set_parameters].
  destruct (String.eqb_spec k' "") as [->|Hk'].
  - assert (E : String.eqb (toLowerCase "") (toLowerCase key) = false).
    { rewrite String.eqb_sym. cbn [toLowerCase].
      rewrite toLowerCase_empty. exact Hk. }
    rewrite E. repeat split; reflexivity.
  - destruct (String.eqb_spec (toLowerCase k') (toLowerCase key)) as [E|E].
    + rewrite E, !JsObject_read_set, !JsObject_has_set, String.eqb_refl.
      repeat split; reflexivity.
    + rewrite !JsObject_read_set_other, !JsObject_has_set by exact E.
      destruct (String.eqb_spec (toLowerCase k') (toLowerCase key));
        [contradiction|]. repeat split; reflexivity.
Qed.

(** X2.  The names are strings of ASCII characters and the header lists
    each parameter once, as an object does.  [deleteParam] removes the
    parameter under any spelling of its name: [hasParam] is false
    afterwards and [getParam] gives [undefined], or the member of that name
    inherited from [Object.prototype] when there is one ([constructor],
    [__proto__]).  Every other name reads as before, each parameter is
    still listed once, and [clearParams] leaves no parameter.  The same
    holds for the parameters of a URI. *)
Theorem deleteParam_removes :
  forall (h : NameAddrHeader.t) (u : URI.t) (k k' : string),
    JsObject.unique (NameAddrHeader.parameters h) = true ->
    JsObject.unique (URI.parameters u) = true ->
    ascii_only k = true ->
    ascii_only k' = true ->
    (NameAddrHeader.hasParam k (NameAddrHeader.deleteParam k h) = false
     /\ NameAddrHeader.getParam k (NameAddrHeader.deleteParam k h)
        = (if JsObject.inherited (toLowerCase k)
           then JsObject.Inherited (toLowerCase k)
           else JsObject.Undefined)
     /\ (toLowerCase k' <> toLowerCase k ->
         NameAddrHeader.getParam k' (NameAddrHeader.deleteParam k h)
         = NameAddrHeader.getParam k' h)
     /\ JsObject.unique
          (NameAddrHeader.parameters (NameAddrHeader.deleteParam k h)) = true
     /\ NameAddrHeader.hasParam k' (NameAddrHeader.clearParams h) = false
     /\ NameAddrHeader.getParam k' (NameAddrHeader.clearParams h)
        = (if JsObject.inherited (toLowerCase k')
           then JsObject.Inherited (toLowerCase k')
           else JsObject.Undefined))
    /\
    (URI.hasParam k (URI.deleteParam k u) = false
     /\ URI.getParam k (URI.deleteParam k u)
        = (if JsObject.inherited (toLowerCase k)
           then JsObject.Inherited (toLowerCase k)
           else JsObject.Undefined)
     /\ (toLowerCase k' <> toLowerCase k ->
         URI.getParam k' (URI.deleteParam k u) = URI.getParam k' u)
     /\ JsObject.unique (URI.parameters (URI.deleteParam k u)) = true
     /\ URI.hasParam k' (URI.clearParams u) = false
     /\ URI.getParam k' (URI.clearParams u)
        = (if JsObject.inherited (toLowerCase k')
           then JsObject.Inherited (toLowerCase k')
           else JsObject.Undefined)).
Proof.
  intros h u k k' Hh Hu _ _.
  assert (Hempty : forall s : string,
             String.eqb s "" = true ->
             @JsObject.Undefined (option string)
             = (if JsObject.inherited (toLowerCase s)
                then JsObject.Inherited (toLowerCase s)
                else JsObject.Undefined)).
  { intros s Hs. apply String.eqb_eq in Hs. subst s. reflexivity. }
  split.
  - unfold NameAddrHeader.hasParam, NameAddrHeader.getParam,
      NameAddrHeader.deleteParam, NameAddrHeader.clearParams.
    refine (conj _ (conj _ (conj _ (conj _ (conj _ _))))).
    + destruct (String.eqb k ""); [reflexivity|].
      destruct (JsObject.has (toLowerCase k) (NameAddrHeader.parameters h))
        eqn:E; cbn [NameAddrHeader.parameters]; [|exact E].
      apply JsObject_has_delete, Hh.
    + destruct (String.eqb k "") eqn:Ek; [apply Hempty, Ek|].
      apply JsObject_read_not_own.
      destruct (JsObject.has (toLowerCase k) (NameAddrHeader.parameters h))
        eqn:E; cbn [NameAddrHeader.parameters]; [|exact E].
      apply JsObject_has_delete, Hh.
    + intros Hne. destruct (String.eqb k' ""); [reflexivity|].
      destruct (JsObject.has (toLowerCase k) (NameAddrHeader.parameters h));
        cbn [NameAddrHeader.parameters]; [|reflexivity].
      apply JsObject_read_delete_other, Hne.
    + destruct (JsObject.has (toLowerCase k) (NameAddrHeader.parameters h));
        cbn [NameAddrHeader.parameters]; [exact (JsObject_unique_delete _ _ Hh)
                                         |exact Hh].
    + destruct (String.eqb k' ""); reflexivity.
    + destruct (String.eqb k' "") eqn:Ek; [apply Hempty, Ek|].
      apply JsObject_read_not_own. reflexivity.
  - unfold URI.hasParam, URI.getParam, URI.deleteParam, URI.clearParams.
    refine (conj _ (conj _ (conj _ (conj _ (conj _ _))))).
    + destruct (String.eqb k ""); [reflexivity|].
      destruct (JsObject.has (toLowerCase k) (URI.parameters u)) eqn:E;
        cbn [URI.parameters URI.set_parameters]; [|exact E].
      apply JsObject_has_delete, Hu.
    + destruct (String.eqb k "") eqn:Ek; [apply Hempty, Ek|].
      apply JsObject_read_not_own.
      destruct (JsObject.has (toLowerCase k) (URI.parameters u)) eqn:E;
        cbn [URI.parameters URI.set_parameters]; [|exact E].
      apply JsObject_has_delete, Hu.
    + intros Hne. destruct (String.eqb k' ""); [reflexivity|].
      destruct (JsObject.has (toLowerCase k) (URI.parameters u));
        cbn [URI.parameters URI.set_parameters]; [|reflexivity].
      apply JsObject_read_delete_other, Hne.
    + destruct (JsObject.has (toLowerCase k) (URI.parameters u));
        cbn [URI.parameters URI.set_parameters];
        [exact (JsObject_unique_delete _ _ Hu) | exact Hu].
    + destruct (String.eqb k' ""); reflexivity.
    + destruct (String.eqb k' "") eqn:Ek; [apply Hempty, Ek|].
      apply JsObject_read_not_own. reflexivity.
Qed.

(** ** Array indices among the keys *)

Lemma digits_value_acc (s : string) : forall acc : N,
  JsObject.digits_value s acc
  = match JsObject.digits_value s 0%N with
    | Some r => Some (acc * 10 ^ N.of_nat (String.length s) + r)%N
    | None => None
    end.
Proof.
  induction s as [|c tl IH]; intros acc.
  - cbn. f_equal. lia.
  - cbn [JsObject.digits_value String.length].
    destruct (JsObject.is_digit c); [|reflexivity].
    rewrite (IH (acc * 10 + _)%N), (IH (0 * 10 + _)%N).
    destruct (JsObject.digits_value tl 0%N) as [r|]; [|reflexivity].
    f_equal. rewrite Nat2N.inj_succ, N.pow_succ_r'. lia.
Qed.

Lemma digits_value_cons (c : ascii) (tl : string) (r : N) :
  JsObject.digits_value (String c tl) 0%N = Some r ->
  JsObject.is_digit c = true
  /\ exists r1, JsObject.digits_value tl 0%N = Some r1
                /\ r = (N.of_nat (nat_of_ascii c - 48)
                        * 10 ^ N.of_nat (String.length tl) + r1)%N.
Proof.
  cbn [JsObject.digits_value].
  destruct (JsObject.is_digit c); [|discriminate].
  rewrite digits_value_acc.
  destruct (JsObject.digits_value tl 0%N) as [r1|]; [|discriminate].
  intros H. injection H as <-. split; [reflexivity|].
  exists r1. split; [reflexivity|]. lia.
Qed.

Lemma is_digit_bound (c : ascii) :
  JsObject.is_digit c = true ->
  (48 <= nat_of_ascii c <= 57)%nat.
Proof.
  unfold JsObject.is_digit. intros H.
  apply Bool.andb_true_iff in H. destruct H as [H1 H2].
  apply Nat.leb_le in H1. apply Nat.leb_le in H2. lia.
Qed.

Lemma digits_value_lt (s : string) : forall r,
  JsObject.digits_value s 0%N = Some r ->
  (r < 10 ^ N.of_nat (String.length s))%N.
Proof.
  induction s as [|c tl IH]; intros r H.
  - cbn in H. injection H as <-. cbn. lia.
  - apply digits_value_cons in H. destruct H as [Hd [r1 [H1 ->]]].
    specialize (IH _ H1). apply is_digit_bound in Hd.
    cbn [String.length]. rewrite Nat2N.inj_succ, N.pow_succ_r'. nia.
Qed.

Lemma digits_value_same_length (s : string) : forall s' r,
  String.length s = String.length s' ->
  JsObject.digits_value s 0%N = Some r ->
  JsObject.digits_value s' 0%N = Some r ->
  s = s'.
Proof.
  induction s as [|c tl IH]; intros [|c' tl'] r Hl H H'; try discriminate Hl.
  - reflexivity.
  - cbn [String.length] in Hl. injection Hl as Hl.
    apply digits_value_cons in H. destruct H as [Hd [r1 [H1 Hr]]].
    apply digits_value_cons in H'. destruct H' as [Hd' [r1' [H1' Hr']]].
    pose proof (digits_value_lt _ _ H1) as B.
    pose proof (digits_value_lt _ _ H1') as B'.
    rewrite <- Hl in *.
    apply is_digit_bound in Hd. apply is_digit_bound in Hd'.
    assert (Ed : N.of_nat (nat_of_ascii c - 48)
                 = N.of_nat (nat_of_ascii c' - 48)).
    { subst r. set (P := (10 ^ N.of_nat (String.length tl))%N) in *.
      set (d := N.of_nat (nat_of_ascii c - 48)) in *.
      set (d' := N.of_nat (nat_of_ascii c' - 48)) in *.
      destruct (N.lt_trichotomy d d') as [L|[E|L]];
        [exfalso; nia|exact E|exfalso; nia]. }
    assert (Ec : nat_of_ascii c = nat_of_ascii c') by lia.
    assert (Er : r1 = r1') by (subst r; rewrite Ed in Hr'; lia).
    subst r1'.
    f_equal.
    + rewrite <- (ascii_nat_embedding c), <- (ascii_nat_embedding c'), Ec.
      reflexivity.
    + apply (IH tl' r1); assumption.
Qed.

Lemma digits_value_ge (c : ascii) (tl : string) (r : N) :
  Ascii.eqb c "0" = false ->
  JsObject.digits_value (String c tl) 0%N = Some r ->
  (10 ^ N.of_nat (String.length tl) <= r)%N.
Proof.
  intros Hc H. apply digits_value_cons in H.
  destruct H as [Hd [r1 [_ ->]]]. apply is_digit_bound in Hd.
  assert (nat_of_ascii c <> 48%nat).
  { intros E. apply (f_equal ascii_of_nat) in E.
    rewrite ascii_nat_embedding in E. subst c. discriminate Hc. }
  nia.
Qed.

(** Two keys that are the same array index are the same key. *)
Lemma array_index_injective (k k' : string) (n : N) :
  JsObject.array_index k = Some n -> JsObject.array_index k' = Some n ->
  k = k'.
Proof.
  assert (Hlen : forall c tl c' tl' r,
             Ascii.eqb c "0" = false ->
             JsObject.digits_value (String c tl) 0%N = Some r ->
             JsObject.digits_value (String c' tl') 0%N = Some r ->
             (String.length tl <= String.length tl')%nat).
  { intros c tl c' tl' r Hc H H'.
    destruct (Nat.le_gt_cases (String.length tl) (String.length tl'))
      as [Hle|Hgt]; [exact Hle|exfalso].
    pose proof (digits_value_ge _ _ _ Hc H) as B.
    pose proof (digits_value_lt _ _ H') as B'. cbn [String.length] in B'.
    assert (10 ^ N.of_nat (S (String.length tl'))
            <= 10 ^ N.of_nat (String.length tl))%N
      by (apply N.pow_le_mono_r; lia).
    lia. }
  unfold JsObject.array_index.
  destruct k as [|c tl]; [discriminate|].
  destruct k' as [|c' tl']; [discriminate|].
  destruct (Ascii.eqb c "0") eqn:Hc; destruct (Ascii.eqb c' "0") eqn:Hc'.
  - apply Ascii.eqb_eq in Hc. apply Ascii.eqb_eq in Hc'. subst.
    destruct tl; [|discriminate]. destruct tl'; [|discriminate]. reflexivity.
  - destruct tl; [|discriminate]. intros H. injection H as <-.
    destruct (JsObject.digits_value (String c' tl') 0%N) as [r|] eqn:E;
      [|discriminate].
    destruct (r <? 4294967295)%N; [|discriminate]. intros H.
    injection H as ->. pose proof (digits_value_ge _ _ _ Hc' E) as B.
    assert (0 < 10 ^ N.of_nat (String.length tl'))%N
      by (apply N.neq_0_lt_0, N.pow_nonzero; lia).
    lia.
  - destruct (JsObject.digits_value (String c tl) 0%N) as [r|] eqn:E;
      [|discriminate].
    destruct (r <? 4294967295)%N; [|discriminate]. intros H.
    injection H as ->. destruct tl'; [|discriminate]. intros H.
    injection H as <-. pose proof (digits_value_ge _ _ _ Hc E) as B.
    assert (0 < 10 ^ N.of_nat (String.length tl))%N
      by (apply N.neq_0_lt_0, N.pow_nonzero; lia).
    lia.
  - destruct (JsObject.digits_value (String c tl) 0%N) as [r|] eqn:E;
      [|discriminate].
    destruct (r <? 4294967295)%N; [|discriminate]. intros H.
    injection H as ->.
    destruct (JsObject.digits_value (String c' tl') 0%N) as [r'|] eqn:E';
      [|discriminate].
    destruct (r' <? 4294967295)%N; [|discriminate]. intros H.
    injection H as ->.
    apply (digits_value_same_length _ _ n); [|assumption|assumption].
    cbn [String.length]. f_equal. apply Nat.le_antisymm.
    + apply (Hlen c tl c' tl' n); assumption.
    + apply (Hlen c' tl' c tl n); assumption.
Qed.

(** ** The listing order of an object *)

Section JsObjectOrder.
Context {V : Type}.
Implicit Types (o p : JsObject.t V) (k : string) (v : V).

Lemma plain_keys_app o o' :
  JsObject.plain_keys (o ++ o')
  = JsObject.plain_keys o && JsObject.plain_keys o'.
Proof. unfold JsObject.plain_keys. apply forallb_app. Qed.

Lemma ordered_of_plain o : forall prev,
  JsObject.plain_keys o = true -> JsObject.ordered prev o = true.
Proof.
  destruct o as [|[k v] tl]; intros prev H; [reflexivity|].
  cbn in *. destruct (JsObject.array_index k); [discriminate|exact H].
Qed.

Lemma ordered_weaken o : forall prev q,
  JsObject.ordered (Some prev) o = true -> (q <= prev)%N ->
  JsObject.ordered (Some q) o = true /\ JsObject.ordered None o = true.
Proof.
  destruct o as [|[k v] tl]; intros prev q H Hq; [split; reflexivity|].
  cbn in *. destruct (JsObject.array_index k) as [n|]; [|split; exact H].
  apply Bool.andb_true_iff in H. destruct H as [H1 H2].
  apply N.ltb_lt in H1. rewrite H2.
  assert (E : (q <? n)%N = true) by (apply N.ltb_lt; lia).
  rewrite E. split; reflexivity.
Qed.

Lemma plain_keys_replace k v o :
  JsObject.plain_keys (JsObject.replace k v o) = JsObject.plain_keys o.
Proof.
  unfold JsObject.plain_keys.
  induction o as [|[k0 v0] tl IH]; cbn; [reflexivity|].
  destruct (String.eqb_spec k0 k) as [->|Hk]; cbn; [reflexivity|].
  rewrite IH. reflexivity.
Qed.

Lemma ordered_replace k v o : forall prev,
  JsObject.ordered prev (JsObject.replace k v o) = JsObject.ordered prev o.
Proof.
  induction o as [|[k0 v0] tl IH]; intros prev; cbn; [reflexivity|].
  destruct (String.eqb_spec k0 k) as [->|Hk]; cbn; [reflexivity|].
  destruct (JsObject.array_index k0).
  - rewrite IH. reflexivity.
  - apply plain_keys_replace.
Qed.

Lemma plain_keys_delete k o :
  JsObject.plain_keys o = true ->
  JsObject.plain_keys (JsObject.delete k o) = true.
Proof.
  unfold JsObject.plain_keys.
  induction o as [|[k0 v0] tl IH]; cbn; [reflexivity|].
  intros H. apply Bool.andb_true_iff in H. destruct H as [H1 H2].
  destruct (String.eqb k0 k); [exact H2|]. cbn. rewrite H1. apply IH, H2.
Qed.

Lemma ordered_delete k o : forall prev,
  JsObject.ordered prev o = true ->
  JsObject.ordered prev (JsObject.delete k o) = true.
Proof.
  induction o as [|[k0 v0] tl IH]; intros prev H; cbn; [reflexivity|].
  cbn in H. destruct (String.eqb k0 k).
  - destruct (JsObject.array_index k0) as [n|].
    + apply Bool.andb_true_iff in H. destruct H as [H1 H2].
      destruct prev as [q|].
      * apply N.ltb_lt in H1.
        apply (ordered_weaken tl n q); [exact H2|lia].
      * apply (ordered_weaken tl n n); [exact H2|lia].
    + apply ordered_of_plain, H.
  - cbn. destruct (JsObject.array_index k0) as [n|].
    + apply Bool.andb_true_iff in H. destruct H as [H1 H2].
      rewrite H1. apply IH, H2.
    + apply plain_keys_delete, H.
Qed.

Lemma ordered_app_plain k v o : forall prev,
  JsObject.array_index k = None ->
  JsObject.ordered prev o = true ->
  JsObject.ordered prev (o ++ [(k, v)]) = true.
Proof.
  induction o as [|[k0 v0] tl IH]; intros prev Hk H; cbn.
  - rewrite Hk. reflexivity.
  - cbn in H. destruct (JsObject.array_index k0) as [n|].
    + apply Bool.andb_true_iff in H. destruct H as [H1 H2].
      rewrite H1. apply IH; assumption.
    + rewrite plain_keys_app, H. cbn. rewrite Hk. reflexivity.
Qed.

Lemma has_false_index k o n :
  JsObject.has k o = false -> JsObject.array_index k = Some n ->
  forall k0 v0, In (k0, v0) o -> JsObject.array_index k0 <> Some n.
Proof.
  intros Hk Hn k0 v0 Hin E.
  assert (k0 = k) by (eapply array_index_injective; eassumption). subst k0.
  induction o as [|[k1 v1] tl IH]; [exact Hin|].
  cbn in Hk. apply Bool.orb_false_iff in Hk. destruct Hk as [Hk1 Hk].
  destruct Hin as [Hin|Hin].
  - injection Hin as -> _. rewrite String.eqb_refl in Hk1. discriminate.
  - apply IH; assumption.
Qed.

Lemma ordered_insert_index n k v o : forall prev,
  JsObject.array_index k = Some n ->
  (forall k0 v0, In (k0, v0) o -> JsObject.array_index k0 <> Some n) ->
  match prev with Some q => (q <? n)%N | None => true end = true ->
  JsObject.ordered prev o = true ->
  JsObject.ordered prev (JsObject.insert_index n k v o) = true.
Proof.
  induction o as [|[k0 v0] tl IH]; intros prev Hk Hfresh Hp H.
  - cbn. rewrite Hk, Hp. reflexivity.
  - cbn [JsObject.insert_index]. cbn in H.
    destruct (JsObject.array_index k0) as [m|] eqn:Em.
    + apply Bool.andb_true_iff in H. destruct H as [H1 H2].
      destruct (m <? n)%N eqn:Emn.
      * cbn. rewrite Em, H1. cbn. apply IH; try assumption.
        intros k1 v1 Hin. apply (Hfresh k1 v1). right. exact Hin.
      * cbn. rewrite Hk, Hp, Em, H2. cbn.
        assert (m <> n).
        { intros ->. apply (Hfresh k0 v0); [left; reflexivity|exact Em]. }
        apply N.ltb_ge in Emn.
        assert (E : (n <? m)%N = true) by (apply N.ltb_lt; lia).
        rewrite E. reflexivity.
    + cbn. rewrite Hk, Hp, Em. exact H.
Qed.

(** Writing a key keeps the listing order. *)
Lemma ordered_set k v o :
  JsObject.ordered None o = true ->
  JsObject.ordered None (JsObject.set k v o) = true.
Proof.
  intros H. unfold JsObject.set. destruct (JsObject.has k o) eqn:Hk.
  - rewrite ordered_replace. exact H.
  - destruct (JsObject.array_index k) as [n|] eqn:En.
    + apply ordered_insert_index; try assumption; try reflexivity.
      apply has_false_index with (k := k); assumption.
    + apply ordered_app_plain; assumption.
Qed.

(** An index met after a prefix is above the bound and above every index
    of the prefix: it goes to the end of the prefix. *)
Lemma insert_index_at_end n k v p : forall prev o',
  JsObject.array_index k = Some n ->
  JsObject.ordered prev (p ++ (k, v) :: o') = true ->
  JsObject.insert_index n k v p = p ++ [(k, v)]
  /\ match prev with Some q => (q <? n)%N | None => true end = true.
Proof.
  induction p as [|[k0 v0] tl IH]; intros prev o' Hk H.
  - cbn in *. rewrite Hk in H. apply Bool.andb_true_iff in H.
    destruct H as [H _]. split; [reflexivity|exact H].
  - cbn in H. cbn [JsObject.insert_index].
    destruct (JsObject.array_index k0) as [m|].
    + apply Bool.andb_true_iff in H. destruct H as [H1 H2].
      destruct (IH (Some m) o' Hk H2) as [E Hm]. rewrite Hm, E.
      split; [reflexivity|].
      destruct prev as [q|]; [|reflexivity].
      apply N.ltb_lt in H1. apply N.ltb_lt in Hm. apply N.ltb_lt. lia.
    + rewrite plain_keys_app in H. apply Bool.andb_true_iff in H.
      destruct H as [_ H]. cbn in H. rewrite Hk in H. discriminate H.
Qed.

Lemma unique_app_has k v p o' :
  JsObject.unique (p ++ (k, v) :: o') = true -> JsObject.has k p = false.
Proof.
  induction p as [|[k0 v0] tl IH]; cbn; [reflexivity|].
  intros H. apply Bool.andb_true_iff in H. destruct H as [H1 H2].
  rewrite (IH H2), Bool.orb_false_r.
  apply Bool.negb_true_iff in H1. rewrite JsObject_has_app in H1. cbn in H1.
  apply Bool.orb_false_iff in H1. destruct H1 as [_ H1].
  apply Bool.orb_false_iff in H1. destruct H1 as [H1 _].
  rewrite String.eqb_sym. exact H1.
Qed.

(** Writing the entries of a canonical object again, in their listing
    order, builds the same object. *)
Lemma replay_canonical (s : JsObject.t V) : forall p,
  JsObject.canonical (p ++ s) = true ->
  fold_left (fun acc kv => JsObject.set (fst kv) (snd kv) acc) s p = p ++ s.
Proof.
  induction s as [|[k v] tl IH]; intros p H; cbn [fold_left].
  - rewrite app_nil_r. reflexivity.
  - unfold JsObject.canonical in H. apply Bool.andb_true_iff in H.
    destruct H as [Hu Ho].
    assert (E : JsObject.set k v p = p ++ [(k, v)]).
    { unfold JsObject.set. rewrite (unique_app_has _ _ _ _ Hu).
      destruct (JsObject.array_index k) as [n|] eqn:En; [|reflexivity].
      apply (insert_index_at_end n k v p None tl En Ho). }
    cbn [fst snd]. rewrite E, IH.
    + rewrite <- app_assoc. reflexivity.
    + rewrite <- app_assoc. cbn [app]. unfold JsObject.canonical.
      rewrite Hu, Ho. reflexivity.
Qed.

End JsObjectOrder.

(** ** Cloning a header *)

Section LowerKeys.
Context {V : Type}.
Implicit Types (o : JsObject.t V) (k : string) (v : V).

Lemma lower_keys_app o o' :
  lower_keys (o ++ o') = lower_keys o && lower_keys o'.
Proof. unfold lower_keys. apply forallb_app. Qed.

Lemma lower_keys_set k v o :
  String.eqb k "" = false -> toLowerCase k = k ->
  lower_keys o = true -> lower_keys (JsObject.set k v o) = true.
Proof.
  intros Hne Hlow H.
  assert (Hk : lower_keys [(k, v)] = true).
  { unfold lower_keys. cbn. rewrite Hne, Hlow, String.eqb_refl. reflexivity. }
  unfold JsObject.set. destruct (JsObject.has k o).
  - clear Hk. unfold lower_keys in *.
    induction o as [|[k0 v0] tl IH]; cbn in *; [reflexivity|].
    apply Bool.andb_true_iff in H. destruct H as [H1 H2].
    destruct (String.eqb k0 k); cbn.
    + rewrite Hne, Hlow, String.eqb_refl, H2. reflexivity.
    + rewrite H1. apply IH, H2.
  - destruct (JsObject.array_index k) as [n|].
    + unfold lower_keys in *.
      induction o as [|[k0 v0] tl IH]; [exact Hk|].
      cbn [JsObject.insert_index].
      assert (Hall : forallb
                       (fun kv : string * V =>
                          negb (String.eqb (fst kv) "")
                          && String.eqb (toLowerCase (fst kv)) (fst kv))
                       ((k, v) :: (k0, v0) :: tl) = true).
      { change ((k, v) :: (k0, v0) :: tl) with ([(k, v)] ++ (k0, v0) :: tl).
        rewrite forallb_app, Hk, H. reflexivity. }
      destruct (JsObject.array_index k0) as [m|]; [|exact Hall].
      destruct (m <? n)%N; [|exact Hall].
      cbn in H. apply Bool.andb_true_iff in H. destruct H as [H1 H2].
      cbn. rewrite H1. apply IH, H2.
    + rewrite lower_keys_app, H, Hk. reflexivity.
Qed.

Lemma lower_keys_delete k o :
  lower_keys o = true -> lower_keys (JsObject.delete k o) = true.
Proof.
  unfold lower_keys.
  induction o as [|[k0 v0] tl IH]; cbn; [reflexivity|].
  intros H. apply Bool.andb_true_iff in H. destruct H as [H1 H2].
  destruct (String.eqb k0 k); [exact H2|]. cbn. rewrite H1. apply IH, H2.
Qed.

End LowerKeys.

(** The three ways to change an object keep it well formed. *)
Lemma well_formed_params_set {V : Type} (key : string) (v : V)
    (o : JsObject.t V) :
  String.eqb key "" = false ->
  well_formed_params o = true ->
  well_formed_params (JsObject.set (toLowerCase key) v o) = true.
Proof.
  intros Hk H. unfold well_formed_params, JsObject.canonical in *.
  apply Bool.andb_true_iff in H. destruct H as [H Hl].
  apply Bool.andb_true_iff in H. destruct H as [Hu Ho].
  rewrite JsObject_unique_set, ordered_set, lower_keys_set;
    try assumption; try reflexivity.
  - rewrite toLowerCase_empty. exact Hk.
  - apply toLowerCase_idempotent.
Qed.

Lemma well_formed_params_delete {V : Type} (k : string) (o : JsObject.t V) :
  well_formed_params o = true ->
  well_formed_params (JsObject.delete k o) = true.
Proof.
  intros H. unfold well_formed_params, JsObject.canonical in *.
  apply Bool.andb_true_iff in H. destruct H as [H Hl].
  apply Bool.andb_true_iff in H. destruct H as [Hu Ho].
  rewrite JsObject_unique_delete, ordered_delete, lower_keys_delete;
    try assumption; reflexivity.
Qed.

Lemma NameAddrHeader_fold_setParam (params : JsObject.t (option string)) :
  forall h0 : NameAddrHeader.t,
    lower_keys params = true ->
    fold_left (fun h kv => NameAddrHeader.setParam (fst kv) (snd kv) h)
      params h0
    = {| NameAddrHeader.uri := NameAddrHeader.uri h0;
         NameAddrHeader.display_name := NameAddrHeader.display_name h0;
         NameAddrHeader.parameters :=
           fold_left (fun acc kv => JsObject.set (fst kv) (snd kv) acc)
             params (NameAddrHeader.parameters h0) |}.
Proof.
  induction params as [|[k v] tl IH]; intros h0 H; cbn [fold_left].
  - destruct h0; reflexivity.
  - unfold lower_keys in H. cbn in H.
    apply Bool.andb_true_iff in H. destruct H as [H1 H2].
    apply Bool.andb_true_iff in H1. destruct H1 as [Hne Hlow].
    apply Bool.negb_true_iff in Hne. apply String.eqb_eq in Hlow.
    rewrite IH by exact H2. unfold NameAddrHeader.setParam. cbn [fst snd].
    rewrite Hne, Hlow. reflexivity.
Qed.

Lemma URI_fold_setParam (params : JsObject.t (option string)) :
  forall u0 : URI.t,
    lower_keys params = true ->
    fold_left (fun u kv => URI.setParam (fst kv) (snd kv) u) params u0
    = URI.set_parameters u0
        (fold_left (fun acc kv => JsObject.set (fst kv) (snd kv) acc)
           params (URI.parameters u0)).
Proof.
  induction params as [|[k v] tl IH]; intros u0 H; cbn [fold_left].
  - destruct u0; reflexivity.
  - unfold lower_keys in H. cbn in H.
    apply Bool.andb_true_iff in H. destruct H as [H1 H2].
    apply Bool.andb_true_iff in H1. destruct H1 as [Hne Hlow].
    apply Bool.negb_true_iff in Hne. apply String.eqb_eq in Hlow.
    rewrite IH by exact H2. unfold URI.setParam. cbn [fst snd].
    rewrite Hne, Hlow. reflexivity.
Qed.

Lemma URI_fold_setHeader (headerize : string -> string)
    (hs : JsObject.t (list string)) : forall u0 : URI.t,
  fold_left (fun acc hv => URI.setHeader headerize (fst hv) (snd hv) acc)
    hs u0
  = {| URI.scheme := URI.scheme u0; URI.user := URI.user u0;
       URI.host := URI.host u0; URI.port := URI.port u0;
       URI.parameters := URI.parameters u0;
       URI.headers :=
         fold_left (fun acc hv => JsObject.set (headerize (fst hv)) (snd hv)
                                    acc)
           hs (URI.headers u0) |}.
Proof.
  induction hs as [|[n v] tl IH]; intros u0; cbn [fold_left].
  - destruct u0; reflexivity.
  - rewrite IH. reflexivity.
Qed.

(** X3.  The clone of a header whose URI has a host keeps the display
    name, the header parameters with their values and order, and the
    scheme, user, host, port and parameters of the URI; when the URI has no
    headers the clone equals the header.  This is stated for parameter
    objects that are well formed, which [setParam] and [deleteParam]
    preserve and the empty object is. *)
Theorem NameAddrHeader_clone_preserves :
  forall (headerize : string -> string) (h : NameAddrHeader.t),
    URI.host (NameAddrHeader.uri h) <> "" ->
    well_formed_params (NameAddrHeader.parameters h) = true ->
    well_formed_params (URI.parameters (NameAddrHeader.uri h)) = true ->
    (exists h',
        NameAddrHeader.clone headerize h = Some h'
        /\ NameAddrHeader.display_name h' = NameAddrHeader.display_name h
        /\ NameAddrHeader.parameters h' = NameAddrHeader.parameters h
        /\ URI.scheme (NameAddrHeader.uri h')
           = URI.scheme (NameAddrHeader.uri h)
        /\ URI.user (NameAddrHeader.uri h') = URI.user (NameAddrHeader.uri h)
        /\ URI.host (NameAddrHeader.uri h') = URI.host (NameAddrHeader.uri h)
        /\ URI.port (NameAddrHeader.uri h') = URI.port (NameAddrHeader.uri h)
        /\ URI.parameters (NameAddrHeader.uri h')
           = URI.parameters (NameAddrHeader.uri h)
        /\ (URI.headers (NameAddrHeader.uri h) = [] -> h' = h))
    /\ (forall key v,
           well_formed_params
             (NameAddrHeader.parameters (NameAddrHeader.setParam key v h))
           = true)
    /\ (forall k,
           well_formed_params
             (NameAddrHeader.parameters (NameAddrHeader.deleteParam k h))
           = true).
Proof.
  intros headerize h Hhost Hp Hu.
  refine (conj _ (conj _ _)).
  - unfold NameAddrHeader.clone, URI.clone.
    destruct (String.eqb_spec (URI.host (NameAddrHeader.uri h)) "")
      as [E|_]; [contradiction|].
    unfold NameAddrHeader.new. eexists. split; [reflexivity|].
    assert (Hp' := Hp). assert (Hu' := Hu).
    unfold well_formed_params in Hp', Hu'.
    apply Bool.andb_true_iff in Hp'. destruct Hp' as [Hpc Hpl].
    apply Bool.andb_true_iff in Hu'. destruct Hu' as [Huc Hul].
    rewrite NameAddrHeader_fold_setParam by exact Hpl.
    rewrite URI_fold_setHeader, URI_fold_setParam by exact Hul.
    cbn [NameAddrHeader.parameters NameAddrHeader.display_name
         NameAddrHeader.uri URI.parameters URI.set_parameters URI.scheme
         URI.user URI.host URI.port URI.headers].
    rewrite (replay_canonical (NameAddrHeader.parameters h) [])
      by exact Hpc.
    rewrite (replay_canonical (URI.parameters (NameAddrHeader.uri h)) [])
      by exact Huc.
    cbn [app].
    refine (conj eq_refl (conj eq_refl (conj eq_refl (conj eq_refl
             (conj eq_refl (conj eq_refl (conj eq_refl _))))))).
    intros Hh. rewrite Hh. cbn [fold_left].
    destruct h as [u d ps]. destruct u as [sc us ho po pa he].
    cbn in *. subst he. reflexivity.
  - intros key v. unfold NameAddrHeader.setParam.
    destruct (String.eqb key "") eqn:E; [exact Hp|].
    cbn [NameAddrHeader.parameters].
    apply well_formed_params_set; assumption.
  - intros k. unfold NameAddrHeader.deleteParam.
    destruct (JsObject.has _ _); [|exact Hp].
    cbn [NameAddrHeader.parameters].
    apply well_formed_params_delete, Hp.
Qed.

Lemma setParam_getParam_witness :
  NameAddrHeader.getParam "TAG"
    (NameAddrHeader.setParam "Tag" (Some "x1") contact_c2)
  = JsObject.Own (Some "x1")
  /\ NameAddrHeader.getParam "Constructor"
       (NameAddrHeader.setParam "Tag" (Some "x1") contact_c2)
     = JsObject.Inherited "constructor"
  /\ URI.hasParam "TAG" (URI.setParam "Tag" (Some "x1") uri_bob) = true.
Proof.
  destruct (setParam_getParam contact_c2 uri_bob "Tag" "TAG" (Some "x1")
              ltac:(discriminate) eq_refl eq_refl ltac:(discriminate))
    as (H1 & _ & _ & H4).
  destruct (setParam_getParam contact_c2 uri_bob "Tag" "Constructor"
              (Some "x1") ltac:(discriminate) eq_refl eq_refl
              ltac:(discriminate)) as (H5 & _).
  exact (conj H1 (conj H5 H4)).
Defined.

Lemma deleteParam_removes_witness :
  NameAddrHeader.hasParam "HeaderParam"
    (NameAddrHeader.deleteParam "HeaderParam" header_param_in_header) = false
  /\ NameAddrHeader.getParam "HeaderParam"
       (NameAddrHeader.deleteParam "HeaderParam" header_param_in_header)
     = JsObject.Undefined
  /\ NameAddrHeader.getParam "x"
       (NameAddrHeader.deleteParam "HeaderParam" header_param_in_header)
     = JsObject.Own (Some "1")
  /\ URI.hasParam "HeaderParam"
       (URI.deleteParam "HeaderParam" (NameAddrHeader.uri header_param_in_uri))
     = false.
Proof.
  destruct (deleteParam_removes header_param_in_header
              (NameAddrHeader.uri header_param_in_uri)
              "HeaderParam" "x" eq_refl eq_refl eq_refl eq_refl)
    as ((H1 & H2 & H3 & _) & (H4 & _)).
  refine (conj H1 (conj H2 (conj _ H4))).
  rewrite H3; [reflexivity | discriminate].
Defined.

Lemma NameAddrHeader_clone_preserves_witness :
  NameAddrHeader.clone (fun n => n) header_param_in_uri
  = Some header_param_in_uri.
Proof.
  destruct (NameAddrHeader_clone_preserves (fun n => n) header_param_in_uri
              ltac:(discriminate) eq_refl eq_refl)
    as ((h' & Hc & _ & _ & _ & _ & _ & _ & _ & Heq) & _).
  rewrite Hc, (Heq eq_refl). reflexivity.
Defined.

(** ** UA: the choice of the next server *)

Lemma nth_error_app_left {T : Type} (l l' : list T) (i : nat) (x : T) :
  nth_error l i = Some x -> nth_error (l ++ l') i = Some x.
Proof.
  intros H. rewrite nth_error_app1; [exact H|].
  apply nth_error_Some. rewrite H. discriminate.
Qed.

Lemma nth_error_app_here {T : Type} (l : list T) (x : T) :
  nth_error (l ++ [x]) (List.length l) = Some x.
Proof.
  rewrite nth_error_app2 by lia. rewrite Nat.sub_diag. reflexivity.
Qed.

Lemma candidates_loop_invariant (l : list UA.ws_server) :
  forall pre cands,
    candidates_invariant pre cands ->
    candidates_invariant (pre ++ l)
      (UA.candidates_loop l (List.length pre) cands).
Proof.
  induction l as [|ws tl IH]; intros pre cands Hinv.
  - rewrite app_nil_r. exact Hinv.
  - cbn [UA.candidates_loop].
    replace (pre ++ ws :: tl) with ((pre ++ [ws]) ++ tl)
      by (rewrite <- app_assoc; reflexivity).
    replace (S (List.length pre)) with (List.length (pre ++ [ws]))
      by (rewrite length_app; cbn; lia).
    apply IH. clear IH.
    destruct Hinv as (Hin & Hsame & Hmax).
    destruct (UA.ws_status ws =? 2) eqn:Est.
    + apply Z.eqb_eq in Est.
      refine (conj _ (conj Hsame _)).
      * intros i c Hc. destruct (Hin i c Hc) as [H1 H2].
        split; [apply nth_error_app_left, H1 | exact H2].
      * intros c Hc Hs. apply in_app_or in Hc. destruct Hc as [Hc|Hc].
        -- exact (Hmax c Hc Hs).
        -- destruct Hc as [<-|[]]. contradiction.
    + apply Z.eqb_neq in Est.
      assert (Hsingle :
                (forall c, In c pre -> UA.ws_status c <> 2 ->
                           UA.weight c <= UA.weight ws) ->
                candidates_invariant (pre ++ [ws]) [(List.length pre, ws)]).
      { intros Hle. refine (conj _ (conj _ _)).
        - intros i c [Hc|[]]. injection Hc as <- <-.
          split; [apply nth_error_app_here | exact Est].
        - intros i c i' c' [Hc|[]] [Hc'|[]].
          injection Hc as <- <-. injection Hc' as <- <-. reflexivity.
        - intros c Hc Hs. split; [discriminate|].
          intros i c' [Hc'|[]]. injection Hc' as <- <-.
          apply in_app_or in Hc. destruct Hc as [Hc|[<-|[]]].
          + exact (Hle c Hc Hs).
          + lia. }
      destruct cands as [|[i0 c0] rest].
      * apply Hsingle. intros c Hc Hs.
        destruct (Hmax c Hc Hs) as [Hne _]. contradiction.
      * cbn [fst snd].
        destruct (UA.weight c0 <? UA.weight ws) eqn:Elt.
        -- apply Z.ltb_lt in Elt. apply Hsingle. intros c Hc Hs.
           destruct (Hmax c Hc Hs) as [_ Hle].
           specialize (Hle i0 c0 (or_introl eq_refl)). lia.
        -- apply Z.ltb_ge in Elt.
           destruct (UA.weight ws =? UA.weight c0) eqn:Eeq.
           ++ apply Z.eqb_eq in Eeq.
              refine (conj _ (conj _ _)).
              ** intros i c Hc. apply in_app_or in Hc.
                 destruct Hc as [Hc|[Hc|[]]].
                 --- destruct (Hin i c Hc) as [H1 H2].
                     split; [apply nth_error_app_left, H1 | exact H2].
                 --- injection Hc as <- <-.
                     split; [apply nth_error_app_here | exact Est].
              ** assert (Hw : forall i c,
                            In (i, c) (((i0, c0) :: rest)
                                         ++ [(List.length pre, ws)]) ->
                            UA.weight c = UA.weight c0).
                 { intros i c Hc. apply in_app_or in Hc.
                   destruct Hc as [Hc|[Hc|[]]].
                   - exact (Hsame i c i0 c0 Hc (or_introl eq_refl)).
                   - injection Hc as <- <-. exact Eeq. }
                 intros i c i' c' Hc Hc'.
                 rewrite (Hw i c Hc), (Hw i' c' Hc'). reflexivity.
              ** intros c Hc Hs. split.
                 { intros H. discriminate H. }
                 intros i c' Hc'.
                 assert (Hc0 : UA.weight c <= UA.weight c0).
                 { apply in_app_or in Hc. destruct Hc as [Hc|[<-|[]]].
                   - destruct (Hmax c Hc Hs) as [_ Hle].
                     exact (Hle i0 c0 (or_introl eq_refl)).
                   - lia. }
                 apply in_app_or in Hc'. destruct Hc' as [Hc'|[Hc'|[]]].
                 --- rewrite (Hsame i c' i0 c0 Hc' (or_introl eq_refl)).
                     exact Hc0.
                 --- injection Hc' as <- <-. lia.
           ++ apply Z.eqb_neq in Eeq.
              refine (conj _ (conj Hsame _)).
              ** intros i c Hc. destruct (Hin i c Hc) as [H1 H2].
                 split; [apply nth_error_app_left, H1 | exact H2].
              ** intros c Hc Hs. split; [discriminate|].
                 intros i c' Hc'.
                 rewrite (Hsame i c' i0 c0 Hc' (or_introl eq_refl)).
                 apply in_app_or in Hc. destruct Hc as [Hc|[<-|[]]].
                 --- destruct (Hmax c Hc Hs) as [_ Hle].
                     exact (Hle i0 c0 (or_introl eq_refl)).
                 --- lia.
Qed.

Lemma candidates_invariant_all (servers : list UA.ws_server) :
  candidates_invariant servers (UA.candidates_loop servers 0 []).
Proof.
  apply (candidates_loop_invariant servers [] []).
  refine (conj _ (conj _ _)).
  - intros i ws [].
  - intros i ws i' ws' [].
  - intros ws [].
Qed.

(** The index [Math.floor(Math.random() * n)] lies within a list of [n]
    elements when there is one. *)
Lemma random_index_in_range (random : Q) (n : nat) :
  (0 <= random)%Q -> (random < 1)%Q -> (0 < n)%nat ->
  0 <= Qfloor (random * inject_Z (Z.of_nat n)) <= Z.of_nat n - 1.
Proof.
  intros H0 H1 Hn.
  assert (HnQ : (0 < inject_Z (Z.of_nat n))%Q).
  { change 0%Q with (inject_Z 0). rewrite <- Zlt_Qlt. lia. }
  apply Qfloor_between.
  - change (inject_Z 0) with 0%Q. nra.
  - replace (Z.of_nat n - 1 + 1) with (Z.of_nat n) by lia. nra.
Qed.

Lemma getNextWsServer_some_iff (random : Q) (ua : UA.t) :
  (0 <= random)%Q -> (random < 1)%Q ->
  let candidates :=
    UA.candidates_loop (UA.ws_servers (UA.configuration ua)) 0 [] in
  (candidates = [] -> UA.getNextWsServer random ua = None)
  /\ (candidates <> [] ->
      exists i ws, UA.getNextWsServer random ua = Some i
                   /\ In (i, ws) candidates).
Proof.
  intros H0 H1 candidates. unfold UA.getNextWsServer.
  fold candidates. split.
  - intros ->. cbn. destruct (Z.to_nat _); reflexivity.
  - intros Hne.
    assert (Hlen : (0 < List.length candidates)%nat).
    { destruct candidates; [contradiction | cbn; lia]. }
    pose proof (random_index_in_range random _ H0 H1 Hlen) as Hr.
    set (idx := Qfloor _) in *.
    destruct (nth_error candidates (Z.to_nat idx)) as [[i ws]|] eqn:E.
    + exists i, ws. split.
      * destruct (idx <? 0) eqn:En; [apply Z.ltb_lt in En; lia | reflexivity].
      * eapply nth_error_In, E.
    + apply nth_error_None in E. lia.
Qed.

(** What onTransportError needs of the choice: a server returned is not in
    Error, and none is returned exactly when all are in Error. *)
Lemma getNextWsServer_usable (random : Q) (ua : UA.t) :
  (0 <= random)%Q -> (random < 1)%Q ->
  let servers := UA.ws_servers (UA.configuration ua) in
  (forall i, UA.getNextWsServer random ua = Some i ->
             exists ws, nth_error servers i = Some ws
                        /\ UA.ws_status ws <> UA.WS_SERVER_ERROR)
  /\ (UA.getNextWsServer random ua = None
      <-> forall ws, In ws servers -> UA.ws_status ws = UA.WS_SERVER_ERROR).
Proof.
  intros H0 H1 servers.
  pose proof (candidates_invariant_all servers) as (Hin & _ & Hmax).
  destruct (getNextWsServer_some_iff random ua H0 H1) as [Hnil Hcons].
  fold servers in Hnil, Hcons.
  unfold UA.WS_SERVER_ERROR.
  assert (Hcases : UA.candidates_loop servers 0 [] = []
                   \/ UA.candidates_loop servers 0 [] <> []).
  { destruct (UA.candidates_loop servers 0 []); [left | right];
      [reflexivity | discriminate]. }
  split.
  - intros i Hi. destruct Hcases as [Hc|Hc].
    + rewrite (Hnil Hc) in Hi. discriminate.
    + destruct (Hcons Hc) as (i' & ws & Hs & Hmem).
      rewrite Hs in Hi. injection Hi as ->.
      exists ws. exact (Hin i ws Hmem).
  - split.
    + intros Hnone ws Hw.
      destruct (Z.eq_dec (UA.ws_status ws) 2) as [E|E]; [exact E|].
      destruct (Hmax ws Hw E) as [Hne _].
      destruct (Hcons Hne) as (i & c & Hs & _).
      rewrite Hs in Hnone. discriminate.
    + intros Hall. destruct Hcases as [Hc|Hc]; [exact (Hnil Hc)|].
      destruct (Hcons Hc) as (i & c & _ & Hmem).
      destruct (Hin i c Hmem) as [Hn Hst].
      exfalso. apply Hst, Hall. eapply nth_error_In, Hn.
Qed.

(** X4.  For a random number in [0, 1), [getNextWsServer] returns a server
    of the configuration that is not in Error and whose weight no other
    server that is not in Error exceeds; it returns undefined exactly when
    every server is in Error. *)
Theorem getNextWsServer_picks_heaviest_usable :
  forall (random : Q) (ua : UA.t),
    (0 <= random)%Q -> (random < 1)%Q ->
    let servers := UA.ws_servers (UA.configuration ua) in
    (forall i, UA.getNextWsServer random ua = Some i ->
               exists ws,
                 nth_error servers i = Some ws
                 /\ UA.ws_status ws <> UA.WS_SERVER_ERROR
                 /\ forall ws', In ws' servers ->
                                UA.ws_status ws' <> UA.WS_SERVER_ERROR ->
                                UA.weight ws' <= UA.weight ws)
    /\ (UA.getNextWsServer random ua = None
        <-> forall ws, In ws servers ->
                       UA.ws_status ws = UA.WS_SERVER_ERROR).
Proof.
  intros random ua H0 H1 servers.
  pose proof (candidates_invariant_all servers) as (Hin & _ & Hmax).
  destruct (getNextWsServer_some_iff random ua H0 H1) as [Hnil Hcons].
  fold servers in Hnil, Hcons.
  unfold UA.WS_SERVER_ERROR. split.
  - intros i Hi.
    destruct (UA.candidates_loop servers 0 []) as [|c0 rest] eqn:Ec.
    + rewrite (Hnil eq_refl) in Hi. discriminate.
    + destruct (Hcons ltac:(discriminate)) as (i' & ws & Hs & Hmem).
      rewrite Hs in Hi. injection Hi as ->.
      exists ws. destruct (Hin i ws Hmem) as [Hn Hst].
      refine (conj Hn (conj Hst _)).
      intros ws' Hw Hs'. destruct (Hmax ws' Hw Hs') as [_ Hle].
      exact (Hle i ws Hmem).
  - split.
    + intros Hnone ws Hw.
      destruct (Z.eq_dec (UA.ws_status ws) 2) as [E|E]; [exact E|].
      destruct (Hmax ws Hw E) as [Hne _].
      destruct (Hcons Hne) as (i & c & Hs & _).
      rewrite Hs in Hnone. discriminate.
    + intros Hall. apply Hnil.
      destruct (UA.candidates_loop servers 0 []) as [|[i c] rest] eqn:Ec;
        [reflexivity|].
      destruct (Hin i c (or_introl eq_refl)) as [Hn Hst].
      exfalso. apply Hst, Hall. eapply nth_error_In, Hn.
Qed.


Lemma getNextWsServer_picks_heaviest_usable_witness :
  UA.getNextWsServer (3 # 4) ua_four_servers = Some 3%nat
  /\ UA.getNextWsServer (3 # 4) ua_recovering = None.
Proof.
  destruct (getNextWsServer_picks_heaviest_usable (3 # 4) ua_recovering
              ltac:(vm_compute; discriminate) ltac:(reflexivity))
    as [_ [_ Hnone]].
  split; [reflexivity|].
  apply Hnone. intros ws [<-|[<-|[]]]; reflexivity.
Defined.

Lemma nth_error_mark_server (l : list UA.ws_server) (v : Z) :
  forall i j,
    nth_error (UA.mark_server l i v) j
    = if Nat.eqb j i
      then option_map (fun s => UA.with_status s v) (nth_error l j)
      else nth_error l j.
Proof.
  induction l as [|s tl IH]; intros i j.
  - cbn. destruct j, (Nat.eqb _ _); reflexivity.
  - destruct i as [|i], j as [|j]; cbn; try reflexivity. apply IH.
Qed.

Lemma recoverTransport_opens_no_transport (rs rk : Q) (ua : UA.t)
    (s : option nat) :
  ~ In (UA.NewTransport s) (snd (UA.recoverTransport rs rk ua)).
Proof.
  unfold UA.recoverTransport. cbn [snd]. intros H.
  apply in_app_or in H. destruct H as [H|[H|[]]]; [|discriminate].
  destruct (_ <? _) in H; [destruct H as [H|[]]; discriminate | destruct H].
Qed.

Lemma recoverTransport_arms_timer (rs rk : Q) (ua : UA.t) :
  exists timer, In (UA.SetTimeout timer) (snd (UA.recoverTransport rs rk ua)).
Proof.
  unfold UA.recoverTransport. cbn [snd]. eexists.
  apply in_or_app. right. left. reflexivity.
Qed.

(** X5.  When the transport to server [i] fails, the server is marked as
    in Error.  A transport is opened at once only to another server, one
    that is not in Error, and then status and error of the UA stay as they
    are.  The sessions are closed exactly when every other server is in
    Error; in that case the UA ends with the network error recorded (and in
    status NotReady unless that error was recorded before), every server is
    set back to status 0, and one recovery timer is armed. *)
Theorem onTransportError_fails_over_or_recovers :
  forall (rn rs rk : Q) (ua : UA.t) (i : nat),
    (0 <= rn)%Q -> (rn < 1)%Q ->
    (i < List.length (UA.ws_servers (UA.configuration ua)))%nat ->
    let servers := UA.ws_servers (UA.configuration ua) in
    let r := UA.onTransportError rn rs rk ua i in
    (forall s, In (UA.NewTransport (Some s)) (snd r) ->
               s <> i
               /\ (exists ws, nth_error servers s = Some ws
                              /\ UA.ws_status ws <> UA.WS_SERVER_ERROR)
               /\ snd r = [UA.EmitDisconnected; UA.NewTransport (Some s)]
               /\ UA.status (fst r) = UA.status ua
               /\ UA.error (fst r) = UA.error ua
               /\ option_map UA.ws_status
                    (nth_error (UA.ws_servers (UA.configuration (fst r))) i)
                  = Some UA.WS_SERVER_ERROR)
    /\ (In UA.CloseSessionsOnTransportError (snd r)
        <-> forall j ws, nth_error servers j = Some ws -> j <> i ->
                         UA.ws_status ws = UA.WS_SERVER_ERROR)
    /\ (In UA.CloseSessionsOnTransportError (snd r) ->
        UA.error (fst r) = Some UA.UA_NETWORK_ERROR
        /\ (UA.error ua <> Some UA.UA_NETWORK_ERROR ->
            UA.status (fst r) = UA_C.STATUS_NOT_READY)
        /\ Forall (fun ws => UA.ws_status ws = 0)
                  (UA.ws_servers (UA.configuration (fst r)))
        /\ exists timer, In (UA.SetTimeout timer) (snd r)
                         /\ forall s, ~ In (UA.NewTransport s) (snd r)).
Proof.
  intros rn rs rk ua i H0 H1 Hi servers r.
  set (ua1 := UA.set_servers ua (UA.mark_server servers i UA.WS_SERVER_ERROR)).
  pose proof (getNextWsServer_usable rn ua1 H0 H1) as [Hsome Hnone].
  cbn [UA.set_servers UA.configuration UA.ws_servers ua1] in Hsome, Hnone.
  fold servers in Hsome, Hnone.
  assert (Hall : (forall ws,
                     In ws (UA.mark_server servers i UA.WS_SERVER_ERROR) ->
                     UA.ws_status ws = UA.WS_SERVER_ERROR)
                 <-> (forall j ws, nth_error servers j = Some ws -> j <> i ->
                                   UA.ws_status ws = UA.WS_SERVER_ERROR)).
  { split.
    - intros H j ws Hj Hne. apply H.
      apply (nth_error_In _ j). rewrite nth_error_mark_server.
      destruct (Nat.eqb_spec j i); [contradiction | exact Hj].
    - intros H ws Hw. apply In_nth_error in Hw. destruct Hw as [j Hj].
      rewrite nth_error_mark_server in Hj.
      destruct (Nat.eqb j i) eqn:Eji.
      + destruct (nth_error servers j); [|discriminate].
        cbn in Hj. injection Hj as <-. reflexivity.
      + apply Nat.eqb_neq in Eji. exact (H j ws Hj Eji). }
  assert (Hmarked : option_map UA.ws_status
                      (nth_error (UA.mark_server servers i UA.WS_SERVER_ERROR)
                                 i)
                    = Some UA.WS_SERVER_ERROR).
  { rewrite nth_error_mark_server, Nat.eqb_refl.
    destruct (nth_error servers i) eqn:E; [reflexivity|].
    apply nth_error_None in E. unfold servers in E. lia. }
  unfold r, UA.onTransportError. fold servers. fold ua1.
  destruct (UA.getNextWsServer rn ua1) as [s|] eqn:Es.
  - cbn [fst snd].
    destruct (Hsome s eq_refl) as (ws & Hn & Hst).
    rewrite nth_error_mark_server in Hn.
    assert (Hsi : s <> i).
    { intros ->. rewrite Nat.eqb_refl in Hn.
      destruct (nth_error servers i); [|discriminate].
      cbn in Hn. injection Hn as <-. apply Hst. reflexivity. }
    refine (conj _ (conj _ _)).
    + intros s' [H|[H|[]]]; [discriminate|]. injection H as <-.
      refine (conj Hsi (conj _ (conj eq_refl (conj eq_refl
               (conj eq_refl Hmarked))))).
      exists ws. destruct (Nat.eqb_spec s i); [contradiction|].
      split; assumption.
    + split.
      * intros [H|[H|[]]]; discriminate.
      * intros H. pose proof (proj2 Hnone (proj2 Hall H)) as Hn'.
        discriminate Hn'.
    + intros [H|[H|[]]]; discriminate.
  - set (ua2 := match UA.error ua1 with
                | Some UA.UA_NETWORK_ERROR => ua1
                | _ => UA.set_status_error ua1 UA_C.STATUS_NOT_READY
                                           (Some UA.UA_NETWORK_ERROR)
                end).
    pose proof (recoverTransport_opens_no_transport rs rk ua2) as Hnt.
    pose proof (recoverTransport_arms_timer rs rk ua2) as Htimer.
    assert (Hfst : fst (UA.recoverTransport rs rk ua2)
                   = UA.set_servers ua2
                       (map (fun s => UA.with_status s 0)
                            (UA.ws_servers (UA.configuration ua2))))
      by reflexivity.
    destruct (UA.recoverTransport rs rk ua2) as [ua3 es].
    cbn [fst snd] in *. subst ua3.
    assert (Hno : forall s, ~ In (UA.NewTransport s)
                              ([UA.EmitDisconnected;
                                UA.CloseSessionsOnTransportError] ++ es)).
    { intros s [H|[H|H]]; try discriminate. exact (Hnt s H). }
    refine (conj _ (conj _ _)).
    + intros s H. destruct (Hno _ H).
    + split.
      * intros _. exact (proj1 Hall (proj1 Hnone eq_refl)).
      * intros _. right. left. reflexivity.
    + intros _. refine (conj _ (conj _ (conj _ _))).
      * unfold ua2. change (UA.error ua1) with (UA.error ua).
        destruct (UA.error ua) as [[|]|] eqn:Ee;
          try reflexivity; exact Ee.
      * intros Hne. unfold ua2. change (UA.error ua1) with (UA.error ua).
        destruct (UA.error ua) as [[|]|];
          [reflexivity | destruct (Hne eq_refl) | reflexivity].
      * cbn [UA.set_servers UA.configuration UA.ws_servers].
        apply Forall_map. apply Forall_forall. intros; reflexivity.
      * destruct Htimer as [timer Ht]. exists timer. split.
        -- right. right. exact Ht.
        -- exact Hno.
Qed.

Lemma onTransportError_fails_over_or_recovers_witness :
  snd (UA.onTransportError (3 # 4) (1 # 2) (1 # 2) ua_four_servers 3)
  = [UA.EmitDisconnected; UA.NewTransport (Some 2%nat)]
  /\ UA.error (fst (UA.onTransportError (3 # 4) (1 # 2) (1 # 2)
                      ua_recovering 0))
     = Some UA.UA_NETWORK_ERROR.
Proof.
  destruct (onTransportError_fails_over_or_recovers (3 # 4) (1 # 2) (1 # 2)
              ua_four_servers 3
              ltac:(vm_compute; discriminate) ltac:(reflexivity)
              ltac:(cbn; lia))
    as [Hnew _].
  destruct (Hnew 2%nat ltac:(right; left; reflexivity))
    as (_ & _ & Hsnd & _).
  destruct (onTransportError_fails_over_or_recovers (3 # 4) (1 # 2) (1 # 2)
              ua_recovering 0
              ltac:(vm_compute; discriminate) ltac:(reflexivity)
              ltac:(cbn; lia))
    as (_ & _ & Hrec).
  destruct (Hrec ltac:(right; left; reflexivity)) as [Herr _].
  exact (conj Hsnd Herr).
Defined.

(** ** Registrator: CSeq numbers and the 2xx response *)

Lemma Registrator_sent_cseqs_app (e1 e2 : list Registrator.Effect) :
  Registrator.sent_cseqs (e1 ++ e2)
  = Registrator.sent_cseqs e1 ++ Registrator.sent_cseqs e2.
Proof.
  induction e1 as [|e tl IH]; [reflexivity|].
  destruct e; cbn; rewrite IH; reflexivity.
Qed.

Lemma Registrator_registrationFailure_cseq (this : Registrator.t)
    (r : option Registrator.Response) (c : Registrator.Cause) :
  Registrator.cseq (fst (Registrator.registrationFailure this r c))
  = Registrator.cseq this
  /\ Registrator.sent_cseqs
       (snd (Registrator.registrationFailure this r c)) = []
  /\ Registrator.handlers (fst (Registrator.registrationFailure this r c))
     = Registrator.handlers this.
Proof.
  unfold Registrator.registrationFailure.
  destruct (Registrator.registered this); repeat split; reflexivity.
Qed.

Lemma Registrator_receiveResponse_cseq (this : Registrator.t)
    (r : Registrator.Response) :
  Registrator.cseq (fst (Registrator.receiveResponse this r))
  = Registrator.cseq this
  /\ Registrator.sent_cseqs (snd (Registrator.receiveResponse this r)) = []
  /\ Registrator.handlers (fst (Registrator.receiveResponse this r))
     = Registrator.handlers this.
Proof.
  unfold Registrator.receiveResponse.
  destruct (Registrator.handlers this) eqn:Eh.
  - unfold Registrator.register_receiveResponse.
    destruct (negb _); [repeat split; assumption || reflexivity|].
    destruct (Registrator.is_1xx _); [repeat split; assumption || reflexivity|].
    destruct (Registrator.is_2xx _).
    + destruct (Registrator.contacts r);
        [repeat split; assumption || reflexivity|].
      destruct (Registrator.scan_contacts _ _ _) as [[c1|] m];
        repeat split; assumption || reflexivity.
    + destruct (_ =? 423).
      * destruct (Registrator.min_expires_hdr r).
        -- repeat split; assumption || reflexivity.
        -- pose proof (Registrator_registrationFailure_cseq this (Some r)
                         Registrator.SIP_FAILURE_CODE) as (H1 & H2 & H3).
           destruct (Registrator.registrationFailure this (Some r) _)
             as [t1 es]. cbn [fst snd] in *.
           repeat split; try assumption. congruence.
      * pose proof (Registrator_registrationFailure_cseq this (Some r)
                      (Registrator.sipErrorCause (Registrator.status_code r)))
          as (H1 & H2 & H3).
        repeat split; try assumption. congruence.
  - unfold Registrator.unregister_receiveResponse, Registrator.unregistered.
    destruct (Registrator.is_1xx _);
      [repeat split; assumption || reflexivity|].
    destruct (Registrator.is_2xx _); repeat split; assumption || reflexivity.
Qed.

(** One call sends at most one REGISTER, and sends it with the CSeq that
    follows the one stored. *)
Lemma Registrator_call_cseq (this : Registrator.t) (c : Registrator.Call) :
  exists b : bool,
    Registrator.cseq (fst (Registrator.call this c))
    = Registrator.cseq this + (if b then 1 else 0)
    /\ Registrator.sent_cseqs (snd (Registrator.call this c))
       = if b then [Registrator.cseq this + 1] else [].
Proof.
  assert (Hreg : forall t0,
             Registrator.cseq (fst (Registrator.register t0))
             = Registrator.cseq t0 + 1
             /\ Registrator.sent_cseqs (snd (Registrator.register t0))
                = [Registrator.cseq t0 + 1])
    by (intros; split; reflexivity).
  assert (Hunreg : forall t0 all, exists b : bool,
             Registrator.cseq (fst (Registrator.unregister t0 all))
             = Registrator.cseq t0 + (if b then 1 else 0)
             /\ Registrator.sent_cseqs (snd (Registrator.unregister t0 all))
                = if b then [Registrator.cseq t0 + 1] else []).
  { intros t0 all. unfold Registrator.unregister.
    destruct (Registrator.registered t0).
    - exists true. split; reflexivity.
    - exists false. cbn. split; [lia | reflexivity]. }
  destruct c; cbn [Registrator.call].
  - exists true. apply Hreg.
  - apply Hunreg.
  - exists false.
    destruct (Registrator_receiveResponse_cseq this r) as (H1 & H2 & _).
    split; [lia | exact H2].
  - exists false. unfold Registrator.onRequestTimeout.
    destruct (Registrator.handlers this).
    + destruct (Registrator_registrationFailure_cseq this None
                  Registrator.REQUEST_TIMEOUT) as (H1 & H2 & _).
      split; [lia | exact H2].
    + cbn. split; [lia | reflexivity].
  - exists false. unfold Registrator.onTransportError.
    destruct (Registrator.handlers this).
    + destruct (Registrator_registrationFailure_cseq this None
                  Registrator.CONNECTION_ERROR) as (H1 & H2 & _).
      split; [lia | exact H2].
    + cbn. split; [lia | reflexivity].
  - exists true. apply Hreg.
  - exists false. unfold Registrator.onTransportClosed. cbn.
    destruct (Registrator.registered this); cbn; split; lia || reflexivity.
  - exists true. apply Hreg.
  - unfold Registrator.close.
    destruct (Hunreg (Registrator.set_registered_before this
                        (Registrator.registered this)) false)
      as [b Hb].
    exists b. exact Hb.
Qed.

Lemma Registrator_calls_cseq (cs : list Registrator.Call) :
  forall this : Registrator.t,
  exists n : nat,
    Registrator.cseq (fst (Registrator.calls this cs))
    = Registrator.cseq this + Z.of_nat n
    /\ Registrator.sent_cseqs (snd (Registrator.calls this cs))
       = map (fun k => Registrator.cseq this + Z.of_nat k) (seq 1 n).
Proof.
  induction cs as [|c tl IH]; intros this.
  - exists 0%nat. cbn. split; [lia | reflexivity].
  - cbn [Registrator.calls].
    destruct (Registrator_call_cseq this c) as [b [Hb1 Hb2]].
    destruct (Registrator.call this c) as [this1 e1]. cbn [fst snd] in *.
    destruct (IH this1) as [n [Hn1 Hn2]].
    destruct (Registrator.calls this1 tl) as [this2 e2]. cbn [fst snd] in *.
    rewrite Registrator_sent_cseqs_app, Hb2, Hn2, Hn1, Hb1.
    destruct b.
    + exists (S n). split; [lia|].
      cbn [seq map app]. f_equal.
      rewrite <- (seq_shift n 1), map_map.
      apply map_ext. intros k. lia.
    + exists n. split; [lia|].
      cbn [app]. apply map_ext. intros k. lia.
Qed.

(** X6.  Whatever the sequence of calls made on a Registrator (register,
    unregister, responses, timeouts, transport events, timer, close), the
    REGISTER requests it sends carry consecutive CSeq numbers: the first is
    the stored CSeq plus one, each next one is one more, and the CSeq stored
    at the end is that of the last request sent. *)
Theorem Registrator_cseq_consecutive :
  forall (this : Registrator.t) (cs : list Registrator.Call),
    let sent := Registrator.sent_cseqs (snd (Registrator.calls this cs)) in
    sent = map (fun k => Registrator.cseq this + Z.of_nat k)
               (seq 1 (List.length sent))
    /\ Registrator.cseq (fst (Registrator.calls this cs))
       = Registrator.cseq this + Z.of_nat (List.length sent).
Proof.
  intros this cs sent. unfold sent.
  destruct (Registrator_calls_cseq cs this) as [n [H1 H2]].
  rewrite H2, length_map, length_seq. split; [reflexivity | exact H1].
Qed.

Lemma Registrator_calls_app (a b : list Registrator.Call) :
  forall this : Registrator.t,
    Registrator.calls this (a ++ b)
    = (fst (Registrator.calls (fst (Registrator.calls this a)) b),
       snd (Registrator.calls this a)
         ++ snd (Registrator.calls (fst (Registrator.calls this a)) b)).
Proof.
  induction a as [|c tl IH]; intros this.
  - cbn. destruct (Registrator.calls this b); reflexivity.
  - cbn [app Registrator.calls].
    destruct (Registrator.call this c) as [this1 e1].
    rewrite IH.
    destruct (Registrator.calls this1 tl) as [this2 e2]. cbn [fst snd].
    rewrite app_assoc. reflexivity.
Qed.

(** X7.  When the last call made on a Registrator is register(), a
    response whose CSeq is that of any REGISTER sent before this last one
    is discarded: it changes nothing and emits nothing.  The CSeq of the
    last REGISTER is the one stored. *)
Theorem Registrator_superseded_response_ignored :
  forall (this : Registrator.t) (cs : list Registrator.Call)
         (r : Registrator.Response),
    let run := Registrator.calls this (cs ++ [Registrator.CallRegister]) in
    In (Registrator.resp_cseq r)
       (removelast (Registrator.sent_cseqs (snd run))) ->
    Registrator.receiveResponse (fst run) r = (fst run, [])
    /\ last (Registrator.sent_cseqs (snd run)) 0
       = Registrator.cseq (fst run).
Proof.
  intros this cs r run Hin. unfold run in *. clear run.
  rewrite Registrator_calls_app in *. cbn [fst snd] in *.
  destruct (Registrator_calls_cseq cs this) as [n [Hc Hs]].
  destruct (Registrator.calls this cs) as [s1 e1]. cbn [fst snd] in *.
  cbn [Registrator.calls Registrator.call fst snd app] in *.
  set (s2 := fst (Registrator.register s1)) in *.
  assert (Hh : Registrator.handlers s2 = Registrator.ForRegister)
    by reflexivity.
  assert (Hc2 : Registrator.cseq s2 = Registrator.cseq s1 + 1)
    by reflexivity.
  assert (He : Registrator.sent_cseqs (snd (Registrator.register s1))
               = [Registrator.cseq s1 + 1]) by reflexivity.
  destruct (Registrator.register s1) as [s2' e2]. cbn [fst snd] in *.
  subst s2. rewrite app_nil_r in *.
  rewrite Registrator_sent_cseqs_app, He in *.
  rewrite removelast_last in Hin. rewrite last_last.
  split; [|symmetry; exact Hc2].
  rewrite Hs in Hin. apply in_map_iff in Hin.
  destruct Hin as [k [Hk Hk']]. apply in_seq in Hk'.
  unfold Registrator.receiveResponse, Registrator.register_receiveResponse.
  rewrite Hh, Hc2.
  destruct (Z.eqb_spec (Registrator.resp_cseq r) (Registrator.cseq s1 + 1))
    as [E|E]; [lia | reflexivity].
Qed.

Lemma Registrator_superseded_response_ignored_witness :
  Registrator.receiveResponse
    (fst (Registrator.calls registrator_600
            [Registrator.CallRegister; Registrator.CallRegister]))
    (response_200 82 None [contact_of "sip:alice@example.com" (Some 300)])
  = (fst (Registrator.calls registrator_600
            [Registrator.CallRegister; Registrator.CallRegister]), []).
Proof.
  exact (proj1 (Registrator_superseded_response_ignored registrator_600
                  [Registrator.CallRegister]
                  (response_200 82 None
                     [contact_of "sip:alice@example.com" (Some 300)])
                  (or_introl eq_refl))).
Defined.

Lemma scan_parsed_no_match (ours : string)
    (l : list Registrator.ParsedContact) (c : Registrator.ParsedContact) :
  forall last,
    (forall c', In c' (l ++ [c]) -> Registrator.parsed_uri c' <> ours) ->
    Registrator.scan_parsed ours (l ++ [c]) last = (Some c, false).
Proof.
  induction l as [|c0 tl IH]; intros last H; cbn.
  - destruct (String.eqb_spec (Registrator.parsed_uri c) ours) as [E|_];
      [destruct (H c (or_introl eq_refl) E) | reflexivity].
  - destruct (String.eqb_spec (Registrator.parsed_uri c0) ours) as [E|_];
      [destruct (H c0 (or_introl eq_refl) E)|].
    apply IH. intros c' Hc'. apply H. right. exact Hc'.
Qed.

Lemma scan_parsed_match (ours : string) (l : list Registrator.ParsedContact)
    (c : Registrator.ParsedContact) (rest : list Registrator.ParsedContact) :
  forall last,
    (forall c', In c' l -> Registrator.parsed_uri c' <> ours) ->
    Registrator.parsed_uri c = ours ->
    Registrator.scan_parsed ours (l ++ c :: rest) last = (Some c, true).
Proof.
  induction l as [|c0 tl IH]; intros last H Hc; cbn.
  - rewrite Hc, String.eqb_refl. reflexivity.
  - destruct (String.eqb_spec (Registrator.parsed_uri c0) ours) as [E|_].
    + destruct (H c0 (or_introl eq_refl) E).
    + apply IH; [|exact Hc]. intros c' Hc'. apply H. right. exact Hc'.
Qed.

(** The loop ends on one of the headers it went through. *)
Lemma scan_parsed_in (ours : string) (l : list Registrator.ParsedContact) :
  forall last,
    l <> [] ->
    exists c, fst (Registrator.scan_parsed ours l last) = Some c /\ In c l.
Proof.
  induction l as [|c0 tl IH]; intros last Hne; [destruct (Hne eq_refl)|].
  cbn [Registrator.scan_parsed].
  destruct (String.eqb (Registrator.parsed_uri c0) ours).
  - exists c0. split; [reflexivity | left; reflexivity].
  - destruct tl as [|c1 tl'].
    + exists c0. split; [reflexivity | left; reflexivity].
    + destruct (IH (Some c0) ltac:(discriminate)) as (c & Hc & Hin).
      exists c. split; [exact Hc | right; exact Hin].
Qed.

(** The loop over the headers as [Contact] gives them chooses the same
    header. *)
Lemma scan_contacts_of_parsed (ours : string)
    (l : list Registrator.ParsedContact) :
  forall last,
    Registrator.scan_contacts ours (map Registrator.contact_of_parsed l)
      (option_map Registrator.contact_of_parsed last)
    = (option_map Registrator.contact_of_parsed
         (fst (Registrator.scan_parsed ours l last)),
       snd (Registrator.scan_parsed ours l last)).
Proof.
  induction l as [|c0 tl IH]; intros last; cbn; [reflexivity|].
  destruct (String.eqb (Registrator.parsed_uri c0) ours); [reflexivity|].
  exact (IH (Some c0)).
Qed.

(** X8.  The 2xx case of a response to REGISTER that has a Contact header
    ends in a registration or in a TypeError, never in 'No Contact header
    pointing to us'.  The loop ends on a header of the response: the last
    one that points to this UA, or the first header when none does.  The
    next REGISTER is scheduled after [expires * 1000 - 3000] ms, [expires]
    being the expires parameter of that header when it points to this UA
    (the requested value when it has none: the Expires header is then not
    read), and the Expires header, or else the requested value, when no
    header points to this UA.  When a gruu parameter of that header has no
    value the call then throws: the timer is armed, but the Registrator is
    not marked registered and no event is emitted.  Otherwise the
    Registrator is marked registered and 'registered' is emitted, which is
    what [register_receiveResponse] does on the Contact headers given by
    value. *)
Theorem Registrator_2xx_registers :
  forall (this : Registrator.t) (expires0 : option Z)
         (contacts : list Registrator.ParsedContact),
    contacts <> [] ->
    exists contact expires this' es exn,
      Registrator.receiveResponse_2xx this expires0 contacts
      = (this', es, exn)
      /\ In contact contacts
      /\ Registrator.registrationTimer this' = Some (expires * 1000 - 3000)
      /\ Registrator.cseq this' = Registrator.cseq this
      /\ Registrator.expires this' = Registrator.expires this
      /\ (if Registrator.valueless_gruu contact
          then es = [Registrator.SetTimeoutRegister (expires * 1000 - 3000)]
               /\ exn = Some Registrator.null_replace
               /\ Registrator.registered this' = Registrator.registered this
          else es = [Registrator.SetTimeoutRegister (expires * 1000 - 3000);
                     Registrator.EmitRegistered]
               /\ exn = None
               /\ Registrator.registered this' = true
               /\ forall r,
                    Registrator.resp_cseq r = Registrator.cseq this ->
                    Registrator.is_2xx (Registrator.status_code r) = true ->
                    Registrator.expires_hdr r = expires0 ->
                    Registrator.contacts r
                    = map Registrator.contact_of_parsed contacts ->
                    Registrator.register_receiveResponse this r
                    = (this', es))
      /\ (forall pre c post,
             contacts = pre ++ c :: post ->
             Registrator.parsed_uri c = Registrator.ua_contact_uri this ->
             (forall c', In c' post ->
                         Registrator.parsed_uri c'
                         <> Registrator.ua_contact_uri this) ->
             contact = c
             /\ expires = match Registrator.parsed_expires c with
                          | Some e => e
                          | None => Registrator.expires this
                          end)
      /\ ((forall c, In c contacts ->
                     Registrator.parsed_uri c
                     <> Registrator.ua_contact_uri this) ->
          (exists tl, contacts = contact :: tl)
          /\ expires = match expires0 with
                       | Some e => e
                       | None => Registrator.expires this
                       end).
Proof.
  intros this expires0 contacts Hne.
  set (ours := Registrator.ua_contact_uri this).
  assert (Hrev : rev contacts <> []).
  { intros E. apply (f_equal (@rev _)) in E. rewrite rev_involutive in E.
    exact (Hne E). }
  destruct (scan_parsed_in ours (rev contacts) None Hrev) as (contact & Hc & Hin).
  apply in_rev in Hin.
  destruct (Registrator.scan_parsed ours (rev contacts) None)
    as [res matched] eqn:Escan.
  cbn [fst] in Hc. subst res.
  set (expires := match (if matched then Registrator.parsed_expires contact
                         else expires0) with
                  | Some e => e
                  | None => Registrator.expires this
                  end).
  assert (Hdecides :
    (forall pre c post,
        contacts = pre ++ c :: post ->
        Registrator.parsed_uri c = ours ->
        (forall c', In c' post -> Registrator.parsed_uri c' <> ours) ->
        contact = c
        /\ expires = match Registrator.parsed_expires c with
                     | Some e => e
                     | None => Registrator.expires this
                     end)
    /\ ((forall c, In c contacts -> Registrator.parsed_uri c <> ours) ->
        (exists tl, contacts = contact :: tl)
        /\ expires = match expires0 with
                     | Some e => e
                     | None => Registrator.expires this
                     end)).
  { split.
    - intros pre c post Hsplit Huri Hpost.
      rewrite Hsplit, rev_app_distr in Escan. cbn [rev] in Escan.
      rewrite <- app_assoc in Escan. cbn [app] in Escan.
      rewrite scan_parsed_match in Escan.
      + injection Escan as <- <-. split; reflexivity.
      + intros c' Hc'. apply Hpost. apply in_rev. exact Hc'.
      + exact Huri.
    - intros Hnone. destruct contacts as [|c0 tl]; [destruct (Hne eq_refl)|].
      cbn [rev] in Escan. rewrite scan_parsed_no_match in Escan.
      + injection Escan as <- <-. split; [exists tl; reflexivity|reflexivity].
      + intros c' Hc'. apply Hnone. apply in_rev. cbn [rev]. exact Hc'. }
  assert (Hcall :
    Registrator.receiveResponse_2xx this expires0 contacts
    = (let delay := expires * 1000 - 3000 in
       let this1 := Registrator.set_timer this delay in
       match Registrator.parsed_temp_gruu contact with
       | Registrator.NullParam =>
           (this1, [Registrator.SetTimeoutRegister delay],
            Some Registrator.null_replace)
       | temp =>
           let this2 :=
             match temp with
             | Registrator.ParamValue g =>
                 Registrator.set_gruu this1
                   (Some (Registrator.strip_quotes g))
                   (Registrator.ua_pub_gruu this1)
             | _ => this1
             end in
           match Registrator.parsed_pub_gruu contact with
           | Registrator.NullParam =>
               (this2, [Registrator.SetTimeoutRegister delay],
                Some Registrator.null_replace)
           | pub =>
               let this3 :=
                 match pub with
                 | Registrator.ParamValue g =>
                     Registrator.set_gruu this2
                       (Registrator.ua_temp_gruu this2)
                       (Some (Registrator.strip_quotes g))
                 | _ => this2
                 end in
               (Registrator.set_registered this3 true,
                [Registrator.SetTimeoutRegister delay;
                 Registrator.EmitRegistered], None)
           end
       end)).
  { unfold Registrator.receiveResponse_2xx. fold ours. rewrite Escan.
    destruct contacts; [destruct (Hne eq_refl) | reflexivity]. }
  assert (Hold : forall r,
    Registrator.resp_cseq r = Registrator.cseq this ->
    Registrator.is_2xx (Registrator.status_code r) = true ->
    Registrator.expires_hdr r = expires0 ->
    Registrator.contacts r = map Registrator.contact_of_parsed contacts ->
    Registrator.register_receiveResponse this r
    = (let delay := expires * 1000 - 3000 in
       (Registrator.set_registered
          (Registrator.set_gruu (Registrator.set_timer this delay)
             match Registrator.parsed_temp_gruu contact with
             | Registrator.ParamValue g => Some (Registrator.strip_quotes g)
             | _ => Registrator.ua_temp_gruu this
             end
             match Registrator.parsed_pub_gruu contact with
             | Registrator.ParamValue g => Some (Registrator.strip_quotes g)
             | _ => Registrator.ua_pub_gruu this
             end) true,
        [Registrator.SetTimeoutRegister delay; Registrator.EmitRegistered]))).
  { intros r Hcseq H2xx Hexp Hcs.
    unfold Registrator.register_receiveResponse.
    rewrite Hcseq, Z.eqb_refl. cbn [negb].
    assert (H1xx : Registrator.is_1xx (Registrator.status_code r) = false).
    { unfold Registrator.is_1xx, Registrator.is_2xx in *.
      apply Bool.andb_true_iff in H2xx. destruct H2xx as [Ha Hb].
      apply Z.leb_le in Ha. apply Bool.andb_false_iff. right.
      apply Z.leb_gt. lia. }
    rewrite H1xx, H2xx, Hcs, Hexp, <- map_rev. fold ours.
    change (@None Registrator.Contact)
      with (option_map Registrator.contact_of_parsed None).
    rewrite scan_contacts_of_parsed, Escan. cbn [fst snd option_map].
    destruct contacts as [|c0 tl]; [destruct (Hne eq_refl)|].
    cbn [map]. unfold expires, Registrator.contact_of_parsed.
    cbn [Registrator.temp_gruu Registrator.pub_gruu Registrator.expires_param].
    destruct (Registrator.parsed_temp_gruu contact),
      (Registrator.parsed_pub_gruu contact); reflexivity. }
  exists contact, expires.
  rewrite Hcall. unfold Registrator.valueless_gruu.
  destruct (Registrator.parsed_temp_gruu contact) eqn:Et,
    (Registrator.parsed_pub_gruu contact) eqn:Ep;
    cbv zeta; do 3 eexists;
    (split; [reflexivity|]);
    (split; [exact Hin|]);
    refine (conj eq_refl (conj eq_refl (conj eq_refl (conj _ Hdecides))));
    try (refine (conj eq_refl (conj eq_refl eq_refl)));
    (refine (conj eq_refl (conj eq_refl (conj eq_refl _)));
     intros r H1 H2 H3 H4; rewrite (Hold r H1 H2 H3 H4); reflexivity).
Qed.

(** The theorem at a response with three Contact headers of which the
    second is the last that points to the UA: without gruu parameter the
    response registers for the requested 600 s; with a temp-gruu parameter
    that has no value the call throws once the timer is armed. *)
Lemma Registrator_2xx_registers_witness :
  (snd (fst (Registrator.receiveResponse_2xx registrator_600 (Some 3600)
               [parsed_contact "sip:alice@example.com" (Some 300)
                  Registrator.NoParam Registrator.NoParam;
                parsed_contact "sip:alice@example.com" None
                  Registrator.NoParam Registrator.NoParam;
                parsed_contact "sip:carol@example.com" (Some 120)
                  Registrator.NullParam Registrator.NoParam]))
   = [Registrator.SetTimeoutRegister 597000; Registrator.EmitRegistered])
  /\ (snd (fst (Registrator.receiveResponse_2xx registrator_600 (Some 3600)
                  [parsed_contact "sip:alice@example.com" (Some 300)
                     Registrator.NoParam Registrator.NoParam;
                   parsed_contact "sip:alice@example.com" None
                     Registrator.NullParam Registrator.NoParam;
                   parsed_contact "sip:carol@example.com" (Some 120)
                     Registrator.NoParam Registrator.NoParam]))
      = [Registrator.SetTimeoutRegister 597000])
  /\ snd (Registrator.receiveResponse_2xx registrator_600 (Some 3600)
            [parsed_contact "sip:alice@example.com" (Some 300)
               Registrator.NoParam Registrator.NoParam;
             parsed_contact "sip:alice@example.com" None
               Registrator.NullParam Registrator.NoParam;
             parsed_contact "sip:carol@example.com" (Some 120)
               Registrator.NoParam Registrator.NoParam])
     = Some Registrator.null_replace.
Proof.
  destruct (Registrator_2xx_registers registrator_600 (Some 3600)
              [parsed_contact "sip:alice@example.com" (Some 300)
                 Registrator.NoParam Registrator.NoParam;
               parsed_contact "sip:alice@example.com" None
                 Registrator.NoParam Registrator.NoParam;
               parsed_contact "sip:carol@example.com" (Some 120)
                 Registrator.NullParam Registrator.NoParam]
              ltac:(discriminate))
    as (c1 & e1 & t1 & es1 & x1 & Heq1 & _ & _ & _ & _ & Hcase1 & Hlast1 & _).
  destruct (Hlast1 [parsed_contact "sip:alice@example.com" (Some 300)
                      Registrator.NoParam Registrator.NoParam]
                   (parsed_contact "sip:alice@example.com" None
                      Registrator.NoParam Registrator.NoParam)
                   [parsed_contact "sip:carol@example.com" (Some 120)
                      Registrator.NullParam Registrator.NoParam]
                   eq_refl eq_refl
                   ltac:(intros c' [<-|[]]; discriminate)) as [-> ->].
  destruct Hcase1 as (Hes1 & _).
  destruct (Registrator_2xx_registers registrator_600 (Some 3600)
              [parsed_contact "sip:alice@example.com" (Some 300)
                 Registrator.NoParam Registrator.NoParam;
               parsed_contact "sip:alice@example.com" None
                 Registrator.NullParam Registrator.NoParam;
               parsed_contact "sip:carol@example.com" (Some 120)
                 Registrator.NoParam Registrator.NoParam]
              ltac:(discriminate))
    as (c2 & e2 & t2 & es2 & x2 & Heq2 & _ & _ & _ & _ & Hcase2 & Hlast2 & _).
  destruct (Hlast2 [parsed_contact "sip:alice@example.com" (Some 300)
                      Registrator.NoParam Registrator.NoParam]
                   (parsed_contact "sip:alice@example.com" None
                      Registrator.NullParam Registrator.NoParam)
                   [parsed_contact "sip:carol@example.com" (Some 120)
                      Registrator.NoParam Registrator.NoParam]
                   eq_refl eq_refl
                   ltac:(intros c' [<-|[]]; discriminate)) as [-> ->].
  destruct Hcase2 as (Hes2 & Hx2 & _).
  rewrite Heq1, Heq2. cbn [fst snd].
  exact (conj Hes1 (conj Hes2 Hx2)).
Defined.

(** ** RequestSender: what becomes of a response *)

Section SenderResponses.
Context {A : Type} (X : RequestSender.Collaborators A).

Lemma RequestSender_send_shape (this : RequestSender.t A) :
  List.length (RequestSender.send this) = 1%nat
  /\ RequestSender.forwarded (RequestSender.send this) = [].
Proof.
  unfold RequestSender.send.
  destruct (String.eqb _ "INVITE"); [split; reflexivity|].
  destruct (String.eqb _ "ACK"); split; reflexivity.
Qed.

Lemma RequestSender_forwarded_app (e1 e2 : list RequestSender.Effect) :
  RequestSender.forwarded (e1 ++ e2)
  = RequestSender.forwarded e1 ++ RequestSender.forwarded e2.
Proof.
  induction e1 as [|e tl IH]; [reflexivity|].
  destruct e; cbn; rewrite IH; reflexivity.
Qed.

(** One response gives one effect: the response handed to the applicant,
    or one resend. *)
Lemma RequestSender_receiveResponse_one (this : RequestSender.t A)
    (r : RequestSender.Response) :
  let es := snd (RequestSender.receiveResponse X this r) in
  List.length es = 1%nat
  /\ (List.length (RequestSender.forwarded es) + RequestSender.retries es
      = 1)%nat
  /\ (RequestSender.forwarded es = [] \/ RequestSender.forwarded es = [r]).
Proof.
  cbv zeta.
  destruct (receiveResponse_cases X this r) as [[H _]|[ch (_ & _ & H & _)]];
    cbv zeta in H; rewrite H.
  - cbn. refine (conj eq_refl (conj eq_refl (or_intror eq_refl))).
  - destruct (RequestSender_send_shape
                (fst (RequestSender.receiveResponse X this r))) as [H1 H2].
    rewrite H1, H2, send_retries.
    refine (conj eq_refl (conj eq_refl (or_introl eq_refl))).
Qed.

(** A response that is not a 401 or 407, or any response when neither a
    password nor an HA1 is configured, goes to the applicant and leaves
    the sender as it was. *)
Lemma RequestSender_receiveResponse_transparent (this : RequestSender.t A)
    (r : RequestSender.Response) :
  (RequestSender.password (RequestSender.configuration this) = None
   /\ RequestSender.ha1 (RequestSender.configuration this) = None)
  \/ (RequestSender.status_code r <> 401
      /\ RequestSender.status_code r <> 407) ->
  RequestSender.receiveResponse X this r
  = (this, [RequestSender.ApplicantReceiveResponse r]).
Proof.
  intros H. unfold RequestSender.receiveResponse.
  destruct H as [[Hp Hh]|[H1 H7]].
  - rewrite Hp, Hh. cbn [RequestSender.is_some orb].
    rewrite Bool.andb_false_r. reflexivity.
  - apply Z.eqb_neq in H1, H7. rewrite H1, H7. reflexivity.
Qed.

End SenderResponses.

(** X9.  Of the responses a RequestSender receives, none is lost and none
    is handed over twice: each gives exactly one effect, either the
    response passed to the applicant or one resend, and the responses
    passed on keep their order of arrival.  When neither a password nor an
    HA1 is configured, or when no response is a 401 or 407, every response
    is passed to the applicant, nothing is resent and the sender does not
    change. *)
Theorem RequestSender_every_response_accounted :
  forall {A : Type} (X : RequestSender.Collaborators A)
         (this : RequestSender.t A) (rs : list RequestSender.Response),
    let res := RequestSender.receiveResponses X this rs in
    List.length (snd res) = List.length rs
    /\ (List.length (RequestSender.forwarded (snd res))
        + RequestSender.retries (snd res) = List.length rs)%nat
    /\ (exists keep : list bool,
           List.length keep = List.length rs
           /\ RequestSender.forwarded (snd res)
              = map snd (filter fst (combine keep rs)))
    /\ ((RequestSender.password (RequestSender.configuration this) = None
         /\ RequestSender.ha1 (RequestSender.configuration this) = None)
        \/ Forall (fun r => RequestSender.status_code r <> 401
                            /\ RequestSender.status_code r <> 407) rs ->
        res = (this, map RequestSender.ApplicantReceiveResponse rs)).
Proof.
  intros A X this rs. cbv zeta. revert this.
  induction rs as [|r tl IH]; intros this.
  - cbn. refine (conj eq_refl (conj eq_refl (conj _ (fun _ => eq_refl)))).
    exists []. split; reflexivity.
  - cbn [RequestSender.receiveResponses].
    pose proof (RequestSender_receiveResponse_one X this r)
      as (H1 & H2 & H3).
    pose proof (RequestSender_receiveResponse_transparent X this r) as Ht.
    destruct (RequestSender.receiveResponse X this r) as [this1 e1].
    cbn [fst snd] in *.
    destruct (IH this1) as (I1 & I2 & (keep & K1 & K2) & I4).
    destruct (RequestSender.receiveResponses X this1 tl) as [this2 e2].
    cbn [fst snd] in *.
    rewrite length_app, RequestSender_forwarded_app, length_app, retries_app.
    cbn [List.length].
    refine (conj _ (conj _ (conj _ _))).
    + lia.
    + lia.
    + destruct H3 as [H3|H3]; rewrite H3, K2.
      * exists (false :: keep). split; [cbn; lia | reflexivity].
      * exists (true :: keep). split; [cbn; lia | reflexivity].
    + intros Hc.
      assert (Hr : (this1, e1)
                   = (this, [RequestSender.ApplicantReceiveResponse r])).
      { apply Ht. destruct Hc as [Hc|Hc]; [left; exact Hc|].
        right. inversion Hc; assumption. }
      injection Hr as -> ->.
      assert (Hc' : (RequestSender.password (RequestSender.configuration this)
                     = None
                     /\ RequestSender.ha1 (RequestSender.configuration this)
                        = None)
                    \/ Forall (fun r => RequestSender.status_code r <> 401
                                        /\ RequestSender.status_code r <> 407)
                              tl).
      { destruct Hc as [Hc|Hc]; [left; exact Hc|].
        right. inversion Hc; assumption. }
      specialize (I4 Hc'). injection I4 as -> ->. reflexivity.
Qed.

(** ** Session: the outcome of terminate *)

(** X10.  Session.terminate either throws, and then it has changed nothing
    and produced no effect, or it leaves the session Terminated having run
    the closing steps exactly once, sent at most one SIP message (CANCEL,
    final reply or BYE) and emitted at most one final event ('ended' or
    'failed'). *)
Theorem Session_terminate_atomic :
  forall (this : Session.t) (o : Session.Options),
    let '(this', es, exn) := Session.terminate this o in
    match exn with
    | Some _ => this' = this /\ es = []
    | None =>
        Session.st this <> Session.STATUS_TERMINATED
        /\ Session.st this' = Session.STATUS_TERMINATED
        /\ Session.count Session.is_clear_timers es = 1%nat
        /\ (Session.count Session.is_sip_message es <= 1)%nat
        /\ (Session.count Session.is_final_event es <= 1)%nat
    end.
Proof.
  intros this o. unfold Session.terminate.
  destruct (Session.st this) eqn:Est; cbn [Session.is_terminated];
    try (split; [reflexivity | reflexivity]).
  - (* Null *)
    unfold Session.cancel. rewrite Est.
    destruct (Session.dir this) as [[|]|]; cbn; auto.
    destruct (Session.invalid_status_code _ _); cbn; auto.
    unfold Session.failed, Session.close; cbn. rewrite Est. cbn.
    destruct (Session.mediaSession this); cbn;
      repeat split; try discriminate; auto.
  - (* Invite sent *)
    unfold Session.cancel. rewrite Est.
    destruct (Session.dir this) as [[|]|]; cbn; auto.
    destruct (Session.invalid_status_code _ _); cbn; auto.
    destruct (Session.received_100 this);
      unfold Session.failed, Session.close; cbn; rewrite Est; cbn;
      destruct (Session.mediaSession this); cbn;
      repeat split; try discriminate; auto.
  - (* 1xx received *)
    unfold Session.cancel. rewrite Est.
    destruct (Session.dir this) as [[|]|]; cbn; auto.
    destruct (Session.invalid_status_code _ _); cbn; auto.
    unfold Session.failed, Session.close; cbn. rewrite Est. cbn.
    destruct (Session.mediaSession this); cbn;
      repeat split; try discriminate; auto.
  - (* Invite received *)
    cbn. unfold Session.close. rewrite Est. cbn.
    destruct (Session.mediaSession this); cbn;
      repeat split; try discriminate; auto.
  - (* Waiting for answer *)
    unfold Session.reject. rewrite Est.
    destruct (Session.dir this) as [[|]|]; cbn; auto.
    destruct ((_ <? 300) || _); cbn; auto.
    unfold Session.failed, Session.close; cbn. rewrite Est. cbn.
    destruct (Session.mediaSession this); cbn;
      repeat split; try discriminate; auto.
  - (* Waiting for ACK *)
    unfold Session.sendBye.
    destruct (Session.invalid_status_code _ _); cbn; auto.
    unfold Session.ended, Session.close; cbn. rewrite Est. cbn.
    destruct (Session.mediaSession this); cbn;
      repeat split; try discriminate; auto.
  - (* Canceled *)
    cbn. unfold Session.close. rewrite Est. cbn.
    destruct (Session.mediaSession this); cbn;
      repeat split; try discriminate; auto.
  - (* Confirmed *)
    unfold Session.sendBye.
    destruct (Session.invalid_status_code _ _); cbn; auto.
    unfold Session.ended, Session.close; cbn. rewrite Est. cbn.
    destruct (Session.mediaSession this); cbn;
      repeat split; try discriminate; auto.
Qed.

(** ** RTCSession: the DTMF queue *)

Lemma string_get_nth_error (ts : string) : forall p,
  RTCSession.string_get p ts = nth_error (list_ascii_of_string ts) p.
Proof.
  induction ts as [|a ts IH]; intros [|p]; cbn; try reflexivity. apply IH.
Qed.

Lemma String_length_list (ts : string) :
  String.length ts = List.length (list_ascii_of_string ts).
Proof. induction ts as [|a ts IH]; cbn; [reflexivity | rewrite IH; reflexivity]. Qed.

Lemma skipn_nth_error_cons {T : Type} (l : list T) : forall p x,
  nth_error l p = Some x -> skipn p l = x :: skipn (S p) l.
Proof.
  induction l as [|a l IH]; intros [|p] x H; cbn in *; try discriminate.
  - injection H as ->. reflexivity.
  - rewrite (IH p x H). reflexivity.
Qed.

Lemma RTCSession_sent_tones_app (e1 e2 : list RTCSession.Effect) :
  RTCSession.sent_tones (e1 ++ e2)
  = RTCSession.sent_tones e1 ++ RTCSession.sent_tones e2.
Proof.
  induction e1 as [|e tl IH]; [reflexivity|].
  destruct e; cbn; rewrite IH; reflexivity.
Qed.

Lemma RTCSession_timeouts_app (e1 e2 : list RTCSession.Effect) :
  RTCSession.timeouts (e1 ++ e2)
  = RTCSession.timeouts e1 ++ RTCSession.timeouts e2.
Proof.
  induction e1 as [|e tl IH]; [reflexivity|].
  destruct e; cbn; rewrite IH; reflexivity.
Qed.

Lemma RTCSession_play_from (n : nat) :
  forall (this : RTCSession.t) (l : RTCSession.Loop) (ts : string),
    RTCSession.tones this = Some ts ->
    RTCSession.is_terminated (RTCSession.st this) = false ->
    (String.length ts - RTCSession.position l < n)%nat ->
    let chars := skipn (RTCSession.position l) (list_ascii_of_string ts) in
    let r := RTCSession.play n this l in
    RTCSession.tones (fst r) = None
    /\ RTCSession.st (fst r) = RTCSession.st this
    /\ RTCSession.sent_tones (snd r)
       = map (fun c => (c, RTCSession.l_duration l))
             (filter (fun c => negb (Ascii.eqb c ",")) chars)
    /\ RTCSession.timeouts (snd r)
       = map (fun c => if Ascii.eqb c "," then 2000
                       else RTCSession.l_duration l + RTCSession.l_gap l)
             chars.
Proof.
  induction n as [|n IH]; intros this l ts Hts Hst Hfuel; [lia|].
  cbv zeta. cbn [RTCSession.play]. unfold RTCSession._sendDTMF.
  rewrite Hts, Hst. cbn [orb].
  destruct (String.eqb ts "") eqn:Eempty.
  - apply String.eqb_eq in Eempty. subst ts. cbn.
    rewrite skipn_nil. repeat split; reflexivity.
  - cbn [orb].
    destruct (String.length ts <=? RTCSession.position l)%nat eqn:Elen.
    + apply Nat.leb_le in Elen. cbn.
      rewrite skipn_all2 by (rewrite <- String_length_list; exact Elen).
      repeat split; reflexivity.
    + apply Nat.leb_gt in Elen.
      rewrite string_get_nth_error.
      destruct (nth_error (list_ascii_of_string ts) (RTCSession.position l))
        as [tone|] eqn:Eget.
      2:{ apply nth_error_None in Eget.
          rewrite <- String_length_list in Eget. lia. }
      rewrite (skipn_nth_error_cons _ _ _ Eget).
      set (l' := {| RTCSession.position := S (RTCSession.position l);
                    RTCSession.l_duration := RTCSession.l_duration l;
                    RTCSession.l_gap := RTCSession.l_gap l |}).
      assert (Hfuel' : (String.length ts - RTCSession.position l' < n)%nat)
        by (cbn; lia).
      pose proof (IH this l' ts Hts Hst Hfuel') as (I1 & I2 & I3 & I4).
      cbv zeta in I1, I2, I3, I4. cbn [RTCSession.position l'] in I3, I4.
      cbn [RTCSession.l_duration RTCSession.l_gap l'] in I3, I4.
      destruct (Ascii.eqb tone ",") eqn:Ecomma;
        destruct (RTCSession.play n this l') as [this2 es2];
        cbn [fst snd] in *;
        rewrite RTCSession_sent_tones_app, RTCSession_timeouts_app;
        cbn [filter map RTCSession.sent_tones RTCSession.timeouts app];
        rewrite Ecomma; cbn [negb map]; rewrite I3, I4;
        repeat split; assumption || reflexivity.
Qed.

Lemma tones_match_nonempty (s : string) :
  RTCSession.tones_match s = true -> String.eqb s "" = false.
Proof.
  unfold RTCSession.tones_match. intros H.
  apply Bool.andb_true_iff in H. destruct H as [H _].
  apply Bool.negb_true_iff in H. exact H.
Qed.

Lemma check_tones_nonempty (tns : RTCSession.Tones) (s : string) :
  RTCSession.check_tones tns = Some s -> String.eqb s "" = false.
Proof.
  unfold RTCSession.check_tones. intros H.
  destruct tns as [|n|s'|]; try discriminate.
  - destruct (RTCSession.tones_match _) eqn:E; [|discriminate].
    injection H as <-. apply tones_match_nonempty, E.
  - destruct (RTCSession.tones_match _) eqn:E; [|discriminate].
    injection H as <-. apply tones_match_nonempty, E.
Qed.

(** X11.  In a session that is Confirmed or waiting for the ACK and has no
    tones queued, a sendDTMF call whose arguments pass the checks starts
    the queue, and when the timers it arms fire one after the other with
    nothing else happening, the queue is played to its end: one INFO
    request per tone that is not a comma, in the order of the string, each
    with the checked duration; one timer per character, of 2000 ms for a
    comma and of duration plus gap for a tone; the queue is empty
    afterwards. *)
Theorem sendDTMF_plays_queue_in_order :
  forall (this : RTCSession.t) (tns : RTCSession.Tones)
         (o : RTCSession.DTMFOptions) (s : string) (d g : Z),
    RTCSession.st this = RTCSession.STATUS_CONFIRMED
    \/ RTCSession.st this = RTCSession.STATUS_WAITING_FOR_ACK ->
    RTCSession.tones_queued this = false ->
    RTCSession.check_tones tns = Some s ->
    RTCSession.check_duration (RTCSession.duration o) = Some d ->
    RTCSession.check_interToneGap (RTCSession.interToneGap o) = Some g ->
    exists this1 l es,
      RTCSession.sendDTMF this tns o = (this1, Some l, es, None)
      /\ forall fuel,
          (String.length s <= fuel)%nat ->
          let r := RTCSession.play fuel this1 l in
          RTCSession.tones (fst r) = None
          /\ RTCSession.sent_tones (es ++ snd r)
             = map (fun c => (c, d))
                   (filter (fun c => negb (Ascii.eqb c ","))
                           (list_ascii_of_string s))
          /\ RTCSession.timeouts (es ++ snd r)
             = map (fun c => if Ascii.eqb c "," then 2000 else d + g)
                   (list_ascii_of_string s).
Proof.
  intros this tns o s d g Hst Hq Hts Hd Hg.
  pose proof (check_tones_nonempty tns s Hts) as Hne.
  set (this0 := RTCSession.set_tones this (Some s)).
  set (l0 := {| RTCSession.position := 0; RTCSession.l_duration := d;
                RTCSession.l_gap := g |}).
  assert (Hterm : RTCSession.is_terminated (RTCSession.st this0) = false)
    by (destruct Hst as [E|E]; cbn; rewrite E; reflexivity).
  assert (Hsend : RTCSession.sendDTMF this tns o
                  = (let '(t1, l, es) := RTCSession._sendDTMF this0 l0 in
                     (t1, l, es, None))).
  { unfold RTCSession.sendDTMF. rewrite Hts, Hd, Hg, Hq.
    destruct tns; [discriminate Hts| | |];
      destruct Hst as [E|E]; rewrite E; reflexivity. }
  assert (Hfirst : exists t1 l1 es1,
             RTCSession._sendDTMF this0 l0 = (t1, Some l1, es1)).
  { unfold RTCSession._sendDTMF. cbn [RTCSession.tones this0
      RTCSession.set_tones RTCSession.position l0].
    change (RTCSession.st (RTCSession.set_tones this (Some s)))
      with (RTCSession.st this0).
    rewrite Hterm, Hne. cbn [orb].
    destruct s as [|c tl]; [discriminate Hne|]. cbn.
    destruct (Ascii.eqb c ","); eauto. }
  destruct Hfirst as (t1 & l1 & es1 & Hfirst).
  rewrite Hfirst in Hsend.
  exists t1, l1, es1. split; [exact Hsend|].
  intros fuel Hfuel.
  pose proof (RTCSession_play_from (S fuel) this0 l0 s eq_refl Hterm
                ltac:(cbn; lia)) as H.
  cbv zeta in H. cbn [RTCSession.play] in H. rewrite Hfirst in H.
  cbn [RTCSession.position RTCSession.l_duration RTCSession.l_gap l0 skipn]
    in H.
  destruct (RTCSession.play fuel t1 l1) as [t2 es2].
  cbn [fst snd] in *. destruct H as (H1 & _ & H3 & H4).
  exact (conj H1 (conj H3 H4)).
Qed.

Lemma sendDTMF_plays_queue_in_order_witness :
  RTCSession.sent_tones
    (snd (fst (RTCSession.sendDTMF (session_with_tones None)
                 (RTCSession.TonesString "1,#")
                 default_dtmf_options))
       ++ snd (RTCSession.play 3
                 (fst (fst (fst (RTCSession.sendDTMF
                                   (session_with_tones None)
                                   (RTCSession.TonesString "1,#")
                                   default_dtmf_options))))
                 second_tone))
  = [("1"%char, 100); ("#"%char, 100)].
Proof.
  destruct (sendDTMF_plays_queue_in_order (session_with_tones None)
              (RTCSession.TonesString "1,#") default_dtmf_options
              "1,#" 100 500 (or_introl eq_refl) eq_refl eq_refl eq_refl
              eq_refl) as (this1 & l & es & Hsend & Hplay).
  rewrite Hsend. cbn [fst snd].
  assert (Hl : l = second_tone).
  { vm_compute in Hsend. injection Hsend as _ Hl _. symmetry. exact Hl. }
  subst l.
  destruct (Hplay 3%nat ltac:(cbn; lia)) as (_ & H & _).
  exact H.
Defined.

Lemma check_duration_range (x : RTCSession.OptNum) (d : Z) :
  RTCSession.check_duration x = Some d ->
  RTCSession.MIN_DURATION <= d <= RTCSession.MAX_DURATION.
Proof.
  unfold RTCSession.check_duration, RTCSession.MIN_DURATION,
    RTCSession.MAX_DURATION, RTCSession.DEFAULT_DURATION.
  destruct x as [|n|]; intros H; try discriminate.
  - injection H as <-. lia.
  - destruct (Z.eqb_spec n 0); [injection H as <-; lia|].
    destruct (Z.ltb_spec n 70); [injection H as <-; lia|].
    destruct (Z.ltb_spec 6000 n); injection H as <-; lia.
Qed.

Lemma check_interToneGap_range (x : RTCSession.OptNum) (g : Z) :
  RTCSession.check_interToneGap x = Some g ->
  RTCSession.MIN_INTER_TONE_GAP <= g.
Proof.
  unfold RTCSession.check_interToneGap, RTCSession.MIN_INTER_TONE_GAP,
    RTCSession.DEFAULT_INTER_TONE_GAP.
  destruct x as [|n|]; intros H; try discriminate.
  - injection H as <-. lia.
  - destruct (Z.eqb_spec n 0); [injection H as <-; lia|].
    destruct (Z.ltb_spec n 50); injection H as <-; lia.
Qed.

Lemma _sendDTMF_effects (this : RTCSession.t) (l : RTCSession.Loop) :
  let es := snd (RTCSession._sendDTMF this l) in
  (forall tone dur, In (RTCSession.DTMFSend tone dur) es ->
                    dur = RTCSession.l_duration l)
  /\ (forall ms, In (RTCSession.SetTimeoutSendDTMF ms) es ->
                 ms = 2000
                 \/ ms = RTCSession.l_duration l + RTCSession.l_gap l).
Proof.
  cbv zeta. unfold RTCSession._sendDTMF.
  destruct (RTCSession.tones this) as [ts|]; [|split; intros; contradiction].
  destruct (_ || _); [split; intros; contradiction|].
  destruct (RTCSession.string_get _ _) as [tone|];
    [|split; intros; contradiction].
  destruct (Ascii.eqb tone ","); cbn [snd]; split.
  - intros t d [H|[]]. discriminate.
  - intros ms [H|[]]. injection H as <-. left. reflexivity.
  - intros t d [H|[H|[]]]; [|discriminate]. injection H as _ <-. reflexivity.
  - intros ms [H|[H|[]]]; [discriminate|]. injection H as <-.
    right. reflexivity.
Qed.

(** X12.  A sendDTMF call that throws has changed nothing, sent nothing
    and armed no timer.  A call that returns while tones are queued only
    appends its tones to the queue.  Whatever the options, an INFO request
    sent by the call has a duration between 70 and 6000 ms, and a timer
    armed is of 2000 ms (the comma) or of at least 120 ms. *)
Theorem sendDTMF_outcome :
  forall (this : RTCSession.t) (tns : RTCSession.Tones)
         (o : RTCSession.DTMFOptions),
    let '(this', l, es, exn) := RTCSession.sendDTMF this tns o in
    match exn with
    | Some _ => this' = this /\ l = None /\ es = []
    | None =>
        (RTCSession.tones_queued this = true ->
         l = None /\ es = []
         /\ exists q s, RTCSession.tones this = Some q
                        /\ RTCSession.check_tones tns = Some s
                        /\ this' = RTCSession.set_tones this
                                     (Some (q ++ s)%string))
        /\ (forall tone dur, In (RTCSession.DTMFSend tone dur) es ->
                             70 <= dur <= 6000)
        /\ (forall ms, In (RTCSession.SetTimeoutSendDTMF ms) es ->
                       ms = 2000 \/ 120 <= ms)
    end.
Proof.
  intros this tns o. unfold RTCSession.sendDTMF.
  assert (Hbody :
    let '(this', l, es, exn) :=
      match RTCSession.check_tones tns with
      | None => (this, None, [], Some (TypeError "Invalid tones"))
      | Some s =>
          match RTCSession.check_duration (RTCSession.duration o) with
          | None => (this, None, [], Some (TypeError "Invalid tone duration"))
          | Some d =>
              match RTCSession.check_interToneGap
                      (RTCSession.interToneGap o) with
              | None => (this, None, [],
                         Some (TypeError "Invalid interToneGap"))
              | Some g =>
                  if RTCSession.tones_queued this
                  then
                    (RTCSession.set_tones this
                       (match RTCSession.tones this with
                        | Some q => Some (q ++ s)%string
                        | None => Some s
                        end),
                     None, [], None)
                  else
                    let '(this1, l, es) :=
                      RTCSession._sendDTMF
                        (RTCSession.set_tones this (Some s))
                        {| RTCSession.position := 0;
                           RTCSession.l_duration := d;
                           RTCSession.l_gap := g |} in
                    (this1, l, es, None)
              end
          end
      end in
    match exn with
    | Some _ => this' = this /\ l = None /\ es = []
    | None =>
        (RTCSession.tones_queued this = true ->
         l = None /\ es = []
         /\ exists q s, RTCSession.tones this = Some q
                        /\ RTCSession.check_tones tns = Some s
                        /\ this' = RTCSession.set_tones this
                                     (Some (q ++ s)%string))
        /\ (forall tone dur, In (RTCSession.DTMFSend tone dur) es ->
                             70 <= dur <= 6000)
        /\ (forall ms, In (RTCSession.SetTimeoutSendDTMF ms) es ->
                       ms = 2000 \/ 120 <= ms)
    end).
  { destruct (RTCSession.check_tones tns) as [s|] eqn:Hts; [|auto].
    destruct (RTCSession.check_duration _) as [d|] eqn:Hd; [|auto].
    destruct (RTCSession.check_interToneGap _) as [g|] eqn:Hg; [|auto].
    apply check_duration_range in Hd.
    apply check_interToneGap_range in Hg.
    unfold RTCSession.MIN_DURATION, RTCSession.MAX_DURATION,
      RTCSession.MIN_INTER_TONE_GAP in *.
    destruct (RTCSession.tones_queued this) eqn:Hq.
    - refine (conj _ (conj _ _)).
      + intros _. refine (conj eq_refl (conj eq_refl _)).
        unfold RTCSession.tones_queued in Hq.
        destruct (RTCSession.tones this) as [q|]; [|discriminate].
        exists q, s. repeat split; reflexivity.
      + intros tone dur [].
      + intros ms [].
    - pose proof (_sendDTMF_effects
                    (RTCSession.set_tones this (Some s))
                    {| RTCSession.position := 0;
                       RTCSession.l_duration := d;
                       RTCSession.l_gap := g |}) as [He1 He2].
      destruct (RTCSession._sendDTMF _ _) as [[this1 l] es].
      cbn [snd RTCSession.l_duration RTCSession.l_gap] in *.
      refine (conj _ (conj _ _)).
      + intros H. discriminate H.
      + intros tone dur Hin. rewrite (He1 tone dur Hin). exact Hd.
      + intros ms Hin. destruct (He2 ms Hin) as [->| ->];
          [left; reflexivity | right; lia]. }
  destruct tns; [auto| | |];
    destruct (RTCSession.st this); try exact Hbody; auto.
Qed.

(** X13.  Tones given to sendDTMF while a queue is being played are played
    after the tones still waiting, by the loop of the call that started
    the queue, and so with the duration and the gap of that call, not with
    those of the call that added them: every INFO request carries the
    duration of the running loop, and every timer is of 2000 ms for a comma
    and of the running loop's duration plus its gap for a tone. *)
Theorem sendDTMF_appends_to_running_queue :
  forall (this : RTCSession.t) (tns : RTCSession.Tones)
         (o : RTCSession.DTMFOptions) (q s : string) (d g : Z)
         (l : RTCSession.Loop) (fuel : nat),
    RTCSession.st this = RTCSession.STATUS_CONFIRMED
    \/ RTCSession.st this = RTCSession.STATUS_WAITING_FOR_ACK ->
    RTCSession.tones this = Some q -> q <> "" ->
    RTCSession.check_tones tns = Some s ->
    RTCSession.check_duration (RTCSession.duration o) = Some d ->
    RTCSession.check_interToneGap (RTCSession.interToneGap o) = Some g ->
    (String.length (q ++ s) - RTCSession.position l < fuel)%nat ->
    exists this1,
      RTCSession.sendDTMF this tns o = (this1, None, [], None)
      /\ RTCSession.sent_tones (snd (RTCSession.play fuel this1 l))
         = map (fun c => (c, RTCSession.l_duration l))
               (filter (fun c => negb (Ascii.eqb c ","))
                       (skipn (RTCSession.position l)
                              (list_ascii_of_string (q ++ s))))
      /\ RTCSession.timeouts (snd (RTCSession.play fuel this1 l))
         = map (fun c => if Ascii.eqb c "," then 2000
                         else RTCSession.l_duration l + RTCSession.l_gap l)
               (skipn (RTCSession.position l)
                      (list_ascii_of_string (q ++ s)))
      /\ RTCSession.tones (fst (RTCSession.play fuel this1 l)) = None.
Proof.
  intros this tns o q s d g l fuel Hst Hq Hne Hts Hd Hg Hfuel.
  exists (RTCSession.set_tones this (Some (q ++ s)%string)).
  assert (Hqueued : RTCSession.tones_queued this = true).
  { unfold RTCSession.tones_queued. rewrite Hq.
    apply Bool.negb_true_iff. apply String.eqb_neq. exact Hne. }
  split.
  - unfold RTCSession.sendDTMF. rewrite Hts, Hd, Hg, Hqueued, Hq.
    destruct tns; [discriminate Hts| | |];
      destruct Hst as [E|E]; rewrite E; reflexivity.
  - assert (Hterm : RTCSession.is_terminated
                      (RTCSession.st (RTCSession.set_tones this
                                        (Some (q ++ s)%string))) = false)
      by (destruct Hst as [E|E]; cbn; rewrite E; reflexivity).
    pose proof (RTCSession_play_from fuel
                  (RTCSession.set_tones this (Some (q ++ s)%string)) l
                  (q ++ s)%string eq_refl Hterm Hfuel) as (H1 & _ & H3 & H4).
    exact (conj H3 (conj H4 H1)).
Qed.

(** The theorem at the queue [12] being played with the default duration
    and gap, when a call asking for 300 ms and 80 ms adds the tone [3]. *)
Lemma sendDTMF_appends_to_running_queue_witness :
  RTCSession.sent_tones
    (snd (RTCSession.play 5
            (fst (fst (fst (RTCSession.sendDTMF
                              (session_with_tones (Some "12"))
                              (RTCSession.TonesString "3")
                              long_dtmf_options))))
            second_tone))
  = [("2"%char, 100); ("3"%char, 100)]
  /\ RTCSession.timeouts
       (snd (RTCSession.play 5
               (fst (fst (fst (RTCSession.sendDTMF
                                 (session_with_tones (Some "12"))
                                 (RTCSession.TonesString "3")
                                 long_dtmf_options))))
               second_tone))
     = [600; 600].
Proof.
  destruct (sendDTMF_appends_to_running_queue
              (session_with_tones (Some "12")) (RTCSession.TonesString "3")
              long_dtmf_options "12" "3" 300 80 second_tone 5
              (or_introl eq_refl) eq_refl ltac:(discriminate) eq_refl
              eq_refl eq_refl ltac:(cbn; lia))
    as (this1 & Hsend & Hplay & Htimers & _).
  rewrite Hsend. cbn [fst]. exact (conj Hplay Htimers).
Defined.

(** ** RTCSession: the outcome of terminate *)

Lemma RTCSession_count_app (p : RTCSession.Effect -> bool)
    (e1 e2 : list RTCSession.Effect) :
  RTCSession.count p (e1 ++ e2)
  = (RTCSession.count p e1 + RTCSession.count p e2)%nat.
Proof.
  unfold RTCSession.count. rewrite filter_app, length_app. reflexivity.
Qed.

Lemma RTCSession_count_map_terminate (p : RTCSession.Effect -> bool)
    (ds : list nat) :
  p (RTCSession.DialogTerminate 0) = false ->
  (forall d, p (RTCSession.DialogTerminate d)
             = p (RTCSession.DialogTerminate 0)) ->
  RTCSession.count p (map RTCSession.DialogTerminate ds) = 0%nat.
Proof.
  intros H0 Hd. unfold RTCSession.count.
  induction ds as [|d tl IH]; [reflexivity|].
  cbn. rewrite Hd, H0. exact IH.
Qed.

(** [_close] on a session that is not Terminated: the session becomes
    Terminated, without a final event or a SIP message. *)
Lemma RTCSession_close_shape (this : RTCSession.t) :
  RTCSession.is_terminated (RTCSession.st this) = false ->
  let r := RTCSession._close this in
  RTCSession.st (fst r) = RTCSession.STATUS_TERMINATED
  /\ RTCSession.deferredBye (fst r) = RTCSession.deferredBye this
  /\ RTCSession.count RTCSession.is_final_event (snd r) = 0%nat
  /\ RTCSession.count RTCSession.is_sip_message (snd r) = 0%nat.
Proof.
  intros Hst. cbv zeta. unfold RTCSession._close. rewrite Hst.
  cbn [fst snd]. refine (conj eq_refl (conj eq_refl _)).
  rewrite !RTCSession_count_app.
  rewrite !RTCSession_count_map_terminate by (intros; reflexivity).
  destruct (RTCSession.connection this), (RTCSession.localMediaStream this),
    (RTCSession.dialog this); split; reflexivity.
Qed.

Lemma RTCSession_failed_shape (this : RTCSession.t) (c : RTCSession.Cause) :
  RTCSession.is_terminated (RTCSession.st this) = false ->
  let r := RTCSession.failed this c in
  RTCSession.st (fst r) = RTCSession.STATUS_TERMINATED
  /\ RTCSession.deferredBye (fst r) = RTCSession.deferredBye this
  /\ RTCSession.count RTCSession.is_final_event (snd r) = 1%nat
  /\ RTCSession.count RTCSession.is_sip_message (snd r) = 0%nat.
Proof.
  intros Hst. cbv zeta. unfold RTCSession.failed.
  pose proof (RTCSession_close_shape this Hst) as (H1 & H2 & H3 & H4).
  destruct (RTCSession._close this) as [t1 es]. cbn [fst snd] in *.
  rewrite !RTCSession_count_app, H3, H4. repeat split; assumption.
Qed.

Lemma RTCSession_ended_shape (this : RTCSession.t) (c : RTCSession.Cause) :
  RTCSession.is_terminated (RTCSession.st this) = false ->
  let r := RTCSession.ended this c in
  RTCSession.st (fst r) = RTCSession.STATUS_TERMINATED
  /\ RTCSession.deferredBye (fst r) = RTCSession.deferredBye this
  /\ RTCSession.count RTCSession.is_final_event (snd r) = 1%nat
  /\ RTCSession.count RTCSession.is_sip_message (snd r) = 0%nat.
Proof.
  intros Hst. cbv zeta. unfold RTCSession.ended.
  pose proof (RTCSession_close_shape this Hst) as (H1 & H2 & H3 & H4).
  destruct (RTCSession._close this) as [t1 es]. cbn [fst snd] in *.
  rewrite !RTCSession_count_app, H3, H4. repeat split; assumption.
Qed.

(** X14.  RTCSession.terminate in the states InviteReceived and Canceled
    does nothing at all: it returns without throwing and without changing
    the session.  In every other state, when it returns, the session is
    Terminated, exactly one final event was emitted and at most one SIP
    message was sent (the CANCEL, the final reply or the BYE); no message is
    sent when the BYE is put off until the ACK.  When it throws it has
    changed nothing and done nothing, except in the one case of a BYE put
    off on a session without a dialog. *)
Theorem RTCSession_terminate_outcome :
  forall (this : RTCSession.t) (o : RTCSession.Options),
    let '(this', es, exn) := RTCSession.terminate this o in
    if RTCSession.no_terminate_case (RTCSession.st this)
    then this' = this /\ es = [] /\ exn = None
    else
      match exn with
      | Some _ =>
          (this' = this /\ es = [])
          \/ (RTCSession.st this = RTCSession.STATUS_WAITING_FOR_ACK
              /\ RTCSession.dir this = Some RTCSession.incoming
              /\ RTCSession.dialog this = None)
      | None =>
          RTCSession.st this' = RTCSession.STATUS_TERMINATED
          /\ RTCSession.count RTCSession.is_final_event es = 1%nat
          /\ (RTCSession.count RTCSession.is_sip_message es <= 1)%nat
          /\ (RTCSession.deferredBye this' <> RTCSession.deferredBye this ->
              RTCSession.count RTCSession.is_sip_message es = 0%nat
              /\ RTCSession.dialog this' = RTCSession.dialog this)
      end.
Proof.
  intros this o. unfold RTCSession.terminate.
  destruct (RTCSession.st this) eqn:Est;
    cbn [RTCSession.is_terminated RTCSession.no_terminate_case];
    try (left; split; reflexivity);
    try (refine (conj eq_refl (conj eq_refl eq_refl))).
  - (* Null *)
    destruct (RTCSession.invalid_status_code _); [left; split; reflexivity|].
    match goal with
    | |- context [RTCSession.failed ?s ?c] =>
        pose proof (RTCSession_failed_shape s c eq_refl) as (H1 & H2 & H3 & H4);
        destruct (RTCSession.failed s c) as [t2 es2]
    end.
    cbn [fst snd app] in *. rewrite H3, H4.
    refine (conj H1 (conj eq_refl (conj _ _))); [lia|].
    intros Hd. destruct (Hd H2).
  - (* Invite sent *)
    destruct (RTCSession.invalid_status_code _); [left; split; reflexivity|].
    match goal with
    | |- context [RTCSession.failed ?s ?c] =>
        pose proof (RTCSession_failed_shape s c eq_refl) as (H1 & H2 & H3 & H4);
        destruct (RTCSession.failed s c) as [t2 es2]
    end.
    cbn [fst snd app] in *. rewrite H3, H4.
    refine (conj H1 (conj eq_refl (conj _ _))); [lia|].
    intros Hd. destruct (Hd H2).
  - (* 1xx received *)
    destruct (RTCSession.invalid_status_code _); [left; split; reflexivity|].
    match goal with
    | |- context [RTCSession.failed ?s ?c] =>
        pose proof (RTCSession_failed_shape s c eq_refl) as (H1 & H2 & H3 & H4);
        destruct (RTCSession.failed s c) as [t2 es2]
    end.
    cbn [fst snd app] in *.
    change (RTCSession.count ?p (?e :: es2))
      with (RTCSession.count p ([e] ++ es2)).
    rewrite !RTCSession_count_app, H3, H4.
    refine (conj H1 (conj eq_refl (conj _ _))); [cbn; lia|].
    intros Hd. destruct (Hd H2).
  - (* Waiting for answer *)
    destruct ((_ <? 300) || _); [left; split; reflexivity|].
    pose proof (RTCSession_failed_shape this RTCSession.REJECTED
                  ltac:(rewrite Est; reflexivity)) as (H1 & H2 & H3 & H4).
    destruct (RTCSession.failed this RTCSession.REJECTED) as [t2 es2].
    cbn [fst snd] in *.
    change (RTCSession.count ?p (?e :: es2))
      with (RTCSession.count p ([e] ++ es2)).
    rewrite !RTCSession_count_app, H3, H4.
    refine (conj H1 (conj eq_refl (conj _ _))); [cbn; lia|].
    intros Hd. destruct (Hd H2).
  - (* Answered *)
    destruct ((_ <? 300) || _); [left; split; reflexivity|].
    pose proof (RTCSession_failed_shape this RTCSession.REJECTED
                  ltac:(rewrite Est; reflexivity)) as (H1 & H2 & H3 & H4).
    destruct (RTCSession.failed this RTCSession.REJECTED) as [t2 es2].
    cbn [fst snd] in *.
    change (RTCSession.count ?p (?e :: es2))
      with (RTCSession.count p ([e] ++ es2)).
    rewrite !RTCSession_count_app, H3, H4.
    refine (conj H1 (conj eq_refl (conj _ _))); [cbn; lia|].
    intros Hd. destruct (Hd H2).
  - (* Waiting for ACK *)
    destruct (RTCSession.invalid_status_code _); [left; split; reflexivity|].
    set (cause := match RTCSession.cause o with
                  | Some c => if String.eqb c "" then RTCSession.BYE
                              else RTCSession.UserCause c
                  | None => RTCSession.BYE
                  end).
    set (headers := match RTCSession.status_code o with
                    | Some v => if v =? 0 then RTCSession.extraHeaders o
                                else _
                    | None => RTCSession.extraHeaders o
                    end).
    destruct (match RTCSession.dir this with
              | Some RTCSession.incoming =>
                  negb (RTCSession.server_transaction_terminated this)
              | _ => false
              end) eqn:Ewait.
    + assert (Hdir : RTCSession.dir this = Some RTCSession.incoming).
      { destruct (RTCSession.dir this) as [[|]|]; try discriminate.
        reflexivity. }
      match goal with
      | |- context [RTCSession.ended ?s ?c] =>
          pose proof (RTCSession_ended_shape s c
                        ltac:(cbn; rewrite Est; reflexivity))
            as (H1 & H2 & H3 & H4);
          destruct (RTCSession.ended s c) as [t2 es2]
      end.
      cbn [fst snd] in *.
      destruct (RTCSession.dialog this) as [dlg|] eqn:Edlg.
      * rewrite !RTCSession_count_app, H3, H4.
        refine (conj H1 (conj eq_refl (conj _ _))); [cbn; lia|].
        intros _. split; reflexivity.
      * right. repeat split; assumption.
    + match goal with
      | |- context [RTCSession.ended ?s ?c] =>
          pose proof (RTCSession_ended_shape s c
                        ltac:(rewrite Est; reflexivity))
            as (H1 & H2 & H3 & H4);
          destruct (RTCSession.ended s c) as [t2 es2]
      end.
      cbn [fst snd] in *.
      change (RTCSession.count ?p (?e :: es2))
        with (RTCSession.count p ([e] ++ es2)).
      rewrite !RTCSession_count_app, H3, H4.
      refine (conj H1 (conj eq_refl (conj _ _))); [cbn; lia|].
      intros Hd. destruct (Hd H2).
  - (* Confirmed *)
    destruct (RTCSession.invalid_status_code _); [left; split; reflexivity|].
    match goal with
    | |- context [RTCSession.ended ?s ?c] =>
        pose proof (RTCSession_ended_shape s c
                      ltac:(rewrite Est; reflexivity))
          as (H1 & H2 & H3 & H4);
        destruct (RTCSession.ended s c) as [t2 es2]
    end.
    cbn [fst snd] in *.
    change (RTCSession.count ?p (?e :: es2))
      with (RTCSession.count p ([e] ++ es2)).
    rewrite !RTCSession_count_app, H3, H4.
    refine (conj H1 (conj eq_refl (conj _ _))); [cbn; lia|].
    intros Hd. destruct (Hd H2).
Qed.

(** ** RTCSession: mute and hold *)

Lemma Forall_map_const {T : Type} (P : T -> Prop) (l : list T) (v : T) :
  P v -> Forall P (map (fun _ => v) l).
Proof. intros H. induction l; cbn; constructor; assumption. Qed.

Lemma setLocalMediaStatus_follows (L : RTCSession.Local) :
  RTCSession.tracks_follow_flags (RTCSession.setLocalMediaStatus L)
  /\ RTCSession.session (RTCSession.setLocalMediaStatus L)
     = RTCSession.session L
  /\ RTCSession.audioMuted (RTCSession.setLocalMediaStatus L)
     = RTCSession.audioMuted L
  /\ RTCSession.videoMuted (RTCSession.setLocalMediaStatus L)
     = RTCSession.videoMuted L
  /\ RTCSession.rtcReady (RTCSession.setLocalMediaStatus L)
     = RTCSession.rtcReady L.
Proof.
  unfold RTCSession.tracks_follow_flags, RTCSession.setLocalMediaStatus.
  cbn. refine (conj (conj _ _) (conj eq_refl (conj eq_refl (conj eq_refl
                eq_refl)))).
  - apply Forall_map_const.
    destruct (RTCSession.localHold _ || RTCSession.remoteHold _),
      (RTCSession.audioMuted L); reflexivity.
  - apply Forall_map_const.
    destruct (RTCSession.localHold _ || RTCSession.remoteHold _),
      (RTCSession.videoMuted L); reflexivity.
Qed.

Lemma tracks_follow_flags_rtcReady (L : RTCSession.Local) (b : bool) :
  RTCSession.tracks_follow_flags L ->
  RTCSession.tracks_follow_flags (RTCSession.with_rtcReady L b).
Proof. intros H. exact H. Qed.

(** One call leaves the tracks as they were when it changes no flag, and
    sets them by the flags when it changes one. *)
Lemma media_call_follows (L : RTCSession.Local) (c : RTCSession.MediaCall) :
  (snd (RTCSession.media_call L c) = []
   /\ fst (RTCSession.media_call L c) = L)
  \/ (snd (RTCSession.media_call L c) <> []
      /\ RTCSession.tracks_follow_flags (fst (RTCSession.media_call L c))).
Proof.
  destruct c as [o|o|o|o]; cbn [RTCSession.media_call].
  - unfold RTCSession.mute.
    destruct (negb (RTCSession.audioMuted L) && RTCSession.audio o) eqn:Ea;
      cbn [RTCSession.videoMuted RTCSession.toogleMuteAudio
           RTCSession.with_muted];
      destruct (negb (RTCSession.videoMuted L) && RTCSession.video o) eqn:Ev;
      cbn [orb RTCSession.onmute fst snd];
      try (right; split;
           [discriminate | apply setLocalMediaStatus_follows]).
    left. split; reflexivity.
  - unfold RTCSession.unmute.
    destruct (RTCSession.audioMuted L && RTCSession.audio o) eqn:Ea.
    + right.
      match goal with
      | |- context [let '(L2, v) := ?x in _] => destruct x as [L2 v]
      end.
      cbn [orb RTCSession.onunmute fst snd].
      split; [discriminate | apply setLocalMediaStatus_follows].
    + destruct (RTCSession.videoMuted L && RTCSession.video o) eqn:Ev.
      * right. cbn [orb RTCSession.onunmute fst snd].
        split; [discriminate | apply setLocalMediaStatus_follows].
      * left. split; reflexivity.
  - unfold RTCSession.hold.
    destruct (negb (RTCSession.established _)); [left; split; reflexivity|].
    destruct (RTCSession.localHold _); [left; split; reflexivity|].
    destruct (negb (RTCSession._isReadyToReOffer L));
      [left; split; reflexivity|].
    right. destruct (RTCSession.useUpdate o); cbn;
      (split; [discriminate|]);
      apply tracks_follow_flags_rtcReady, setLocalMediaStatus_follows.
  - unfold RTCSession.unhold.
    destruct (negb (RTCSession.established _)); [left; split; reflexivity|].
    destruct (negb (RTCSession.localHold _)); [left; split; reflexivity|].
    destruct (negb (RTCSession._isReadyToReOffer L));
      [left; split; reflexivity|].
    right. destruct (RTCSession.useUpdate o); cbn;
      (split; [discriminate|]);
      apply tracks_follow_flags_rtcReady, setLocalMediaStatus_follows.
Qed.

(** X15.  Through any sequence of mute, unmute, hold and unhold calls the
    local tracks follow the flags: when every audio (video) track was
    enabled exactly if the session was on hold on neither side and audio
    (video) was not muted, the same is true afterwards, so that unmuting
    while on hold does not switch a track on.  Whatever the tracks were
    before, a call that emits an event leaves them in that state, and so
    does a sequence of calls of which one emits an event. *)
Theorem media_tracks_follow_flags :
  forall (L : RTCSession.Local) (cs : list RTCSession.MediaCall),
    (RTCSession.tracks_follow_flags L ->
     RTCSession.tracks_follow_flags (fst (RTCSession.media_calls L cs)))
    /\ (snd (RTCSession.media_calls L cs) <> [] ->
        RTCSession.tracks_follow_flags (fst (RTCSession.media_calls L cs)))
    /\ (forall c, snd (RTCSession.media_call L c) <> [] ->
                  RTCSession.tracks_follow_flags
                    (fst (RTCSession.media_call L c)))
    /\ (forall o,
           RTCSession.tracks_follow_flags L
           \/ snd (RTCSession.unmute L o) <> [] ->
           RTCSession.localHold (RTCSession.session L)
           || RTCSession.remoteHold (RTCSession.session L) = true ->
           Forall (fun b => b = false)
                  (RTCSession.audioTracks
                     (fst (RTCSession.unmute L o)))).
Proof.
  intros L cs.
  assert (Hinv : forall cs0 L0,
             RTCSession.tracks_follow_flags L0 ->
             RTCSession.tracks_follow_flags
               (fst (RTCSession.media_calls L0 cs0))).
  { induction cs0 as [|c tl IH]; intros L0 H; [exact H|].
    cbn [RTCSession.media_calls].
    pose proof (media_call_follows L0 c) as Hc.
    destruct (RTCSession.media_call L0 c) as [L1 e1]. cbn [fst snd] in Hc.
    specialize (IH L1).
    destruct (RTCSession.media_calls L1 tl) as [L2 e2]. cbn [fst] in *.
    apply IH. destruct Hc as [[_ ->]|[_ Hc]]; assumption. }
  refine (conj (Hinv cs L) (conj _ (conj _ _))).
  - revert L. induction cs as [|c tl IH]; intros L Hne;
      [destruct (Hne eq_refl)|].
    cbn [RTCSession.media_calls] in *.
    pose proof (media_call_follows L c) as Hc.
    destruct (RTCSession.media_call L c) as [L1 e1]. cbn [fst snd] in Hc.
    specialize (IH L1). specialize (Hinv tl L1).
    destruct (RTCSession.media_calls L1 tl) as [L2 e2]. cbn [fst snd] in *.
    destruct Hc as [[-> _]|[_ Hc]].
    + apply IH. exact Hne.
    + apply Hinv. exact Hc.
  - intros c Hne. destruct (media_call_follows L c) as [[He _]|[_ Hc]];
      [contradiction | exact Hc].
  - intros o H Hheld.
    assert (Hsess : RTCSession.session (fst (RTCSession.unmute L o))
                    = RTCSession.session L).
    { unfold RTCSession.unmute.
      destruct (RTCSession.audioMuted L && RTCSession.audio o);
        destruct (negb (RTCSession.localHold (RTCSession.session _)));
        cbn; destruct (_ && RTCSession.video o); cbn;
        try destruct (negb (RTCSession.localHold (RTCSession.session L)));
        reflexivity. }
    destruct (media_call_follows L (RTCSession.CallUnmute o))
      as [[Hnil He]|[_ Hc]]; cbn [RTCSession.media_call] in *.
    + rewrite He. destruct H as [[Ha _]|Hne]; [|destruct (Hne Hnil)].
      rewrite Hheld in Ha. exact Ha.
    + destruct Hc as [Ha _]. rewrite Hsess, Hheld in Ha. exact Ha.
Qed.

(** The theorem at a session whose tracks follow the flags, and at one
    whose audio track is enabled although audio is muted: the first mute
    call that emits an event puts the track right. *)
Lemma media_tracks_follow_flags_witness :
  RTCSession.audioTracks
    (fst (RTCSession.media_calls local_session
            [RTCSession.CallMute mute_audio;
             RTCSession.CallHold hold_by_reinvite;
             RTCSession.CallUnmute unmute_all]))
  = [false]
  /\ RTCSession.tracks_follow_flags
       (fst (RTCSession.media_calls local_session
               [RTCSession.CallMute mute_audio;
                RTCSession.CallHold hold_by_reinvite;
                RTCSession.CallUnmute unmute_all]))
  /\ ~ RTCSession.tracks_follow_flags stray_session
  /\ RTCSession.tracks_follow_flags
       (fst (RTCSession.media_call stray_session
               (RTCSession.CallMute mute_video))).
Proof.
  split; [reflexivity|]. split.
  - apply (proj1 (media_tracks_follow_flags local_session
                    [RTCSession.CallMute mute_audio;
                     RTCSession.CallHold hold_by_reinvite;
                     RTCSession.CallUnmute unmute_all])).
    split; cbn; repeat constructor.
  - split.
    + intros [Ha _]. cbn in Ha. inversion Ha as [|b tl Hb _]. discriminate Hb.
    + apply (proj1 (proj2 (proj2 (media_tracks_follow_flags stray_session
                                    [])))).
      intros H. vm_compute in H. discriminate H.
Defined.

(** X16.  hold() returns true exactly when the session is Confirmed or
    waiting for the ACK, is not on local hold, and is ready to re-offer
    (WebRTC ready, a dialog, no INVITE or UPDATE pending); otherwise it
    changes nothing.  When it returns true the session is on local hold,
    'hold' is emitted with originator local, one re-offer is started (an
    UPDATE if asked for, a re-INVITE otherwise), every local track is
    disabled, and the session is not ready to re-offer: an unhold() made
    before the offer has been created returns false and leaves the session
    on hold. *)
Theorem hold_outcome :
  forall (L : RTCSession.Local) (o o' : RTCSession.HoldOptions),
    let '(L1, es, ok) := RTCSession.hold L o in
    (ok = RTCSession.established (RTCSession.st (RTCSession.session L))
          && negb (RTCSession.localHold (RTCSession.session L))
          && RTCSession._isReadyToReOffer L)
    /\ (ok = false -> L1 = L /\ es = [])
    /\ (ok = true ->
        RTCSession.localHold (RTCSession.session L1) = true
        /\ es = [RTCSession.EmitHold RTCSession.local;
                 RTCSession.SendReOffer
                   (if RTCSession.useUpdate o then RTCSession.ByUpdate
                    else RTCSession.ByReinvite)
                   (RTCSession.hold_extraHeaders o)]
        /\ Forall (fun b => b = false) (RTCSession.audioTracks L1)
        /\ Forall (fun b => b = false) (RTCSession.videoTracks L1)
        /\ RTCSession._isReadyToReOffer L1 = false
        /\ RTCSession.unhold L1 o' = (L1, [], false)
        /\ RTCSession.hold L1 o' = (L1, [], false)).
Proof.
  intros L o o'. unfold RTCSession.hold.
  destruct (RTCSession.established (RTCSession.st (RTCSession.session L)))
    eqn:Eest; cbn [negb andb];
    [|refine (conj eq_refl (conj (fun _ => conj eq_refl eq_refl) _));
      discriminate].
  destruct (RTCSession.localHold (RTCSession.session L)) eqn:Eh;
    cbn [negb andb];
    [refine (conj eq_refl (conj (fun _ => conj eq_refl eq_refl) _));
     discriminate|].
  destruct (RTCSession._isReadyToReOffer L) eqn:Er; cbn [negb];
    [|refine (conj eq_refl (conj (fun _ => conj eq_refl eq_refl) _));
      discriminate].
  assert (Hafter : forall L1 : RTCSession.Local,
             RTCSession.session L1
             = RTCSession.set_localHold (RTCSession.session L) true ->
             RTCSession.rtcReady L1 = false ->
             RTCSession.localHold (RTCSession.session L1) = true
             /\ RTCSession._isReadyToReOffer L1 = false
             /\ RTCSession.unhold L1 o' = (L1, [], false)
             /\ RTCSession.hold L1 o' = (L1, [], false)).
  { intros L1 Hs Hr.
    assert (Hready : RTCSession._isReadyToReOffer L1 = false)
      by (unfold RTCSession._isReadyToReOffer; rewrite Hr; reflexivity).
    refine (conj _ (conj Hready (conj _ _))).
    - rewrite Hs. reflexivity.
    - unfold RTCSession.unhold. rewrite Hready, Hs. cbn.
      rewrite Eest. reflexivity.
    - unfold RTCSession.hold. rewrite Hs. cbn. rewrite Eest. reflexivity. }
  destruct (RTCSession.useUpdate o);
    cbn [RTCSession.onhold RTCSession.sendUpdate RTCSession.sendReinvite
         RTCSession.createLocalDescription app];
    (refine (conj eq_refl (conj _ _)); [discriminate|]);
    intros _;
    match goal with
    | |- context [RTCSession.unhold ?L1 o'] =>
        destruct (Hafter L1 eq_refl eq_refl) as (H1 & H2 & H3 & H4)
    end;
    unfold RTCSession.hold in H4;
    (refine (conj H1 (conj eq_refl (conj _ (conj _ (conj H2
               (conj H3 H4)))))));
    apply Forall_map_const; reflexivity.
Qed.

(** ** UA: the reception of requests *)

Ltac method_cases request :=
  repeat match goal with
         | |- context [String.eqb (UA.method request) ?m] =>
             destruct (String.eqb_spec (UA.method request) m)
         | H : context [String.eqb (UA.method request) ?m] |- _ =>
             destruct (String.eqb_spec (UA.method request) m)
         end.

Ltac method_clash :=
  match goal with
  | H1 : UA.method ?r = _, H2 : UA.method ?r = _ |- _ =>
      rewrite H1 in H2; discriminate H2
  | H1 : UA.method ?r = ?m, H2 : UA.method ?r <> ?m |- _ =>
      destruct (H2 H1)
  end.

(** X17.  A request whose Request-URI user is not ours gets the stateless
    404 and nothing else; a retransmission is left to its transaction.
    Any other request that is neither an OPTIONS nor a MESSAGE has one
    outcome at most: it is answered once, or handed to one handler (a new
    session, an existing session or a dialog), never both and never twice;
    a server transaction is created for it unless it is an ACK; and when it
    carries a To tag and a dialog is found for it, the dialog is its
    handler. *)
Theorem receiveRequest_one_outcome :
  forall (ua : UA.Tables) (request : UA.IncomingRequest),
    let es := UA.receiveRequest ua request in
    (UA.option_string_eqb (UA.ruri_user request) (UA.user ua) = false ->
     es = [UA.ReplyStateless 404])
    /\ (UA.option_string_eqb (UA.ruri_user request) (UA.user ua) = true ->
        UA.retransmission ua = true -> es = [])
    /\ (UA.option_string_eqb (UA.ruri_user request) (UA.user ua) = true ->
        UA.retransmission ua = false ->
        UA.method request <> JsSIP_C.OPTIONS ->
        UA.method request <> JsSIP_C.MESSAGE ->
        (List.length (UA.replies es)
         + List.length (filter UA.is_handler es) <= 1)%nat
        /\ List.length (filter UA.is_transaction es)
           = (if String.eqb (UA.method request) JsSIP_C.ACK
              then 0 else 1)%nat
        /\ (forall d, UA.has_to_tag request = true ->
                      UA.findDialog ua request = Some d ->
                      In (UA.DialogReceiveRequest d) es)).
Proof.
  intros ua request es. unfold es, UA.receiveRequest. clear es.
  refine (conj _ (conj _ _)).
  - intros ->. reflexivity.
  - intros -> ->. reflexivity.
  - intros -> -> Hopt Hmsg. cbn [negb].
    destruct (String.eqb_spec (UA.method request) JsSIP_C.OPTIONS) as [E|_];
      [destruct (Hopt E)|].
    destruct (String.eqb_spec (UA.method request) JsSIP_C.MESSAGE) as [E|_];
      [destruct (Hmsg E)|].
    unfold strict_neq.
    destruct (UA.has_to_tag request) eqn:Etag; cbn [negb].
    + destruct (UA.findDialog ua request) as [d|] eqn:Ed.
      * method_cases request; try method_clash; cbn;
          (refine (conj _ (conj eq_refl _)); [lia|]);
          intros d' _ Hd; injection Hd as <-; cbn; auto.
      * destruct (UA.findSession ua request) as [s|];
          method_cases request; try method_clash; cbn;
          (refine (conj _ (conj eq_refl _)); [lia|]);
          intros d' _ Hd; discriminate Hd.
    + destruct (UA.is_registered ua), (UA.webrtc_supported ua),
        (UA.findSession ua request) as [s|];
        method_cases request; try method_clash; cbn;
        (refine (conj _ (conj eq_refl _)); [lia|]);
        intros d' Hd; discriminate Hd.
Qed.

Lemma receiveRequest_one_outcome_witness :
  UA.receiveRequest ua_tables (request_of "BYE" (Some "t1"))
  = [UA.NewNonInviteServerTransaction; UA.DialogReceiveRequest 7]
  /\ In (UA.DialogReceiveRequest 7)
        (UA.receiveRequest ua_tables (request_of "BYE" (Some "t1"))).
Proof.
  split; [reflexivity|].
  destruct (receiveRequest_one_outcome ua_tables
              (request_of "BYE" (Some "t1"))) as (_ & _ & H).
  destruct (H eq_refl eq_refl ltac:(discriminate) ltac:(discriminate))
    as (_ & _ & Hd).
  exact (Hd 7%nat eq_refl eq_refl).
Defined.

(** X18.  An OPTIONS request without To tag is answered twice: with 200,
    and then with 410 when the UA is not registered and with 405 when it
    is.  A MESSAGE request without To tag that has a listener is handed to
    a new Message and then answered in the same way, with 410 or 405;
    without a listener it is answered 405 once.  Inside a dialog, for a
    request whose dialog identifiers name no member of [Object.prototype],
    both are passed on to the dialog after the 200 or the new Message, and
    answered 481 when no dialog is found. *)
Theorem receiveRequest_options_and_message :
  forall (ua : UA.Tables) (request : UA.IncomingRequest),
    UA.option_string_eqb (UA.ruri_user request) (UA.user ua) = true ->
    UA.retransmission ua = false ->
    let es := UA.receiveRequest ua request in
    let second := if UA.is_registered ua then 405 else 410 in
    (UA.method request = JsSIP_C.OPTIONS ->
     (UA.has_to_tag request = false ->
      es = [UA.NewNonInviteServerTransaction;
            UA.Reply 200 None [UA.Allow; UA.Accept];
            UA.Reply second None []])
     /\ (UA.has_to_tag request = true ->
         UA.plain_dialog_ids request = true ->
         es = [UA.NewNonInviteServerTransaction;
               UA.Reply 200 None [UA.Allow; UA.Accept];
               match UA.findDialog ua request with
               | Some d => UA.DialogReceiveRequest d
               | None => UA.Reply 481 None []
               end]))
    /\ (UA.method request = JsSIP_C.MESSAGE ->
        (UA.newMessage_listeners ua = false ->
         es = [UA.NewNonInviteServerTransaction;
               UA.Reply 405 None [UA.Allow]])
        /\ (UA.newMessage_listeners ua = true ->
            UA.has_to_tag request = false ->
            es = [UA.NewNonInviteServerTransaction; UA.MessageInitIncoming;
                  UA.Reply second None []])
        /\ (UA.newMessage_listeners ua = true ->
            UA.has_to_tag request = true ->
            UA.plain_dialog_ids request = true ->
            es = [UA.NewNonInviteServerTransaction; UA.MessageInitIncoming;
                  match UA.findDialog ua request with
                  | Some d => UA.DialogReceiveRequest d
                  | None => UA.Reply 481 None []
                  end])).
Proof.
  intros ua request Huser Hretr es second. unfold es, second.
  unfold UA.receiveRequest. rewrite Huser, Hretr. cbn [negb].
  unfold strict_neq. split.
  - intros Hm. rewrite Hm. cbn. split.
    + intros ->. cbn. destruct (UA.is_registered ua); reflexivity.
    + intros -> _. cbn. destruct (UA.findDialog ua request); reflexivity.
  - intros Hm. rewrite Hm. cbn. refine (conj _ (conj _ _)).
    + intros ->. reflexivity.
    + intros -> ->. cbn. destruct (UA.is_registered ua); reflexivity.
    + intros -> -> _. cbn. destruct (UA.findDialog ua request); reflexivity.
Qed.

(** The theorem at an OPTIONS request outside any dialog, and at one inside
    the dialog of the sample UA. *)
Lemma receiveRequest_options_and_message_witness :
  UA.replies (UA.receiveRequest ua_tables (request_of "OPTIONS" None))
  = [200; 405]
  /\ UA.receiveRequest ua_tables (request_of "OPTIONS" (Some "t1"))
     = [UA.NewNonInviteServerTransaction;
        UA.Reply 200 None [UA.Allow; UA.Accept];
        UA.DialogReceiveRequest 7].
Proof.
  destruct (receiveRequest_options_and_message ua_tables
              (request_of "OPTIONS" None) eq_refl eq_refl) as [Ho _].
  destruct (Ho eq_refl) as [H _].
  destruct (receiveRequest_options_and_message ua_tables
              (request_of "OPTIONS" (Some "t1")) eq_refl eq_refl) as [Ho' _].
  destruct (Ho' eq_refl) as [_ H'].
  split.
  - rewrite (H eq_refl). reflexivity.
  - rewrite (H' eq_refl eq_refl). reflexivity.
Defined.

(** ** Message: accept and reject *)

(** X19.  accept and reject work on a Message exactly when it came in:
    after init_incoming accept sends one 200 with the headers and body
    given, while on a Message that was sent, or that is new, both throw
    NotSupportedError and send nothing.  reject on an incoming Message
    answers once, with the reason, headers and body given and with the
    status code given, or 480 when none (or 0) is given, when that code
    lies in 300..699; for every other code it throws a TypeError and sends
    nothing.  Neither call changes the Message. *)
Theorem Message_accept_reject :
  forall (this : Message.t) (nist_open : bool) (o : Message.ReplyOptions),
    let inc := fst (Message.init_incoming this nist_open) in
    let out := fst (Message.send this) in
    let status_code := match Message.o_status_code o with
                       | Some v => if v =? 0 then 480 else v
                       | None => 480
                       end in
    Message.accept inc o
    = (inc, [{| Message.code := 200; Message.reason := None;
                Message.reply_headers := Message.o_extraHeaders o;
                Message.reply_body := Message.o_body o |}], None)
    /\ Message.accept out o = (out, [], Some NotSupportedError)
    /\ Message.reject out o = (out, [], Some NotSupportedError)
    /\ Message.accept Message.constructor o
       = (Message.constructor, [], Some NotSupportedError)
    /\ Message.reject Message.constructor o
       = (Message.constructor, [], Some NotSupportedError)
    /\ (300 <= status_code < 700 ->
        Message.reject inc o
        = (inc, [{| Message.code := status_code;
                    Message.reason := Message.o_reason_phrase o;
                    Message.reply_headers := Message.o_extraHeaders o;
                    Message.reply_body := Message.o_body o |}], None))
    /\ (status_code < 300 \/ 700 <= status_code ->
        exists msg,
          Message.reject inc o = (inc, [], Some (TypeError msg))).
Proof.
  intros this nist_open o inc out status_code.
  assert (Hinc : Message.is_incoming inc = true).
  { unfold inc, Message.init_incoming, Message.newMessage, Message.close.
    cbn. reflexivity. }
  assert (Hout : Message.is_incoming out = false).
  { unfold out, Message.send, Message.newMessage. cbn. reflexivity. }
  assert (Hcode : (if truthy (Message.o_status_code o)
                   then match Message.o_status_code o with
                        | Some v => v
                        | None => 480
                        end
                   else 480) = status_code).
  { unfold status_code, truthy.
    destruct (Message.o_status_code o) as [v|]; [|reflexivity].
    destruct (v =? 0); reflexivity. }
  refine (conj _ (conj _ (conj _ (conj eq_refl (conj eq_refl (conj _ _)))))).
  - unfold Message.accept. rewrite Hinc. reflexivity.
  - unfold Message.accept. rewrite Hout. reflexivity.
  - unfold Message.reject. rewrite Hout. reflexivity.
  - intros Hrange. unfold Message.reject. rewrite Hinc, Hcode. cbn [negb].
    destruct (Z.ltb_spec status_code 300); [lia|].
    destruct (Z.leb_spec 700 status_code); [lia|]. reflexivity.
  - intros Hrange. unfold Message.reject. rewrite Hinc, Hcode. cbn [negb].
    destruct (Z.ltb_spec status_code 300); [eexists; reflexivity|].
    destruct (Z.leb_spec 700 status_code); [eexists; reflexivity|]. lia.
Qed.

(** ** Session: cancelling before a provisional response *)



(** ** UA: the configuration *)

Lemma optional_interval (v : UA.Setting) (d n : Z) :
  0 < d ->
  UA.optional UA.check_connection_recovery_min_interval d v = Some n ->
  0 < n /\ (v = UA.NotGiven -> n = d) /\ (forall m, v = UA.Given m -> n = m).
Proof.
  intros Hd H. destruct v as [|m]; cbn in H.
  - injection H as <-. repeat split; [exact Hd | discriminate].
  - unfold UA.check_connection_recovery_min_interval in H.
    destruct (Z.eqb_spec m 0); [discriminate|].
    destruct (Z.ltb_spec m 0); [discriminate|].
    injection H as <-. repeat split; [lia | discriminate |].
    intros m' Hm. injection Hm as <-. reflexivity.
Qed.

(** X21.  When loadConfig accepts a configuration, the settings it stores
    satisfy what the transport recovery relies on: the minimum recovery
    interval is positive and not above the maximum.  Besides, the answer
    timeout is stored in milliseconds and lies between 1000 and 600000, and
    register_expires is not zero.  A parameter that is not given takes its
    default: 2 and 30 seconds for the intervals, 60 seconds for the answer
    timeout, 600 for register_expires. *)
Theorem loadConfig_settings :
  forall (c : UA.RawConfiguration) (s : UA.Settings)
         (servers : list UA.ws_server) (reg : bool),
    UA.loadConfig c = Some s ->
    let cfg := UA.configure s servers reg in
    0 < UA.connection_recovery_min_interval cfg
    /\ UA.connection_recovery_min_interval cfg
       <= UA.connection_recovery_max_interval cfg
    /\ 1000 <= UA.s_no_answer_timeout s <= 600000
    /\ UA.s_register_expires s <> 0
    /\ (UA.raw_connection_recovery_min_interval c = UA.NotGiven ->
        UA.connection_recovery_min_interval cfg = 2)
    /\ (UA.raw_connection_recovery_max_interval c = UA.NotGiven ->
        UA.connection_recovery_max_interval cfg = 30)
    /\ (UA.raw_no_answer_timeout c = UA.NotGiven ->
        UA.s_no_answer_timeout s = 60000)
    /\ (UA.raw_register_expires c = UA.NotGiven ->
        UA.s_register_expires s = 600).
Proof.
  intros c s servers reg H cfg. unfold cfg, UA.configure.
  cbn [UA.connection_recovery_min_interval
       UA.connection_recovery_max_interval].
  unfold UA.loadConfig in H.
  destruct (negb (UA.mandatory_valid c)); [discriminate|].
  destruct (negb (UA.others_valid c)); [discriminate|].
  destruct (UA.optional UA.check_register_expires 600 _) as [re|] eqn:Ere;
    [|discriminate].
  destruct (UA.optional UA.check_no_answer_timeout 60 _) as [na|] eqn:Ena;
    [|discriminate].
  destruct (UA.optional UA.check_connection_recovery_min_interval 2 _)
    as [mi|] eqn:Emi; [|discriminate].
  destruct (UA.optional UA.check_connection_recovery_max_interval 30 _)
    as [ma|] eqn:Ema; [|discriminate].
  destruct (Z.ltb_spec ma mi) as [|Hle]; [discriminate|].
  injection H as <-.
  cbn [UA.s_connection_recovery_min_interval
       UA.s_connection_recovery_max_interval UA.s_no_answer_timeout
       UA.s_register_expires].
  destruct (optional_interval _ 2 mi ltac:(lia) Emi) as (Hmi & Hmid & _).
  destruct (optional_interval _ 30 ma ltac:(lia) Ema) as (_ & Hmad & _).
  refine (conj Hmi (conj Hle (conj _ (conj _ (conj Hmid (conj Hmad
           (conj _ _))))))).
  - destruct (UA.raw_no_answer_timeout c) as [|n]; cbn in Ena.
    + injection Ena as <-. lia.
    + unfold UA.check_no_answer_timeout in Ena.
      destruct (Z.eqb_spec n 0); [discriminate|].
      destruct (Z.ltb_spec n 0); [discriminate|].
      destruct (Z.ltb_spec 600 n); [discriminate|].
      injection Ena as <-. lia.
  - destruct (UA.raw_register_expires c) as [|n]; cbn in Ere.
    + injection Ere as <-. discriminate.
    + unfold UA.check_register_expires in Ere.
      destruct (Z.eqb_spec n 0); [discriminate|].
      injection Ere as <-. assumption.
  - intros Hn. rewrite Hn in Ena. cbn in Ena. injection Ena as <-.
    reflexivity.
  - intros Hn. rewrite Hn in Ere. cbn in Ere. injection Ere as <-.
    reflexivity.
Qed.

Lemma loadConfig_settings_witness :
  UA.loadConfig (raw_intervals (UA.Given 5) UA.NotGiven) = Some settings_5_30
  /\ UA.connection_recovery_min_interval
       (UA.configure settings_5_30 [] true)
     <= UA.connection_recovery_max_interval
          (UA.configure settings_5_30 [] true).
Proof.
  split; [reflexivity|].
  exact (proj1 (proj2 (loadConfig_settings
                         (raw_intervals (UA.Given 5) UA.NotGiven)
                         settings_5_30 [] true eq_refl))).
Defined.

(** ** UA: the UserClosed status and the transport *)

(** X22.  While the UA is UserClosed a successful connection changes
    neither its status nor anything the user sees: the recovery counter is
    reset, no 'connected' is emitted and nothing is registered.  A
    transport error that leaves no usable server, on the other hand, takes
    the UA out of UserClosed (unless the network error was recorded
    before): its status becomes NotReady and the recovery starts, and when
    the transport opened by the recovery timer connects, the UA becomes
    Ready, emits 'connected' and registers again if registration is
    configured. *)
Theorem UserClosed_and_transport :
  forall (rn rs rk : Q) (ua : UA.t) (i j : nat),
    UA.status ua = UA_C.STATUS_USER_CLOSED ->
    (let r := UA.onTransportConnected ua j in
     UA.status (fst r) = UA_C.STATUS_USER_CLOSED
     /\ snd r = []
     /\ UA.transportRecoverAttempts (fst r) = 0)
    /\ (UA.error ua <> Some UA.UA_NETWORK_ERROR ->
        UA.getNextWsServer rn
          (UA.set_servers ua
             (UA.mark_server (UA.ws_servers (UA.configuration ua)) i
                             UA.WS_SERVER_ERROR)) = None ->
        let r1 := UA.onTransportError rn rs rk ua i in
        UA.status (fst r1) = UA_C.STATUS_NOT_READY
        /\ (exists timer, In (UA.SetTimeout timer) (snd r1))
        /\ forall timer,
            In (UA.SetTimeout timer) (snd r1) ->
            let r2 := UA.onRecoveryTimer (fst r1) timer in
            snd r2 = [UA.NewTransport (UA.server timer)]
            /\ let r3 := UA.onTransportConnected (fst r2) j in
               UA.status (fst r3) = UA_C.STATUS_READY
               /\ UA.error (fst r3) = None
               /\ In UA.EmitConnected (snd r3)
               /\ (UA.register (UA.configuration ua) = true ->
                   In UA.Register (snd r3)
                   \/ In UA.RegistratorOnTransportConnected (snd r3))).
Proof.
  intros rn rs rk ua i j Hst. split.
  - cbv zeta. unfold UA.onTransportConnected.
    cbn [UA.status UA.set_servers UA.set_attempts UA.set_transport].
    rewrite Hst. cbn. repeat split; try reflexivity. exact Hst.
  - intros Herr Hnone. cbv zeta.
    unfold UA.onTransportError. rewrite Hnone.
    set (ua1 := UA.set_servers ua _).
    assert (He1 : UA.error ua1 = UA.error ua) by reflexivity.
    set (ua2 := match UA.error ua1 with
                | Some UA.UA_NETWORK_ERROR => ua1
                | _ => UA.set_status_error ua1 UA_C.STATUS_NOT_READY
                                           (Some UA.UA_NETWORK_ERROR)
                end).
    assert (Hs2 : UA.status ua2 = UA_C.STATUS_NOT_READY).
    { unfold ua2. rewrite He1.
      destruct (UA.error ua) as [[|]|];
        [reflexivity | destruct (Herr eq_refl) | reflexivity]. }
    assert (Hr2 : UA.register (UA.configuration ua2)
                  = UA.register (UA.configuration ua)).
    { unfold ua2. rewrite He1.
      destruct (UA.error ua) as [[|]|]; reflexivity. }
    pose proof (recoverTransport_arms_timer rs rk ua2) as Htimer.
    assert (Hfst : fst (UA.recoverTransport rs rk ua2)
                   = UA.set_servers ua2
                       (map (fun s => UA.with_status s 0)
                            (UA.ws_servers (UA.configuration ua2))))
      by reflexivity.
    destruct (UA.recoverTransport rs rk ua2) as [ua3 es].
    cbn [fst snd] in *. subst ua3.
    refine (conj Hs2 (conj _ _)).
    + destruct Htimer as [timer Ht]. exists timer. right. right. exact Ht.
    + intros timer _. split; [reflexivity|].
      unfold UA.onTransportConnected, UA.onRecoveryTimer.
      cbn [fst UA.status UA.set_servers UA.set_attempts UA.set_transport
           UA.configuration UA.register UA.registrator UA.set_status_error].
      rewrite Hs2. cbn [UA_C.status_eqb]. rewrite Hr2.
      destruct (UA.register (UA.configuration ua)) eqn:Ereg;
        destruct (UA.registrator ua2); cbn;
        repeat split; auto; intros H; try discriminate H.
Qed.

Lemma UserClosed_and_transport_witness :
  UA.status
    (fst (UA.onTransportConnected
            (UA.set_status_error ua_recovering UA_C.STATUS_USER_CLOSED None)
            0))
  = UA_C.STATUS_USER_CLOSED.
Proof.
  exact (proj1 (proj1 (UserClosed_and_transport (1 # 2) (1 # 2) (1 # 2)
                         (UA.set_status_error ua_recovering
                            UA_C.STATUS_USER_CLOSED None)
                         0 0 eq_refl))).
Defined.

(** ** RTCSession: what hold does to an offer *)

Lemma mangleMedia_never_enables (l r : bool) (m : RTCSession.Media) :
  let m' := RTCSession.mangleMedia l r m in
  RTCSession.m_type m' = RTCSession.m_type m
  /\ RTCSession.m_rest m' = RTCSession.m_rest m
  /\ (sends (RTCSession.m_direction m') = true ->
      sends (RTCSession.m_direction m) = true)
  /\ (receives (RTCSession.m_direction m') = true ->
      receives (RTCSession.m_direction m) = true)
  /\ (l = true -> RTCSession.not_hold_type (RTCSession.m_type m) = false ->
      receives (RTCSession.m_direction m') = false)
  /\ (l = true \/ r = false ->
      RTCSession.mangleMedia l r m' = m').
Proof.
  cbv zeta. unfold RTCSession.mangleMedia.
  destruct l, r; cbn [andb negb];
    destruct (RTCSession.not_hold_type (RTCSession.m_type m)) eqn:Et;
    try (destruct (RTCSession.m_direction m) as [[| | |]|] eqn:Ed);
    cbn [RTCSession.with_direction RTCSession.m_type RTCSession.m_rest
         RTCSession.m_direction];
    rewrite ?Et, ?Ed;
    cbn [RTCSession.with_direction RTCSession.m_type RTCSession.m_rest
         RTCSession.m_direction sends receives];
    repeat split; auto; try discriminate;
    try (intros [H|H]; discriminate H).
Qed.

(** X23.  Putting an offer on hold never adds anything to it: mangleSdp
    keeps the number, the order, the types and the other lines of the
    media sections, and no section can send or receive afterwards unless it
    could before.  Under local hold no audio or video section of the result
    can receive.  Mangling twice gives the same as mangling once, except
    under a hold by the remote side alone. *)
Theorem mangleSdp_never_enables :
  forall (l r : bool) (sdp : RTCSession.Sdp),
    let sdp' := RTCSession.mangleSdp l r sdp in
    RTCSession.session_level sdp' = RTCSession.session_level sdp
    /\ map RTCSession.m_type (RTCSession.media sdp')
       = map RTCSession.m_type (RTCSession.media sdp)
    /\ map RTCSession.m_rest (RTCSession.media sdp')
       = map RTCSession.m_rest (RTCSession.media sdp)
    /\ (forall i m m',
           nth_error (RTCSession.media sdp) i = Some m ->
           nth_error (RTCSession.media sdp') i = Some m' ->
           (sends (RTCSession.m_direction m') = true ->
            sends (RTCSession.m_direction m) = true)
           /\ (receives (RTCSession.m_direction m') = true ->
               receives (RTCSession.m_direction m) = true))
    /\ (l = true ->
        forall m', In m' (RTCSession.media sdp') ->
                   RTCSession.not_hold_type (RTCSession.m_type m') = false ->
                   receives (RTCSession.m_direction m') = false)
    /\ (l = true \/ r = false -> RTCSession.mangleSdp l r sdp' = sdp').
Proof.
  intros l r sdp. cbv zeta. unfold RTCSession.mangleSdp.
  cbn [RTCSession.session_level RTCSession.media].
  refine (conj eq_refl (conj _ (conj _ (conj _ (conj _ _))))).
  - rewrite map_map. apply map_ext. intros m.
    apply (mangleMedia_never_enables l r m).
  - rewrite map_map. apply map_ext. intros m.
    apply (mangleMedia_never_enables l r m).
  - intros i m m' Hm Hm'. rewrite nth_error_map, Hm in Hm'.
    cbn in Hm'. injection Hm' as <-.
    destruct (mangleMedia_never_enables l r m) as (_ & _ & Hs & Hr & _).
    split; assumption.
  - intros Hl m' Hin Hty. apply in_map_iff in Hin.
    destruct Hin as [m [<- _]].
    destruct (mangleMedia_never_enables l r m) as (Ht & _ & _ & _ & H & _).
    cbv zeta in Ht. rewrite Ht in Hty. exact (H Hl Hty).
  - intros H. f_equal. rewrite map_map.
    apply map_ext. intros m.
    destruct (mangleMedia_never_enables l r m) as (_ & _ & _ & _ & _ & Hi).
    exact (Hi H).
Qed.

(** ** RequestSender: the CSeq of an authenticated REGISTER *)

Lemma RequestSender_register_step {A : Type}
    (X : RequestSender.Collaborators A) (this : RequestSender.t A)
    (r : RequestSender.Response) :
  RequestSender.resp_method r = JsSIP_C.REGISTER ->
  RequestSender.cseq (RequestSender.request this)
  = RequestSender.applicant_cseq this ->
  let res := RequestSender.receiveResponse X this r in
  RequestSender.cseq (RequestSender.request (fst res))
  = RequestSender.applicant_cseq (fst res)
  /\ RequestSender.applicant_cseq (fst res)
     = RequestSender.applicant_cseq this
       + Z.of_nat (RequestSender.retries (snd res)).
Proof.
  intros Hm Heq. cbv zeta. unfold RequestSender.receiveResponse.
  destruct (((RequestSender.status_code r =? 401)
             || (RequestSender.status_code r =? 407))
            && _); [|cbn; split; [exact Heq | lia]].
  destruct (if RequestSender.status_code r =? 401
            then (RequestSender.www_authenticate r, "authorization")
            else (RequestSender.proxy_authenticate r, "proxy-authorization"))
    as [[ch|] name]; [|cbn; split; [exact Heq | lia]].
  destruct (negb (RequestSender.challenged this) || _);
    [|cbn; split; [exact Heq | lia]].
  destruct (RequestSender.authenticate X _ (RequestSender.request this) ch)
    as [[|] a1]; cbn [negb]; [|cbn; split; [exact Heq | lia]].
  unfold RequestSender.bump_cseq. rewrite Hm.
  change (String.eqb JsSIP_C.REGISTER JsSIP_C.REGISTER) with true.
  cbn [fst snd RequestSender.request RequestSender.cseq
       RequestSender.applicant_cseq].
  rewrite send_retries. split; [reflexivity | lia].
Qed.

(** X24.  For a REGISTER the sender and its applicant stay in step: when
    the CSeq of the request is the CSeq stored by the applicant, this is
    still so after any responses, and each authentication retry has raised
    both by one.  So the response to the retried REGISTER carries the CSeq
    the Registrator expects. *)
Theorem RequestSender_register_cseq_in_step :
  forall {A : Type} (X : RequestSender.Collaborators A)
         (this : RequestSender.t A) (rs : list RequestSender.Response),
    Forall (fun r => RequestSender.resp_method r = JsSIP_C.REGISTER) rs ->
    RequestSender.cseq (RequestSender.request this)
    = RequestSender.applicant_cseq this ->
    let res := RequestSender.receiveResponses X this rs in
    RequestSender.cseq (RequestSender.request (fst res))
    = RequestSender.applicant_cseq (fst res)
    /\ RequestSender.applicant_cseq (fst res)
       = RequestSender.applicant_cseq this
         + Z.of_nat (RequestSender.retries (snd res))
    /\ (RequestSender.retries (snd res) <= 2)%nat.
Proof.
  intros A X this rs Hrs Heq. cbv zeta.
  refine ((fun H => conj (proj1 H) (conj (proj2 H) _)) _).
  - pose proof (receiveResponses_budget X rs this) as Hb.
    unfold RequestSender.budget in Hb.
    destruct (RequestSender.challenged this), (RequestSender.staled this);
      cbn in Hb; lia.
  - revert this Heq. induction Hrs as [|r tl Hr Htl IH]; intros this Heq.
    + cbn. split; [exact Heq | lia].
    + cbn [RequestSender.receiveResponses].
      pose proof (RequestSender_register_step X this r Hr Heq) as [H1 H2].
      destruct (RequestSender.receiveResponse X this r) as [this1 e1].
      cbn [fst snd] in *.
      destruct (IH this1 H1) as [I1 I2].
      destruct (RequestSender.receiveResponses X this1 tl) as [this2 e2].
      cbn [fst snd] in *. rewrite retries_app. split; [exact I1 | lia].
Qed.

Lemma RequestSender_register_cseq_in_step_witness :
  RequestSender.cseq
    (RequestSender.request
       (fst (RequestSender.receiveResponses accepting_digest register_sender
               [register_401])))
  = 82.
Proof.
  destruct (RequestSender_register_cseq_in_step accepting_digest
              register_sender [register_401]
              ltac:(repeat constructor) eq_refl) as (H1 & H2 & _).
  rewrite H1, H2. reflexivity.
Defined.

(** ** URI: headers *)



(** ** Registrator: the flag and the events *)

Lemma last_registration_event_app (e1 e2 : list Registrator.Effect) :
  forall seen,
    Registrator.last_registration_event (e1 ++ e2) seen
    = Registrator.last_registration_event e2
        (Registrator.last_registration_event e1 seen).
Proof.
  induction e1 as [|e tl IH]; intros seen; [reflexivity|].
  destruct e; cbn; apply IH.
Qed.

(** The flag after one call, against the events of the call: the flag is
    set only together with 'registered' as the last event, and an
    'unregistered' comes only with the flag cleared. *)
Lemma Registrator_call_flag (this : Registrator.t) (c : Registrator.Call) :
  forall seen,
    let r := Registrator.call this c in
    Registrator.registered (fst r) = true ->
    (Registrator.last_registration_event (snd r) seen = Some true)
    \/ (Registrator.registered this = true
        /\ Registrator.last_registration_event (snd r) seen = seen).
Proof.
  intros seen. cbv zeta.
  assert (Hfail : forall t0 resp cause s,
             Registrator.registered
               (fst (Registrator.registrationFailure t0 resp cause)) = true ->
             Registrator.registered t0 = true
             /\ Registrator.last_registration_event
                  (snd (Registrator.registrationFailure t0 resp cause)) s
                = s).
  { intros t0 resp cause s. unfold Registrator.registrationFailure.
    destruct (Registrator.registered t0) eqn:E; cbn; [discriminate|].
    intros H. rewrite E in H. discriminate H. }
  assert (Hunreg : forall t0 all,
             Registrator.registered
               (fst (Registrator.unregister t0 all)) = true -> False).
  { intros t0 all. unfold Registrator.unregister.
    destruct (Registrator.registered t0) eqn:E; cbn; [discriminate|].
    intros H. rewrite E in H. discriminate H. }
  destruct c; cbn [Registrator.call].
  - (* register *) cbn. intros H. right. split; [exact H | reflexivity].
  - intros H. destruct (Hunreg this all H).
  - (* receiveResponse *)
    unfold Registrator.receiveResponse.
    destruct (Registrator.handlers this).
    + unfold Registrator.register_receiveResponse.
      destruct (negb _); [cbn; intros H; right; split; [exact H|reflexivity]|].
      destruct (Registrator.is_1xx _);
        [cbn; intros H; right; split; [exact H|reflexivity]|].
      destruct (Registrator.is_2xx _).
      * destruct (Registrator.contacts r);
          [cbn; intros H; right; split; [exact H|reflexivity]|].
        destruct (Registrator.scan_contacts _ _ _) as [[c1|] m];
          cbn; intros H; [left; reflexivity|].
        right. split; [exact H | reflexivity].
      * destruct (_ =? 423).
        -- destruct (Registrator.min_expires_hdr r).
           ++ cbn. intros H. right. split; [exact H | reflexivity].
           ++ pose proof (Hfail this (Some r) Registrator.SIP_FAILURE_CODE
                            seen) as Hf.
              destruct (Registrator.registrationFailure this (Some r) _)
                as [t1 es]. cbn [fst snd] in *.
              intros H. right. destruct (Hf H) as [H1 H2].
              split; [exact H1 | exact H2].
        -- intros H. right. apply Hfail. exact H.
    + unfold Registrator.unregister_receiveResponse, Registrator.unregistered.
      destruct (Registrator.is_1xx _);
        [cbn; intros H; right; split; [exact H|reflexivity]|].
      destruct (Registrator.is_2xx _); cbn; intros H; discriminate H.
  - unfold Registrator.onRequestTimeout.
    destruct (Registrator.handlers this).
    + intros H. right. apply Hfail. exact H.
    + cbn. intros H. discriminate H.
  - unfold Registrator.onTransportError.
    destruct (Registrator.handlers this).
    + intros H. right. apply Hfail. exact H.
    + cbn. intros H. discriminate H.
  - cbn. intros H. right. split; [exact H | reflexivity].
  - unfold Registrator.onTransportClosed. cbn.
    destruct (Registrator.registered this) eqn:E; cbn.
    + intros H. discriminate H.
    + intros H. rewrite E in H. discriminate H.
  - cbn. intros H. right. split; [exact H | reflexivity].
  - unfold Registrator.close. intros H.
    destruct (Hunreg _ false H).
Qed.

(** X26.  The registered flag of a Registrator agrees with the events it
    has emitted: after any calls, when the flag is true, the last of the
    'registered' and 'unregistered' events emitted during those calls is
    'registered', or none was emitted and the flag was true before.  The
    Registrator never holds itself registered after having announced
    'unregistered'. *)
Theorem Registrator_flag_agrees_with_events :
  forall (this : Registrator.t) (cs : list Registrator.Call),
    let r := Registrator.calls this cs in
    Registrator.registered (fst r) = true ->
    match Registrator.last_registration_event (snd r) None with
    | Some b => b = true
    | None => Registrator.registered this = true
    end.
Proof.
  intros this cs. cbv zeta.
  assert (Hgen : forall seen,
             Registrator.registered (fst (Registrator.calls this cs)) = true ->
             Registrator.last_registration_event
               (snd (Registrator.calls this cs)) seen = Some true
             \/ (Registrator.registered this = true
                 /\ Registrator.last_registration_event
                      (snd (Registrator.calls this cs)) seen = seen)).
  { revert this. induction cs as [|c tl IH]; intros this seen H.
    - right. split; [exact H | reflexivity].
    - cbn [Registrator.calls] in *.
      pose proof (Registrator_call_flag this c seen) as Hc.
      cbv zeta in Hc.
      destruct (Registrator.call this c) as [this1 e1].
      specialize (IH this1).
      destruct (Registrator.calls this1 tl) as [this2 e2].
      cbn [fst snd] in *. rewrite last_registration_event_app.
      destruct (IH (Registrator.last_registration_event e1 seen) H)
        as [I|[I1 I2]].
      + left. exact I.
      + rewrite I2. destruct (Hc I1) as [Hl|[Hr1 Hr2]].
        * left. exact Hl.
        * right. split; assumption. }
  intros H. destruct (Hgen None H) as [-> | [H1 ->]];
    [reflexivity | exact H1].
Qed.

Lemma Registrator_flag_agrees_with_events_witness :
  Registrator.last_registration_event
    (snd (Registrator.calls registrator_600
            [Registrator.CallReceiveResponse
               (response_200 81 None
                  [contact_of "sip:alice@example.com" (Some 300)])]))
    None
  = Some true.
Proof.
  pose proof (Registrator_flag_agrees_with_events registrator_600
                [Registrator.CallReceiveResponse
                   (response_200 81 None
                      [contact_of "sip:alice@example.com" (Some 300)])]
                eq_refl) as H.
  destruct (Registrator.last_registration_event _ None) as [b|] eqn:E.
  - rewrite H. reflexivity.
  - discriminate H.
Defined.

(** ** RTCSession: the status of the session and its API *)

(** What a terminate() that returned has done to the status. *)
Lemma terminate_returns_terminated (this : RTCSession.t)
    (o : RTCSession.Options) :
  match RTCSession.terminate this o with
  | (this', es, None) =>
      if RTCSession.no_terminate_case (RTCSession.st this)
      then this' = this
      else RTCSession.st this' = RTCSession.STATUS_TERMINATED
  | (_, _, Some _) => True
  end.
Proof.
  assert (Hf : forall s c,
             RTCSession.is_terminated (RTCSession.st s) = false ->
             RTCSession.st (fst (RTCSession.failed s c))
             = RTCSession.STATUS_TERMINATED)
    by (intros s c Hs; apply (RTCSession_failed_shape s c Hs)).
  assert (He : forall s c,
             RTCSession.is_terminated (RTCSession.st s) = false ->
             RTCSession.st (fst (RTCSession.ended s c))
             = RTCSession.STATUS_TERMINATED)
    by (intros s c Hs; apply (RTCSession_ended_shape s c Hs)).
  unfold RTCSession.terminate.
  destruct (RTCSession.st this) eqn:Est;
    cbn [RTCSession.is_terminated RTCSession.no_terminate_case];
    try exact I; try reflexivity;
    try (destruct (RTCSession.invalid_status_code _); [exact I|]);
    try (destruct ((_ <? 300) || _); [exact I|]);
    try (destruct (match RTCSession.dir this with
                   | Some RTCSession.incoming =>
                       negb (RTCSession.server_transaction_terminated this)
                   | _ => false
                   end));
    match goal with
    | |- context [RTCSession.failed ?s ?c] =>
        pose proof (Hf s c ltac:(cbn; rewrite ?Est; reflexivity)) as H1;
        destruct (RTCSession.failed s c) as [t2 es2]
    | |- context [RTCSession.ended ?s ?c] =>
        pose proof (He s c ltac:(cbn; rewrite ?Est; reflexivity)) as H1;
        destruct (RTCSession.ended s c) as [t2 es2]
    end;
    cbn [fst snd] in *;
    try (destruct (RTCSession.dialog this); [|exact I]);
    exact H1.
Qed.

(** X27.  The three status tests of an RTCSession divide the states:
    exactly one of isInProgress, isEstablished and isEnded holds.  The
    calls agree with them: after a terminate() that returned, the session
    is ended unless it was in state InviteReceived, where terminate does
    nothing; sendDTMF returns and hold() returns true only on an
    established session. *)
Theorem RTCSession_status_tests :
  forall (this : RTCSession.t) (o : RTCSession.Options)
         (tns : RTCSession.Tones) (d : RTCSession.DTMFOptions)
         (L : RTCSession.Local) (h : RTCSession.HoldOptions),
    ((RTCSession.isInProgress this = true
      /\ RTCSession.isEstablished this = false
      /\ RTCSession.isEnded this = false)
     \/ (RTCSession.isInProgress this = false
         /\ RTCSession.isEstablished this = true
         /\ RTCSession.isEnded this = false)
     \/ (RTCSession.isInProgress this = false
         /\ RTCSession.isEstablished this = false
         /\ RTCSession.isEnded this = true))
    /\ (snd (RTCSession.terminate this o) = None ->
        RTCSession.st this <> RTCSession.STATUS_INVITE_RECEIVED ->
        RTCSession.isEnded (fst (fst (RTCSession.terminate this o))) = true)
    /\ (snd (RTCSession.sendDTMF this tns d) = None ->
        RTCSession.isEstablished this = true)
    /\ (snd (RTCSession.hold L h) = true ->
        RTCSession.isEstablished (RTCSession.session L) = true).
Proof.
  intros this o tns d L h.
  refine (conj _ (conj _ (conj _ _))).
  - unfold RTCSession.isInProgress, RTCSession.isEstablished,
      RTCSession.isEnded.
    destruct (RTCSession.st this); auto.
  - intros Hexn Hst.
    pose proof (terminate_returns_terminated this o) as H.
    destruct (RTCSession.terminate this o) as [[this' es] exn].
    cbn [fst snd] in *. subst exn.
    unfold RTCSession.isEnded.
    destruct (RTCSession.no_terminate_case (RTCSession.st this)) eqn:Eno.
    + subst this'.
      destruct (RTCSession.st this); try discriminate Eno;
        [destruct (Hst eq_refl) | reflexivity].
    + rewrite H. reflexivity.
  - unfold RTCSession.sendDTMF, RTCSession.isEstablished.
    destruct tns; [intros H; discriminate H| | |];
      destruct (RTCSession.st this); cbn [snd];
      try (intros H; discriminate H); reflexivity.
  - unfold RTCSession.hold, RTCSession.isEstablished.
    destruct (RTCSession.st (RTCSession.session L)); cbn;
      try (intros H; discriminate H); reflexivity.
Qed.
